(** * Lyra abstract domains: assumption lattices and the variable store

    A shallow embedding of
    - [lyra/abstract_domains/quality/assumption_lattice.py]
      ([TypeLattice], [AssumptionLattice], [InputAssumptionLattice]) and
    - [lyra/abstract_domains/store.py] ([Store]).

    Python objects are mutated in place and every lattice operation returns
    its receiver.  The first part of the development uses value semantics:
    an operation maps the receiver's old value to its new value.  The last
    part ([Module Heap]) keeps objects in an explicit store, with references
    and aliasing, to reason about what a call mutates. *)

From Stdlib Require Import ZArith.
From stdpp Require Import gmap strings list pretty.

Open Scope Z_scope.

(** ** Python exceptions and outcomes *)

Inductive exn : Type :=
| ValueError (msg : string)
| KeyError (key : string)
| NotImplementedError (msg : string)
| AssertionError
| TypeError
| AttributeError
| IndexError.

(** The outcome of a call: a value, a raised exception, or [OutOfFuel] for
    the recursive functions that are defined with a step budget. *)
Inductive outcome (A : Type) : Type :=
| Ok (a : A)
| Raise (e : exn)
| OutOfFuel.
Arguments Ok {A} a.
Arguments Raise {A} e.
Arguments OutOfFuel {A}.

Definition obind {A B} (m : outcome A) (k : A -> outcome B) : outcome B :=
  match m with
  | Ok a => k a
  | Raise e => Raise e
  | OutOfFuel => OutOfFuel
  end.

Notation "x <~ m ; k" := (obind m (fun x => k))
  (at level 20, m at level 100, k at level 200, only parsing).

Definition returns {A} (m : outcome A) : Prop := exists a, m = Ok a.

(** ** The base contract ([lyra/abstract_domains/lattice.py]) *)

Module Lattice.

(** The abstract methods a concrete lattice implements. *)
Class Ops (L : Type) : Type := {
  repr : L -> string;
  bottom : L -> L;
  top : L -> L;
  is_bottom : L -> bool;
  is_top : L -> bool;
  _less_equal : L -> L -> outcome bool;
  _join : L -> L -> outcome L;
  _meet : L -> L -> outcome L;
  _widening : L -> L -> outcome L
}.

(** Modelled from the spec: [Lattice.replace] (lattice.py is not part of
    the sources at hand).  The receiver adopts the content of [other]: the
    attributes of [other] overwrite those of the receiver, which for two
    objects of one class is every field. *)
Definition replace {L} (self other : L) : L := other.

(** Modelled from the spec: the public operations of the base class
    [Lattice] (lattice.py is not part of the sources at hand).  Each one
    first settles the trivial cases with bottom and top by their closed
    form and otherwise delegates to the hook of the concrete domain. *)
Definition less_equal_via {L} (is_bottom is_top : L -> bool)
    (hook : L -> L -> outcome bool) (self other : L) : outcome bool :=
  if is_bottom self || is_top other then Ok true
  else if is_bottom other || is_top self then Ok false
  else hook self other.

Definition join_via {L} (is_bottom is_top : L -> bool)
    (hook : L -> L -> outcome L) (self other : L) : outcome L :=
  if is_bottom self || is_top other then Ok (replace self other)
  else if is_bottom other || is_top self then Ok self
  else hook self other.

Definition meet_via {L} (is_bottom is_top : L -> bool)
    (hook : L -> L -> outcome L) (self other : L) : outcome L :=
  if is_top self || is_bottom other then Ok (replace self other)
  else if is_top other || is_bottom self then Ok self
  else hook self other.

(** Modelled from the spec: [Lattice.widening] (lattice.py is not part of
    the sources at hand).  No closed form of its own is given for
    [widening]: a bottom receiver or a top argument is settled as for
    [join], and every other pair goes to the hook. *)
Definition widening_via {L} (is_bottom is_top : L -> bool)
    (hook : L -> L -> outcome L) (self other : L) : outcome L :=
  if is_bottom self || is_top other then Ok (replace self other)
  else hook self other.

Definition less_equal `{Ops L} : L -> L -> outcome bool :=
  less_equal_via is_bottom is_top _less_equal.
Definition join `{Ops L} : L -> L -> outcome L :=
  join_via is_bottom is_top _join.
Definition meet `{Ops L} : L -> L -> outcome L :=
  meet_via is_bottom is_top _meet.
Definition widening `{Ops L} : L -> L -> outcome L :=
  widening_via is_bottom is_top _widening.

(** Modelled from the spec: [BoundedLattice.Kind] (lattice.py is not part
    of the sources at hand), the built-in distinction between the bottom,
    top and default elements of a bounded lattice. *)
Inductive Kind : Type := BOTTOM | DEFAULT | TOP.

#[global] Instance Kind_eq_dec : EqDecision Kind.
Proof. solve_decision. Defined.

End Lattice.

(** ** TypeLattice *)

Module TypeLattice.

(** [class Status(IntEnum)]: Any = 3, Float = 2, Int = 1, Bool = 0. *)
Inductive Status : Type := Any | Float | Int | Bool.

#[global] Instance Status_eq_dec : EqDecision Status.
Proof. solve_decision. Defined.

Definition value (s : Status) : Z :=
  match s with Any => 3 | Float => 2 | Int => 1 | Bool => 0 end.

Definition name (s : Status) : string :=
  match s with
  | Any => "Any" | Float => "Float" | Int => "Int" | Bool => "Bool"
  end.

(** [max] and [min] of two members of the enumeration: the first argument
    wins a tie. *)
Definition max_status (a b : Status) : Status :=
  if value a <? value b then b else a.
Definition min_status (a b : Status) : Status :=
  if value b <? value a then b else a.

(** Modelled from the spec: the bottom flag of [BottomMixin] (lattice.py
    is not part of the sources at hand); [_element] is the rank. *)
Record t : Type := mk { _is_bottom : bool; _element : Status }.

#[global] Instance t_eq_dec : EqDecision t.
Proof. solve_decision. Defined.

(** [TypeLattice(type_status)] *)
Definition init (type_status : Status) : t :=
  {| _is_bottom := false; _element := type_status |}.

Definition is_bottom (self : t) : bool := _is_bottom self.

Definition bottom (self : t) : t :=
  {| _is_bottom := true; _element := _element self |}.

(** The [element] property: [None] on bottom. *)
Definition element (self : t) : option Status :=
  if is_bottom self then None else Some (_element self).

Definition repr (self : t) : string :=
  if is_bottom self then "⊥" else name (_element self).

Definition top (self : t) : t := Lattice.replace self (init Any).
Definition real (self : t) : t := Lattice.replace self (init Float).
Definition integer (self : t) : t := Lattice.replace self (init Int).
Definition boolean (self : t) : t := Lattice.replace self (init Bool).

(** [self.element == TypeLattice.Status.Float], and so on: on bottom the
    property is [None], which equals no member of the enumeration. *)
Definition is_real (self : t) : bool := bool_decide (element self = Some Float).
Definition is_integer (self : t) : bool := bool_decide (element self = Some Int).
Definition is_boolean (self : t) : bool := bool_decide (element self = Some Bool).

Definition is_top (self : t) : bool := bool_decide (element self = Some Any).

(** Comparing or ordering [None] with a member of the enumeration raises
    a [TypeError]. *)
Definition _less_equal (self other : t) : outcome bool :=
  match element self, element other with
  | Some a, Some b => Ok (value a <=? value b)
  | _, _ => Raise TypeError
  end.

Definition _join (self other : t) : outcome t :=
  match element self, element other with
  | Some a, Some b => Ok (Lattice.replace self (init (max_status a b)))
  | _, _ => Raise TypeError
  end.

Definition _meet (self other : t) : outcome t :=
  match element self, element other with
  | Some a, Some b => Ok (Lattice.replace self (init (min_status a b)))
  | _, _ => Raise TypeError
  end.

Definition _widening (self other : t) : outcome t := _join self other.

#[global] Instance ops : Lattice.Ops t := {|
  Lattice.repr := repr;
  Lattice.bottom := bottom;
  Lattice.top := top;
  Lattice.is_bottom := is_bottom;
  Lattice.is_top := is_top;
  Lattice._less_equal := _less_equal;
  Lattice._join := _join;
  Lattice._meet := _meet;
  Lattice._widening := _widening
|}.

(** The elements a fixpoint iteration visits when it widens [self] with the
    elements of [others], one after the other, through the hook. *)
Fixpoint widening_chain (self : t) (others : list t) : outcome (list t) :=
  match others with
  | [] => Ok [self]
  | other :: rest =>
    self' <~ _widening self other ;
    chain <~ widening_chain self' rest ;
    Ok (self :: chain)
  end.

(** The number of steps of a chain at which the element changes. *)
Fixpoint changes (chain : list t) : nat :=
  match chain with
  | x :: (y :: _) as rest => ((if bool_decide (x = y) then 0 else 1) + changes rest)%nat
  | _ => 0%nat
  end.

End TypeLattice.

(** ** AssumptionLattice, over any numeric-range lattice [R] *)

Module AssumptionLattice.
Section with_range.

(** The range lattice ([IntervalLattice], of interval_domain.py) is taken
    through the base contract, together with its default constructor. *)
Context {R : Type} `{!Lattice.Ops R}.
Variable IntervalLattice_init : R.

(** The two entries of the [_assumptions] dictionary, in insertion order:
    [type_assmp], then [range_assmp]. *)
Record t : Type := mk { type_assumption : TypeLattice.t; range_assumption : R }.

(** [AssumptionLattice(type_element=None, range_element=None)] *)
Definition init (type_element : option TypeLattice.t) (range_element : option R) : t :=
  {| type_assumption :=
       default (TypeLattice.top (TypeLattice.init TypeLattice.Any)) type_element;
     range_assumption :=
       default (Lattice.top IntervalLattice_init) range_element |}.

Definition repr (self : t) : string :=
  "(" +:+ TypeLattice.repr (type_assumption self) +:+ ", "
      +:+ Lattice.repr (range_assumption self) +:+ ")".

Definition bottom (self : t) : t :=
  {| type_assumption := Lattice.bottom (type_assumption self);
     range_assumption := Lattice.bottom (range_assumption self) |}.

Definition top (self : t) : t :=
  {| type_assumption := Lattice.top (type_assumption self);
     range_assumption := Lattice.top (range_assumption self) |}.

(** [for assumption in self.assumptions.values(): if assumption.is_bottom(): return True] *)
Definition is_bottom (self : t) : bool :=
  if Lattice.is_bottom (type_assumption self) then true
  else if Lattice.is_bottom (range_assumption self) then true
  else false.

(** [for assumption in self.assumptions.values(): if not assumption.is_top(): return False] *)
Definition is_top (self : t) : bool :=
  if negb (Lattice.is_top (type_assumption self)) then false
  else if negb (Lattice.is_top (range_assumption self)) then false
  else true.

(** [a.less_equal(..) and b.less_equal(..)]: the second is not evaluated
    when the first is false. *)
Definition _less_equal (self other : t) : outcome bool :=
  b <~ Lattice.less_equal (type_assumption self) (type_assumption other) ;
  if b then Lattice.less_equal (range_assumption self) (range_assumption other)
  else Ok false.

Definition _join (self other : t) : outcome t :=
  ty <~ Lattice.join (type_assumption self) (type_assumption other) ;
  rg <~ Lattice.join (range_assumption self) (range_assumption other) ;
  Ok {| type_assumption := ty; range_assumption := rg |}.

Definition _meet (self other : t) : outcome t :=
  ty <~ Lattice.meet (type_assumption self) (type_assumption other) ;
  rg <~ Lattice.meet (range_assumption self) (range_assumption other) ;
  Ok {| type_assumption := ty; range_assumption := rg |}.

Definition _widening (self other : t) : outcome t :=
  ty <~ Lattice.widening (type_assumption self) (type_assumption other) ;
  rg <~ Lattice.widening (range_assumption self) (range_assumption other) ;
  Ok {| type_assumption := ty; range_assumption := rg |}.

#[global] Instance ops : Lattice.Ops t := {|
  Lattice.repr := repr;
  Lattice.bottom := bottom;
  Lattice.top := top;
  Lattice.is_bottom := is_bottom;
  Lattice.is_top := is_top;
  Lattice._less_equal := _less_equal;
  Lattice._join := _join;
  Lattice._meet := _meet;
  Lattice._widening := _widening
|}.

End with_range.
Arguments t R : clear implicits.
End AssumptionLattice.

(** ** A numeric-range lattice to instantiate the range component *)

Module IntervalLattice.

(** Modelled from the spec: [IntervalLattice] (interval_domain.py is not
    part of the sources at hand): a numeric range with a default top
    element that satisfies the base contract.  A bound is an integer or
    [None] for an infinite bound; the bottom flag is the one of
    [BottomMixin]. *)
Record t : Type := mk { _is_bottom : bool; lower : option Z; upper : option Z }.

#[global] Instance t_eq_dec : EqDecision t.
Proof. solve_decision. Defined.

Definition init : t := {| _is_bottom := false; lower := None; upper := None |}.
Definition of_bounds (lo hi : Z) : t :=
  {| _is_bottom := false; lower := Some lo; upper := Some hi |}.

Definition is_bottom (self : t) : bool := _is_bottom self.
Definition bottom (self : t) : t :=
  {| _is_bottom := true; lower := lower self; upper := upper self |}.
Definition top (self : t) : t := Lattice.replace self init.
Definition is_top (self : t) : bool :=
  negb (is_bottom self) && bool_decide (lower self = None) && bool_decide (upper self = None).

Definition repr_bound (inf : string) (b : option Z) : string :=
  match b with Some z => pretty z | None => inf end.
Definition repr (self : t) : string :=
  if is_bottom self then "⊥"
  else "[" +:+ repr_bound "-inf" (lower self) +:+ ", "
           +:+ repr_bound "inf" (upper self) +:+ "]".

(** Lower bounds: [None] is minus infinity; upper bounds: [None] is plus
    infinity. *)
Definition lower_le (a b : option Z) : bool :=
  match a, b with
  | None, _ => true
  | Some _, None => false
  | Some x, Some y => x <=? y
  end.
Definition upper_le (a b : option Z) : bool :=
  match a, b with
  | _, None => true
  | None, Some _ => false
  | Some x, Some y => x <=? y
  end.

Definition _less_equal (self other : t) : outcome bool :=
  Ok (lower_le (lower other) (lower self) && upper_le (upper self) (upper other)).

Definition _join (self other : t) : outcome t :=
  Ok {| _is_bottom := false;
        lower := if lower_le (lower self) (lower other) then lower self else lower other;
        upper := if upper_le (upper self) (upper other) then upper other else upper self |}.

Definition _meet (self other : t) : outcome t :=
  let lo := if lower_le (lower self) (lower other) then lower other else lower self in
  let hi := if upper_le (upper self) (upper other) then upper self else upper other in
  Ok {| _is_bottom :=
          match lo, hi with Some l, Some h => h <? l | _, _ => false end;
        lower := lo; upper := hi |}.

Definition _widening (self other : t) : outcome t :=
  Ok {| _is_bottom := false;
        lower := if lower_le (lower self) (lower other) then lower self else None;
        upper := if upper_le (upper other) (upper self) then upper self else None |}.

#[global] Instance ops : Lattice.Ops t := {|
  Lattice.repr := repr;
  Lattice.bottom := bottom;
  Lattice.top := top;
  Lattice.is_bottom := is_bottom;
  Lattice.is_top := is_top;
  Lattice._less_equal := _less_equal;
  Lattice._join := _join;
  Lattice._meet := _meet;
  Lattice._widening := _widening
|}.

End IntervalLattice.

(** [copy.deepcopy] under value semantics: a value is its own duplicate. *)
Definition deepcopy {A} (x : A) : A := x.

(** ** InputAssumptionLattice *)

Module InputAssumptionLattice.

(** The fields of an [InputAssumptionLattice] object over elements of type
    [A].  [kind] is the state of [BoundedLattice]; [iterations] is [None]
    for the unresolved placeholder; [condition] is opaque. *)
Record node (Cond A : Type) : Type := mk {
  kind : Lattice.Kind;
  iterations : option Z;
  _assmps : list A;
  is_loop : bool;
  condition : option Cond
}.
Arguments mk {Cond A}.
Arguments kind {Cond A}.
Arguments iterations {Cond A}.
Arguments _assmps {Cond A}.
Arguments is_loop {Cond A}.
Arguments condition {Cond A}.

(** An element of the assumption list: a leaf [AssumptionLattice] or a
    nested [InputAssumptionLattice]. *)
#[warnings="-register-all"] Inductive assmp (R Cond : Type) : Type :=
| Leaf (a : AssumptionLattice.t R)
| Nested (i : node Cond (assmp R Cond)).
Arguments Leaf {R Cond}.
Arguments Nested {R Cond}.

Definition t (R Cond : Type) : Type := node Cond (assmp R Cond).

Section with_range.

Context {R : Type} `{!Lattice.Ops R} {Cond : Type}.

#[local] Abbreviation t := (t R Cond).
#[local] Abbreviation assmp := (assmp R Cond).

(** [InputAssumptionLattice(iterations, assmps)] *)
Definition init (iterations : option Z) (assmps : option (list assmp)) : t :=
  {| kind := Lattice.DEFAULT;
     iterations := iterations;
     _assmps := default [] assmps;
     is_loop := false;
     condition := None |}.

Definition set_kind (k : Lattice.Kind) (self : t) : t :=
  mk k (iterations self) (_assmps self) (is_loop self) (condition self).
Definition set_assmps (l : list assmp) (self : t) : t :=
  mk (kind self) (iterations self) l (is_loop self) (condition self).
Definition set_is_loop (b : bool) (self : t) : t :=
  mk (kind self) (iterations self) (_assmps self) b (condition self).

(** Modelled from the spec: [bottom], [top], [is_bottom] and [is_top] of
    [BoundedLattice] (lattice.py is not part of the sources at hand): they
    force and test the distinguished elements in place. *)
Definition bottom (self : t) : t := set_kind Lattice.BOTTOM self.
Definition top (self : t) : t := set_kind Lattice.TOP self.
Definition is_bottom (self : t) : bool := bool_decide (kind self = Lattice.BOTTOM).
Definition is_top (self : t) : bool := bool_decide (kind self = Lattice.TOP).

(** The fields of an element besides its kind and its sequence. *)
Definition header (self : t) : option Z * bool * option Cond :=
  (iterations self, is_loop self, condition self).

(** The [assmps] property: [None] on bottom and on top. *)
Definition assmps (self : t) : option (list assmp) :=
  if is_bottom self || is_top self then None else Some (_assmps self).

Definition isinstance_InputAssumptionLattice (a : assmp) : bool :=
  match a with Nested _ => true | Leaf _ => false end.

(** [isinstance(a, InputAssumptionLattice) and a.iterations is None] *)
Definition is_placeholder (a : assmp) : bool :=
  match a with
  | Nested i => bool_decide (iterations i = None)
  | Leaf _ => false
  end.

Definition assmp_is_bottom (a : assmp) : bool :=
  match a with
  | Leaf x => AssumptionLattice.is_bottom x
  | Nested i => is_bottom i
  end.
Definition assmp_is_top (a : assmp) : bool :=
  match a with
  | Leaf x => AssumptionLattice.is_top x
  | Nested i => is_top i
  end.

(** *** [__repr__] *)

Definition repr_list (reprs : list string) : string :=
  "[" +:+ String.concat ", " reprs +:+ "]".

Definition repr_with (rec : assmp -> string) (self : t) : string :=
  if is_bottom self then "⊥"
  else if is_top self then "T"
  else match iterations self with
       | None => "NONE"
       | Some n =>
         if bool_decide (n = 1) then repr_list (map rec (_assmps self))
         else pretty n +:+ " x " +:+ repr_list (map rec (_assmps self))
       end.

Fixpoint assmp_repr (a : assmp) : string :=
  match a with
  | Leaf x => AssumptionLattice.repr x
  | Nested i => repr_with assmp_repr i
  end.

Definition repr (self : t) : string := repr_with assmp_repr self.

(** *** Mutator helpers *)

(** [assert isinstance(assmp, AssumptionLattice); self._assmps.insert(0, assmp)] *)
Definition add_assumption_front (self : t) (a : assmp) : outcome t :=
  match a with
  | Leaf _ => Ok (set_assmps (a :: _assmps self) self)
  | Nested _ => Raise AssertionError
  end.

(** [self._assmps = assmps + self.assmps]: concatenating a list with
    [None] raises a [TypeError]. *)
Definition add_assumptions_front (self : t) (new : list assmp) : outcome t :=
  match assmps self with
  | Some l => Ok (set_assmps (new ++ l) self)
  | None => Raise TypeError
  end.

Definition add_assumptions_with_iter (self : t) (iterations : option Z)
    (new : list assmp) : t :=
  let input_assmps := init iterations (Some new) in
  let input_assmps := set_is_loop true input_assmps in
  set_assmps (Nested input_assmps :: _assmps self) self.

(** *** [_less_equal] *)

(** [for assmp1, assmp2 in zip(..): if not assmp1.less_equal(assmp2): return False] *)
Definition less_equal_positions (le : assmp -> assmp -> outcome bool)
    : list assmp -> list assmp -> outcome bool :=
  fix loop l1 l2 :=
    match l1, l2 with
    | a1 :: t1, a2 :: t2 =>
      b <~ le a1 a2 ;
      if b then loop t1 t2 else Ok false
    | _, _ => Ok true
    end.

(** The hook, over the public comparison [le] of the elements.  Taking the
    length of [None] (the [assmps] of bottom or top) raises a
    [TypeError]. *)
Definition _less_equal_with (le : assmp -> assmp -> outcome bool)
    (self other : t) : outcome bool :=
  match assmps self, assmps other with
  | Some _, Some _ =>
    if bool_decide (length (_assmps self) ≠ length (_assmps other)) then Ok false
    else less_equal_positions le (_assmps self) (_assmps other)
  | _, _ => Raise TypeError
  end.

(** [assmp1.less_equal(assmp2)]: the public comparison of the base class,
    dispatched on the class of [assmp1].  A hook that meets an element of
    the other class reads an attribute it does not have. *)
Fixpoint assmp_less_equal (a1 a2 : assmp) {struct a1} : outcome bool :=
  if assmp_is_bottom a1 || assmp_is_top a2 then Ok true
  else if assmp_is_bottom a2 || assmp_is_top a1 then Ok false
  else match a1, a2 with
       | Leaf x, Leaf y => AssumptionLattice._less_equal x y
       | Nested i, Nested j => _less_equal_with assmp_less_equal i j
       | _, _ => Raise AttributeError
       end.

Definition _less_equal (self other : t) : outcome bool :=
  _less_equal_with assmp_less_equal self other.

Definition less_equal (self other : t) : outcome bool :=
  Lattice.less_equal_via is_bottom is_top _less_equal self other.

(** *** [_join] *)

(** [assmp1.replace(assmp2)] on an element of a sequence.  [replace]
    overwrites the attributes of the receiver with those of its argument
    and leaves the object in its place and in its class.  From an element
    of its own class the receiver takes every field.  From an element of
    the other class it gains attributes that none of its own methods reads
    (a nested element gains the [_assumptions] of a leaf) and keeps its own
    fields: it is the element it was. *)
Definition assmp_replace (assmp1 assmp2 : assmp) : assmp :=
  match assmp1, assmp2 with
  | Leaf x, Leaf y => Leaf (Lattice.replace x y)
  | Nested i, Nested j => Nested (Lattice.replace i j)
  | _, _ => assmp1
  end.

(** One round of the position-wise loop, over the public join [rec] of
    nested elements.  [Some a] is the new content of the position of
    [assmp1]; [None] is the [else] branch, which leaves the loop. *)
Definition join_position (rec : t -> t -> outcome t) (assmp1 assmp2 : assmp)
    : outcome (option assmp) :=
  if is_placeholder assmp1 then Ok (Some (assmp_replace assmp1 (deepcopy assmp2)))
  else if is_placeholder assmp2 then Ok (Some assmp1)
  else match assmp1, assmp2 with
       | Leaf x, Leaf y => x' <~ Lattice.join x y ; Ok (Some (Leaf x'))
       | Nested i, Nested j => i' <~ rec i j ; Ok (Some (Nested i'))
       | _, _ => Ok None
       end.

(** One position of the position-wise join, as the loop settles it: a
    nested position of the receiver with unresolved iterations adopts the
    content of a nested element of the argument, and stays as it is in
    front of a leaf; a position is passed over when the unresolved element
    stands on the side of the argument; two leaves, or two nested resolved
    elements, are joined. *)
Inductive position_joined (rec : t -> t -> outcome t) : assmp -> assmp -> assmp -> Prop :=
| adopt_other a1 j :
    is_placeholder a1 = true ->
    position_joined rec a1 (Nested j) (Nested j)
| keep_unresolved a1 y :
    is_placeholder a1 = true ->
    position_joined rec a1 (Leaf y) a1
| keep_self a1 a2 :
    is_placeholder a1 = false -> is_placeholder a2 = true ->
    position_joined rec a1 a2 a1
| join_leaves x y x' :
    Lattice.join x y = Ok x' ->
    position_joined rec (Leaf x) (Leaf y) (Leaf x')
| join_nested i j i' :
    iterations i ≠ None -> iterations j ≠ None ->
    rec i j = Ok i' ->
    position_joined rec (Nested i) (Nested j) (Nested i').

(** Two positions that differ in kind: a leaf against a nested element,
    none of them a placeholder. *)
Definition kinds_differ (a1 a2 : assmp) : Prop :=
  is_placeholder a1 = false /\ is_placeholder a2 = false
  /\ isinstance_InputAssumptionLattice a1 ≠ isinstance_InputAssumptionLattice a2.

(** [for assmp1, assmp2 in zip(self.assmps, other.assmps)]: the list after
    the loop, and whether the loop ran to its end ([true]) or was left by
    [return self.top()] ([false]). *)
Fixpoint join_positions (rec : t -> t -> outcome t) (l1 l2 : list assmp)
    : outcome (list assmp * bool) :=
  match l1, l2 with
  | a1 :: t1, a2 :: t2 =>
    r <~ join_position rec a1 a2 ;
    match r with
    | Some a1' =>
      rest <~ join_positions rec t1 t2 ;
      Ok (a1' :: rest.1, rest.2)
    | None => Ok (a1 :: t1, false)
    end
  | _, _ => Ok (l1, true)
  end.

(** The length-reconciliation step: [longer] is the side with more
    elements, [shorter_assmps] the list of the other side.  [Some r] is
    the outcome of the step when the shapes fit; [None] falls through to
    the final [return self.top()]. *)
Definition fold_first_two (rec : t -> t -> outcome t) (longer : t)
    (shorter_assmps : list assmp) : option (outcome t) :=
  match shorter_assmps !! 0%nat with
  | Some (Nested placeholder) =>
    match _assmps longer with
    | Nested i0 :: Nested i1 :: rest =>
      if bool_decide (iterations placeholder = None) then
        Some (i0' <~ rec i0 i1 ;
              let folded := set_assmps (Nested i0' :: rest) longer in
              if bool_decide (length (_assmps folded) = length shorter_assmps)
              then Ok folded
              else Raise AssertionError)
      else None
    | _ => None
    end
  | _ => None
  end.

(** The shape that [_join] tests before a length-reconciliation step: the
    shorter side starts with a nested element whose iterations are
    unresolved, and the first two elements of the longer side are nested. *)
Definition reconcilable (shorter longer : list assmp) : bool :=
  match shorter, longer with
  | Nested placeholder :: _, Nested _ :: Nested _ :: _ =>
    bool_decide (iterations placeholder = None)
  | _, _ => false
  end.

(** The shape as the specification words it: the first element of the
    longer side is a nested element with unresolved iterations, and it is
    immediately followed by two nested, resolved elements. *)
Definition spec_reconcilable (longer : list assmp) : bool :=
  match longer with
  | Nested first :: Nested second :: Nested third :: _ =>
    bool_decide (iterations first = None)
    && bool_decide (iterations second ≠ None)
    && bool_decide (iterations third ≠ None)
  | _ => false
  end.

(** The hook [_join], over the public join [rec]. *)
Definition _join_with (rec : t -> t -> outcome t) (self other : t) : outcome t :=
  match iterations other with
  | None => Ok self
  | Some n2 =>
    match iterations self with
    | None => Ok (Lattice.replace self (deepcopy other))
    | Some n1 =>
      if bool_decide (n1 ≠ n2) then Ok (top self)
      else
        match assmps self, assmps other with
        | Some l1, Some l2 =>
          if bool_decide (length l1 = length l2) then
            r <~ join_positions rec l1 l2 ;
            let self' := set_assmps r.1 self in
            if r.2 then Ok self' else Ok (top self')
          else if bool_decide (length l2 < length l1)%nat
                  && bool_decide (0 < length l2)%nat then
            match fold_first_two rec self l2 with
            | Some step => self' <~ step ; rec self' other
            | None => Ok (top self)
            end
          else if bool_decide (length l1 < length l2)%nat
                  && bool_decide (0 < length l1)%nat then
            match fold_first_two rec (deepcopy other) l1 with
            | Some step => other_copy <~ step ; rec self other_copy
            | None => Ok (top self)
            end
          else Ok (top self)
        | _, _ => Raise TypeError
        end
    end
  end.

(** The public [join]: the dispatcher of the base class around the hook.
    The recursion is by a step budget: a retry after the
    length-reconciliation step joins a receiver that is no part of the
    original one. *)
Fixpoint join_fuel (fuel : nat) (self other : t) {struct fuel} : outcome t :=
  match fuel with
  | O => OutOfFuel
  | S fuel' =>
    Lattice.join_via is_bottom is_top (_join_with (join_fuel fuel')) self other
  end.

Fixpoint assmp_height (a : assmp) : nat :=
  match a with
  | Leaf _ => 0
  | Nested i => S (max_list (map assmp_height (_assmps i)))
  end.

Definition height (self : t) : nat := assmp_height (Nested self).

(** A budget that always suffices (see [join_fuel_enough]). *)
Definition enough_fuel (self other : t) : nat :=
  2 * (height self `max` height other).

Definition join (self other : t) : outcome t :=
  join_fuel (enough_fuel self other) self other.

Definition _join (self other : t) : outcome t := _join_with join self other.

(** [rec'] answers as [rec] does wherever [rec] stays within its budget. *)
Definition extends (rec rec' : t -> t -> outcome t) : Prop :=
  forall x y, rec x y ≠ OutOfFuel -> rec' x y = rec x y.

(** *** [_meet] and [_widening] *)

Definition _meet (self other : t) : outcome t :=
  Raise (NotImplementedError
           ("Meet for " +:+ repr self +:+ " and " +:+ repr other
              +:+ " is not implemented.")).

Definition _widening (self other : t) : outcome t :=
  Raise (NotImplementedError
           ("Widening for " +:+ repr self +:+ " and " +:+ repr other
              +:+ " is not implemented.")).

#[global] Instance ops : Lattice.Ops t := {|
  Lattice.repr := repr;
  Lattice.bottom := bottom;
  Lattice.top := top;
  Lattice.is_bottom := is_bottom;
  Lattice.is_top := is_top;
  Lattice._less_equal := _less_equal;
  Lattice._join := _join;
  Lattice._meet := _meet;
  Lattice._widening := _widening
|}.

End with_range.
End InputAssumptionLattice.

(** ** Store *)

(** A Python [dict], or a [defaultdict] when [default_factory] is set: the
    value its factory makes is what a missing key reads.  (A [defaultdict]
    also records that value under the key; no later read can tell.) *)
Record pydict (K V : Type) `{Countable K} : Type := mk_pydict {
  entries : gmap K V;
  default_factory : option V
}.
Arguments mk_pydict {K V _ _}.
Arguments entries {K V _ _}.
Arguments default_factory {K V _ _}.

(** [d[k]]: [None] stands for [KeyError(k)]. *)
Definition getitem {K V : Type} `{Countable K} (d : pydict K V) (k : K) : option V :=
  match entries d !! k with
  | Some v => Some v
  | None => default_factory d
  end.

Module Store.
Section with_lattices.

(** Program variables and their static types ([v.typ]); [L] is the type of
    lattice elements, [LatticeClass] the lattice classes the store may
    instantiate, and [construct cls kwargs] is the call of the class [cls]
    with the keyword arguments [kwargs]. *)
Context {VariableIdentifier LyraType : Type}.
Context `{Countable VariableIdentifier} `{Countable LyraType}.
Variable typ : VariableIdentifier -> LyraType.
Variable repr_typ : LyraType -> string.
Variable repr_var : VariableIdentifier -> string.
Context {L LatticeClass Kwargs : Type} `{!Lattice.Ops L}.
Variable construct : LatticeClass -> Kwargs -> L.

Record t : Type := mk {
  _lattices : pydict LyraType LatticeClass;
  _arguments : pydict LyraType Kwargs;
  _store : gmap VariableIdentifier L
}.

Definition store (self : t) : gmap VariableIdentifier L := _store self.

(** The call of [lattices[v.typ]] with the keyword arguments
    [arguments[v.typ]]: the class is looked up first, then its arguments;
    [inl key] is the [KeyError] of a failed lookup. *)
Definition fresh_element (lattices : pydict LyraType LatticeClass)
    (arguments : pydict LyraType Kwargs) (v : VariableIdentifier) : LyraType + L :=
  match getitem lattices (typ v) with
  | None => inl (typ v)
  | Some cls =>
    match getitem arguments (typ v) with
    | None => inl (typ v)
    | Some kwargs => inr (construct cls kwargs)
    end
  end.

(** The dictionary comprehension over [variables], started from the
    entries [acc] already made: a later duplicate overwrites. *)
Fixpoint comprehension (lattices : pydict LyraType LatticeClass)
    (arguments : pydict LyraType Kwargs) (variables : list VariableIdentifier)
    (acc : gmap VariableIdentifier L) : LyraType + gmap VariableIdentifier L :=
  match variables with
  | [] => inr acc
  | v :: rest =>
    match fresh_element lattices arguments v with
    | inl key => inl key
    | inr x => comprehension lattices arguments rest (<[v := x]> acc)
    end
  end.

Definition missing_lattice (key : LyraType) : string :=
  "Missing lattice for variable type " +:+ repr_typ key +:+ "!".

(** [Store(variables, lattices, arguments)] *)
Definition init (variables : list VariableIdentifier)
    (lattices : pydict LyraType LatticeClass)
    (arguments : pydict LyraType Kwargs) : outcome t :=
  match comprehension lattices arguments variables ∅ with
  | inr st => Ok {| _lattices := lattices; _arguments := arguments; _store := st |}
  | inl key => Raise (ValueError (missing_lattice key))
  end.

Definition already_present : string :=
  "Variable can only be added to a store if it is not already present".

Definition add_var (self : t) (var : VariableIdentifier) : outcome t :=
  if bool_decide (var ∉ dom (store self)) then
    match fresh_element (_lattices self) (_arguments self) var with
    | inr x =>
      Ok {| _lattices := _lattices self; _arguments := _arguments self;
            _store := <[var := x]> (store self) |}
    | inl key => Raise (KeyError (repr_typ key))
    end
  else Raise (ValueError already_present).

Definition remove_var (self : t) (var : VariableIdentifier) : t :=
  if bool_decide (var ∈ dom (store self)) then
    {| _lattices := _lattices self; _arguments := _arguments self;
       _store := delete var (store self) |}
  else self.

(** [self.store[var].top()] *)
Definition invalidate_var (self : t) (var : VariableIdentifier) : outcome t :=
  match store self !! var with
  | Some x =>
    Ok {| _lattices := _lattices self; _arguments := _arguments self;
          _store := <[var := Lattice.top x]> (store self) |}
  | None => Raise (KeyError (repr_var var))
  end.

(** [for var in variables: self.add_var(var)], as the owner of a store
    does when a scope opens; the first failure ends the loop. *)
Fixpoint add_vars (self : t) (variables : list VariableIdentifier) : outcome t :=
  match variables with
  | [] => Ok self
  | var :: rest => s <~ add_var self var ; add_vars s rest
  end.

(** [for var in variables: self.invalidate_var(var)] *)
Fixpoint invalidate_vars (self : t) (variables : list VariableIdentifier) : outcome t :=
  match variables with
  | [] => Ok self
  | var :: rest => s <~ invalidate_var self var ; invalidate_vars s rest
  end.

(** *** The lattice operations of a store

    [for var in self.store] visits the keys in the order of the dictionary,
    which the finite map does not record: the loops below take the list of
    keys to visit, [order], as an argument.  Every element operation
    mutates its receiver and returns it, so the entry of [var] afterwards
    is the value the operation returns. *)

(** [for var in self.store: self.store[var].bottom()] *)
Definition bottom (self : t) : t :=
  {| _lattices := _lattices self; _arguments := _arguments self;
     _store := Lattice.bottom <$> store self |}.

(** [for var in self.store: self.store[var].top()] *)
Definition top (self : t) : t :=
  {| _lattices := _lattices self; _arguments := _arguments self;
     _store := Lattice.top <$> store self |}.

(** [self.store.values()]; the order does not bear on [any] and [all] of
    what the elements answer. *)
Definition values (self : t) : list L := (map_to_list (store self)).*2.

(** [any(element.is_bottom() for element in self.store.values())] *)
Definition is_bottom (self : t) : bool := existsb Lattice.is_bottom (values self).

(** [all(element.is_top() for element in self.store.values())] *)
Definition is_top (self : t) : bool := forallb Lattice.is_top (values self).

(** [all(self.store[var].less_equal(other.store[var]) for var in self.store)]:
    the first comparison that is false ends the loop; a key that [other]
    lacks raises a [KeyError] when the loop reaches it. *)
Fixpoint _less_equal (order : list VariableIdentifier) (self other : t) : outcome bool :=
  match order with
  | [] => Ok true
  | var :: rest =>
    match store self !! var, store other !! var with
    | Some x, Some y =>
      b <~ Lattice.less_equal x y ;
      if b then _less_equal rest self other else Ok false
    | _, _ => Raise (KeyError (repr_var var))
    end
  end.

(** [for var in self.store: self.store[var].op(other.store[var])], for the
    public operation [op] of the elements. *)
Fixpoint pointwise (op : L -> L -> outcome L) (order : list VariableIdentifier)
    (self other : t) : outcome t :=
  match order with
  | [] => Ok self
  | var :: rest =>
    match store self !! var, store other !! var with
    | Some x, Some y =>
      x' <~ op x y ;
      pointwise op rest
        {| _lattices := _lattices self; _arguments := _arguments self;
           _store := <[var := x']> (store self) |} other
    | _, _ => Raise (KeyError (repr_var var))
    end
  end.

Definition _meet := pointwise Lattice.meet.
Definition _join := pointwise Lattice.join.
Definition _widening := pointwise Lattice.widening.

End with_lattices.
End Store.

(** ** Objects, references and aliasing *)

(** The same operations over an explicit store of objects.  A lattice
    element is a reference; a call mutates the objects it reaches and
    returns the store after the call (the receiver is the value that every
    operation returns). *)

Module Heap.

Abbreviation loc := positive.

(** The objects of the three lattices and the list of an
    [InputAssumptionLattice].  The [_assumptions] dictionary of an
    [AssumptionLattice] is never updated after the construction: its two
    entries stand as fields of the object.  A [TypeLattice] and a range
    object hold values only. *)
Inductive obj (R Cond : Type) : Type :=
| OType (v : TypeLattice.t)
| ORange (r : R)
| OAssumption (type_assmp range_assmp : loc)
| OInput (kind : Lattice.Kind) (iterations : option Z) (_assmps : loc)
         (is_loop : bool) (condition : option Cond)
| OList (items : list loc).
Arguments OType {R Cond}.
Arguments ORange {R Cond}.
Arguments OAssumption {R Cond}.
Arguments OInput {R Cond}.
Arguments OList {R Cond}.

Section with_range.

Context {R : Type} `{!Lattice.Ops R} {Cond : Type}.

#[local] Abbreviation obj := (obj R Cond).
#[local] Abbreviation heap := (gmap loc obj).

(** *** Reading the attributes of an object *)

Definition read_type (h : heap) (l : loc) : outcome TypeLattice.t :=
  match h !! l with
  | Some (OType v) => Ok v
  | _ => Raise AttributeError
  end.

Definition read_range (h : heap) (l : loc) : outcome R :=
  match h !! l with
  | Some (ORange r) => Ok r
  | _ => Raise AttributeError
  end.

(** [x.is_bottom()], dispatched on the class of [x]. *)
Definition is_bottom (h : heap) (l : loc) : outcome bool :=
  match h !! l with
  | Some (OType v) => Ok (TypeLattice.is_bottom v)
  | Some (ORange r) => Ok (Lattice.is_bottom r)
  | Some (OAssumption ty rg) =>
    v <~ read_type h ty ;
    if TypeLattice.is_bottom v then Ok true
    else r <~ read_range h rg ; Ok (Lattice.is_bottom r)
  | Some (OInput k _ _ _ _) => Ok (bool_decide (k = Lattice.BOTTOM))
  | _ => Raise AttributeError
  end.

(** [x.is_top()], dispatched on the class of [x]. *)
Definition is_top (h : heap) (l : loc) : outcome bool :=
  match h !! l with
  | Some (OType v) => Ok (TypeLattice.is_top v)
  | Some (ORange r) => Ok (Lattice.is_top r)
  | Some (OAssumption ty rg) =>
    v <~ read_type h ty ;
    if negb (TypeLattice.is_top v) then Ok false
    else r <~ read_range h rg ; Ok (Lattice.is_top r)
  | Some (OInput k _ _ _ _) => Ok (bool_decide (k = Lattice.TOP))
  | _ => Raise AttributeError
  end.

(** [isinstance(x, InputAssumptionLattice)] *)
Definition isinstance_InputAssumptionLattice (h : heap) (l : loc) : outcome bool :=
  match h !! l with
  | Some (OInput _ _ _ _ _) => Ok true
  | Some _ => Ok false
  | None => Raise AttributeError
  end.

(** [isinstance(x, InputAssumptionLattice) and x.iterations is None] *)
Definition is_placeholder (h : heap) (l : loc) : outcome bool :=
  match h !! l with
  | Some (OInput _ it _ _ _) => Ok (bool_decide (it = None))
  | Some _ => Ok false
  | None => Raise AttributeError
  end.

(** The [assmps] property, as the argument of [len] or of an index: the
    items of the list object, or a [TypeError] for the [None] of bottom and
    top. *)
Definition assmps (h : heap) (l : loc) : outcome (list loc) :=
  match h !! l with
  | Some (OInput k _ lst _ _) =>
    if bool_decide (k = Lattice.BOTTOM) || bool_decide (k = Lattice.TOP)
    then Raise TypeError
    else match h !! lst with
         | Some (OList items) => Ok items
         | _ => Raise TypeError
         end
  | _ => Raise AttributeError
  end.

(** *** Mutations *)

(** Modelled from the spec: [Lattice.replace] (lattice.py is not part of
    the sources at hand).  The receiver adopts the content of [other]: its
    attributes are overwritten with the attributes of [other], so both
    objects refer to the same lists and fields afterwards; no duplicate is
    made, and the receiver stays the object, of the class, it was.  The one
    call across classes that [_join] makes is on a nested element in front
    of a leaf: the nested element gains the [_assumptions] of the leaf,
    which none of its methods reads, and keeps its own fields. *)
Definition replace (h : heap) (self other : loc) : outcome heap :=
  match h !! self, h !! other with
  | Some (OInput _ _ _ _ _), Some (OAssumption _ _) => Ok h
  | Some _, Some o => Ok (<[self := o]> h)
  | _, _ => Raise AttributeError
  end.

(** Modelled from the spec: [BoundedLattice.top] (lattice.py is not part of
    the sources at hand): the kind of the receiver is set in place. *)
Definition top (h : heap) (self : loc) : outcome heap :=
  match h !! self with
  | Some (OInput _ it lst lp c) => Ok (<[self := OInput Lattice.TOP it lst lp c]> h)
  | _ => Raise AttributeError
  end.

(** [self.assmps.pop(1)] *)
Definition pop_1 (h : heap) (self : loc) : outcome heap :=
  match h !! self with
  | Some (OInput k _ lst _ _) =>
    if bool_decide (k = Lattice.BOTTOM) || bool_decide (k = Lattice.TOP)
    then Raise AttributeError
    else match h !! lst with
         | Some (OList (x0 :: x1 :: rest)) => Ok (<[lst := OList (x0 :: rest)]> h)
         | Some (OList _) => Raise IndexError
         | _ => Raise AttributeError
         end
  | _ => Raise AttributeError
  end.

(** *** [copy.deepcopy] *)

(** The items of a list are duplicated from left to right. *)
Fixpoint deepcopy_items
    (rec : heap -> gmap loc loc -> loc -> outcome (heap * gmap loc loc * loc))
    (h : heap) (memo : gmap loc loc) (items : list loc)
    : outcome (heap * gmap loc loc * list loc) :=
  match items with
  | [] => Ok (h, memo, [])
  | x :: rest =>
    r <~ rec h memo x ;
    rs <~ deepcopy_items rec r.1.1 r.1.2 rest ;
    Ok (rs.1.1, rs.1.2, r.2 :: rs.2)
  end.

(** [memo] maps the objects already met to their duplicates: an object met
    again is not duplicated twice.  The duplicate is allocated and recorded
    before the objects it refers to are duplicated. *)
Fixpoint deepcopy_memo (fuel : nat) (h : heap) (memo : gmap loc loc) (l : loc)
    {struct fuel} : outcome (heap * gmap loc loc * loc) :=
  match fuel with
  | O => OutOfFuel
  | S fuel' =>
    match memo !! l with
    | Some l' => Ok (h, memo, l')
    | None =>
      match h !! l with
      | None => Raise AttributeError
      | Some o =>
        let l' := fresh (dom h) in
        let h0 := <[l' := o]> h in
        let memo0 := <[l := l']> memo in
        match o with
        | OType _ | ORange _ => Ok (h0, memo0, l')
        | OAssumption ty rg =>
          r1 <~ deepcopy_memo fuel' h0 memo0 ty ;
          r2 <~ deepcopy_memo fuel' r1.1.1 r1.1.2 rg ;
          Ok (<[l' := OAssumption r1.2 r2.2]> r2.1.1, r2.1.2, l')
        | OInput k it lst lp c =>
          r <~ deepcopy_memo fuel' h0 memo0 lst ;
          Ok (<[l' := OInput k it r.2 lp c]> r.1.1, r.1.2, l')
        | OList items =>
          r <~ deepcopy_items (deepcopy_memo fuel') h0 memo0 items ;
          Ok (<[l' := OList r.2]> r.1.1, r.1.2, l')
        end
      end
    end
  end.

(** [deepcopy(x)]: the store with the duplicate, and the duplicate. *)
Definition deepcopy (fuel : nat) (h : heap) (l : loc) : outcome (heap * loc) :=
  r <~ deepcopy_memo fuel h ∅ l ;
  Ok (r.1.1, r.2).

(** *** [join] *)

Section hooks.

(** The public join [rec] of the objects reached, and [copy] for
    [deepcopy]. *)
Variable rec : heap -> loc -> loc -> outcome heap.
Variable copy : heap -> loc -> outcome (heap * loc).

(** [TypeLattice._join]: the new rank is written into the receiver. *)
Definition TypeLattice_join (h : heap) (self other : loc) : outcome heap :=
  v1 <~ read_type h self ;
  v2 <~ read_type h other ;
  v <~ TypeLattice._join v1 v2 ;
  Ok (<[self := OType v]> h).

(** The hook of the range lattice: its result is written into the
    receiver. *)
Definition Range_join (h : heap) (self other : loc) : outcome heap :=
  r1 <~ read_range h self ;
  r2 <~ read_range h other ;
  r <~ Lattice._join r1 r2 ;
  Ok (<[self := ORange r]> h).

(** [AssumptionLattice._join]: each of the two statements reads the
    fields of both objects anew. *)
Definition AssumptionLattice_join (h : heap) (self other : loc) : outcome heap :=
  match h !! self, h !! other with
  | Some (OAssumption ty1 _), Some (OAssumption ty2 _) =>
    h1 <~ rec h ty1 ty2 ;
    match h1 !! self, h1 !! other with
    | Some (OAssumption _ rg1), Some (OAssumption _ rg2) => rec h1 rg1 rg2
    | _, _ => Raise AttributeError
    end
  | _, _ => Raise AttributeError
  end.

(** The position-wise loop over the two lists as they are when the loop
    starts (no call made from the loop inserts into or deletes from one of
    them). *)
Fixpoint join_positions (h : heap) (self : loc) (l1 l2 : list loc) : outcome heap :=
  match l1, l2 with
  | assmp1 :: t1, assmp2 :: t2 =>
    p1 <~ is_placeholder h assmp1 ;
    if p1 then
      c <~ copy h assmp2 ;
      h' <~ replace c.1 assmp1 c.2 ;
      join_positions h' self t1 t2
    else
      p2 <~ is_placeholder h assmp2 ;
      if p2 then join_positions h self t1 t2
      else
        k1 <~ isinstance_InputAssumptionLattice h assmp1 ;
        k2 <~ isinstance_InputAssumptionLattice h assmp2 ;
        if bool_decide (k1 = k2) then
          h' <~ rec h assmp1 assmp2 ;
          join_positions h' self t1 t2
        else top h self
  | _, _ => Ok h
  end.

(** The length-reconciliation step on the receiver: [Some r] is the outcome
    of the step when the shapes fit, [None] falls through to the final
    [return self.top()]. *)
Definition fold_self (h : heap) (self other : loc) (l1 l2 : list loc)
    : outcome (option heap) :=
  match l2, l1 with
  | o0 :: _, s0 :: s1 :: _ =>
    k <~ isinstance_InputAssumptionLattice h o0 ;
    if k then
      other_is_placeholder <~ is_placeholder h o0 ;
      k0 <~ isinstance_InputAssumptionLattice h s0 ;
      k1 <~ (if k0 then isinstance_InputAssumptionLattice h s1 else Ok false) ;
      if other_is_placeholder && k1 then
        h1 <~ rec h s0 s1 ;
        h2 <~ pop_1 h1 self ;
        la <~ assmps h2 self ;
        lb <~ assmps h2 other ;
        if bool_decide (length la = length lb) then
          h3 <~ rec h2 self other ;
          Ok (Some h3)
        else Raise AssertionError
      else Ok None
    else Ok None
  | _, _ => Ok None
  end.

(** The same step when the argument is the longer side: it is made on a
    duplicate of the argument. *)
Definition fold_other (h : heap) (self other : loc) (l1 l2 : list loc)
    : outcome (option heap) :=
  match l1, l2 with
  | s0 :: _, o0 :: o1 :: _ =>
    k <~ isinstance_InputAssumptionLattice h s0 ;
    if k then
      self_is_placeholder <~ is_placeholder h s0 ;
      k0 <~ isinstance_InputAssumptionLattice h o0 ;
      k1 <~ (if k0 then isinstance_InputAssumptionLattice h o1 else Ok false) ;
      if self_is_placeholder && k1 then
        c <~ copy h other ;
        lc <~ assmps c.1 c.2 ;
        match lc with
        | c0 :: c1 :: _ =>
          h1 <~ rec c.1 c0 c1 ;
          h2 <~ pop_1 h1 c.2 ;
          la <~ assmps h2 self ;
          lb <~ assmps h2 c.2 ;
          if bool_decide (length la = length lb) then
            h3 <~ rec h2 self c.2 ;
            Ok (Some h3)
          else Raise AssertionError
        | _ => Raise IndexError
        end
      else Ok None
    else Ok None
  | _, _ => Ok None
  end.

(** [InputAssumptionLattice._join] *)
Definition InputAssumptionLattice_join (h : heap) (self other : loc) : outcome heap :=
  match h !! other with
  | Some (OInput _ None _ _ _) => Ok h
  | Some (OInput _ (Some n2) _ _ _) =>
    match h !! self with
    | Some (OInput _ None _ _ _) =>
      c <~ copy h other ;
      replace c.1 self c.2
    | Some (OInput _ (Some n1) _ _ _) =>
      if bool_decide (n1 ≠ n2) then top h self
      else
        l1 <~ assmps h self ;
        l2 <~ assmps h other ;
        if bool_decide (length l1 = length l2) then join_positions h self l1 l2
        else if bool_decide (length l2 < length l1)%nat
                && bool_decide (0 < length l2)%nat then
          r <~ fold_self h self other l1 l2 ;
          match r with Some h' => Ok h' | None => top h self end
        else if bool_decide (length l1 < length l2)%nat
                && bool_decide (0 < length l1)%nat then
          r <~ fold_other h self other l1 l2 ;
          match r with Some h' => Ok h' | None => top h self end
        else top h self
    | _ => Raise AttributeError
    end
  | _ => Raise AttributeError
  end.

(** The hook [_join], dispatched on the class of the receiver. *)
Definition _join (h : heap) (self other : loc) : outcome heap :=
  match h !! self with
  | Some (OType _) => TypeLattice_join h self other
  | Some (ORange _) => Range_join h self other
  | Some (OAssumption _ _) => AssumptionLattice_join h self other
  | Some (OInput _ _ _ _ _) => InputAssumptionLattice_join h self other
  | _ => Raise AttributeError
  end.

End hooks.

(** Modelled from the spec: the public [join] of the base class [Lattice]
    (lattice.py is not part of the sources at hand), as [Lattice.join_via]
    above; [or] evaluates its second operand only when the first is
    false. *)
Fixpoint join (fuel : nat) (h : heap) (self other : loc) {struct fuel} : outcome heap :=
  match fuel with
  | O => OutOfFuel
  | S fuel' =>
    b1 <~ is_bottom h self ;
    adopt <~ (if b1 then Ok true else is_top h other) ;
    if adopt then replace h self other
    else
      b2 <~ is_bottom h other ;
      keep <~ (if b2 then Ok true else is_top h self) ;
      if keep then Ok h
      else _join (join fuel') (deepcopy fuel') h self other
  end.

(** *** Separation *)

(** [tree h l F]: the objects reached from [l] in [h] are exactly those of
    [F], and each of them is reached along one path only.  [forest] is the
    same for the items of a list. *)
Inductive tree (h : heap) : loc -> gset loc -> Prop :=
| tree_type l v :
    h !! l = Some (OType v) ->
    tree h l {[l]}
| tree_range l r :
    h !! l = Some (ORange r) ->
    tree h l {[l]}
| tree_assumption l ty rg Fty Frg :
    h !! l = Some (OAssumption ty rg) ->
    tree h ty Fty -> tree h rg Frg ->
    l ∉ Fty -> l ∉ Frg -> Fty ## Frg ->
    tree h l ({[l]} ∪ (Fty ∪ Frg))
| tree_input l k it lst lp c F :
    h !! l = Some (OInput k it lst lp c) ->
    tree h lst F ->
    l ∉ F ->
    tree h l ({[l]} ∪ F)
| tree_list l items F :
    h !! l = Some (OList items) ->
    forest h items F ->
    l ∉ F ->
    tree h l ({[l]} ∪ F)
with forest (h : heap) : list loc -> gset loc -> Prop :=
| forest_nil : forest h [] ∅
| forest_cons x xs Fx Fxs :
    tree h x Fx -> forest h xs Fxs -> Fx ## Fxs ->
    forest h (x :: xs) (Fx ∪ Fxs).

Scheme tree_forest_ind := Minimality for tree Sort Prop
  with forest_tree_ind := Minimality for forest Sort Prop.

(** [modifies h F h']: from [h] to [h'] no object is deallocated, and an
    object of [h] that is changed belongs to [F]. *)
Definition modifies (h : heap) (F : gset loc) (h' : heap) : Prop :=
  dom h ⊆ dom h' /\ forall x, x ∈ dom h -> x ∉ F -> h' !! x = h !! x.

(** *** Contracts *)

(** The duplicate of a tree is a tree of objects that did not exist before;
    no object that existed is changed; [memo] gains the objects met. *)
Definition copied (h : heap) (memo : gmap loc loc) (F : gset loc)
    (r : heap * gmap loc loc * loc) : Prop :=
  modifies h ∅ r.1.1
  /\ dom r.1.2 = dom memo ∪ F
  /\ exists F', tree r.1.1 r.2 F' /\ F' ⊆ dom r.1.1 ∖ dom h.

(** The contract of [join] on a receiver [a] over [Fa] and an argument over
    [Fb]: only objects of the receiver are changed, and the receiver is a
    tree again, over objects of both sides and new ones. *)
Definition joined (h : heap) (Fa Fb : gset loc) (h' : heap) (a : loc) : Prop :=
  modifies h Fa h'
  /\ exists Fa', tree h' a Fa' /\ Fa' ⊆ Fa ∪ Fb ∪ (dom h' ∖ dom h).

Definition join_ok (rec : heap -> loc -> loc -> outcome heap) : Prop :=
  forall h a b Fa Fb h',
    tree h a Fa -> tree h b Fb -> Fa ## Fb ->
    rec h a b = Ok h' -> joined h Fa Fb h' a.

Definition copy_ok (copy : heap -> loc -> outcome (heap * loc)) : Prop :=
  forall h l F r,
    tree h l F -> copy h l = Ok r ->
    modifies h ∅ r.1 /\ exists F', tree r.1 r.2 F' /\ F' ⊆ dom r.1 ∖ dom h.

(** The receiver object after the loop: as it was, or with its kind set to
    top. *)
Definition self_kept (h h' : heap) (self : loc) : Prop :=
  h' !! self = h !! self
  \/ exists k it lst lp c,
       h !! self = Some (OInput k it lst lp c)
       /\ h' !! self = Some (OInput Lattice.TOP it lst lp c).

Definition positions_joined (h : heap) (F1 F2 : gset loc) (self : loc) (h' : heap)
    (la : list loc) : Prop :=
  modifies h (F1 ∪ {[self]}) h'
  /\ self_kept h h' self
  /\ exists F1', forest h' la F1' /\ F1' ⊆ F1 ∪ F2 ∪ (dom h' ∖ dom h).

(** *** The value of an element *)

(** The value of the element at [l], as the value semantics of the first
    part has it; [None] when [l] is no element or the budget is spent. *)
Fixpoint read_back (fuel : nat) (h : heap) (l : loc) {struct fuel}
    : option (InputAssumptionLattice.assmp R Cond) :=
  match fuel with
  | O => None
  | S fuel' =>
    match h !! l with
    | Some (OAssumption ty rg) =>
      match h !! ty, h !! rg with
      | Some (OType v), Some (ORange r) =>
        Some (InputAssumptionLattice.Leaf (AssumptionLattice.mk v r))
      | _, _ => None
      end
    | Some (OInput k it lst lp c) =>
      match h !! lst with
      | Some (OList items) =>
        vs ← mapM (read_back fuel' h) items ;
        Some (InputAssumptionLattice.Nested (InputAssumptionLattice.mk k it vs lp c))
      | _ => None
      end
    | _ => None
    end
  end.

End with_range.
End Heap.

(** ** Concrete elements, stores and object stores *)

(** Elements over interval ranges and without conditions. *)
Module InputAssumptionLatticeExamples.
Import InputAssumptionLattice.

Definition int_0_10 : AssumptionLattice.t IntervalLattice.t :=
  AssumptionLattice.mk (TypeLattice.init TypeLattice.Int) (IntervalLattice.of_bounds 0 10).

Definition float_5_20 : AssumptionLattice.t IntervalLattice.t :=
  AssumptionLattice.mk (TypeLattice.init TypeLattice.Float) (IntervalLattice.of_bounds 5 20).

Definition float_0_20 : AssumptionLattice.t IntervalLattice.t :=
  AssumptionLattice.mk (TypeLattice.init TypeLattice.Float) (IntervalLattice.of_bounds 0 20).

Definition seq : list (assmp IntervalLattice.t unit) := [Leaf int_0_10].

(** The placeholder: a nested element whose iterations are unresolved. *)
Definition unresolved : t IntervalLattice.t unit := init None None.

(** A nested block of two iterations. *)
Definition twice (l : list (assmp IntervalLattice.t unit)) : t IntervalLattice.t unit :=
  init (Some 2) (Some l).

End InputAssumptionLatticeExamples.

(** A store whose variables are pairs of a type name and a name; every
    lattice class constructs the top interval. *)

Module StoreExamples.

Definition Var : Type := string * string.
Definition typ (v : Var) : string := v.1.
Definition repr_typ (t : string) : string := t.
Definition repr_var (v : Var) : string := v.2.
Definition construct (cls kwargs : unit) : IntervalLattice.t :=
  IntervalLattice.top IntervalLattice.init.

Definition x : Var := ("int", "x").
Definition y : Var := ("float", "y").

(** A plain dictionary with a lattice for ["int"] only, and the default
    [defaultdict] of constructor arguments. *)
Definition lattices : pydict string unit := mk_pydict {[ "int" := tt ]} None.
Definition arguments : pydict string unit := mk_pydict ∅ (Some tt).

Definition store_x : Store.t (VariableIdentifier:=Var) (L:=IntervalLattice.t) :=
  Store.mk lattices arguments {[ x := construct tt tt ]}.

Definition store_empty : Store.t (VariableIdentifier:=Var) (L:=IntervalLattice.t) :=
  Store.mk lattices arguments ∅.

End StoreExamples.

(** Object stores over interval ranges and without conditions. *)
Module HeapExamples.
Import Heap.

#[local] Abbreviation obj := (Heap.obj IntervalLattice.t unit).
#[local] Abbreviation heap := (gmap loc obj).

Definition input (iterations : option Z) (_assmps : loc) (is_loop : bool) : obj :=
  OInput Lattice.DEFAULT iterations _assmps is_loop None.

Definition heap_of (o : outcome heap) : heap :=
  match o with Ok h => h | _ => ∅ end.

(** The receiver [1 x [NONE]] at 1 and the argument
    [1 x [2 x [(Int, [0, 10])], 2 x [(Float, [5, 20])]]] at 5: two trees
    with no object in common, the argument being the longer side. *)
Definition separate : heap :=
  list_to_map
    [ (1%positive, input (Some 1) 2 false); (2%positive, OList [3%positive]);
      (3%positive, input None 4 false); (4%positive, OList []);
      (5%positive, input (Some 1) 6 false);
      (6%positive, OList [7%positive; 13%positive]);
      (7%positive, input (Some 2) 8 true); (8%positive, OList [9%positive]);
      (9%positive, OAssumption 10 11);
      (10%positive, OType (TypeLattice.init TypeLattice.Int));
      (11%positive, ORange (IntervalLattice.of_bounds 0 10));
      (13%positive, input (Some 2) 14 true); (14%positive, OList [15%positive]);
      (15%positive, OAssumption 16 17);
      (16%positive, OType (TypeLattice.init TypeLattice.Float));
      (17%positive, ORange (IntervalLattice.of_bounds 5 20)) ].

(** The values of the two elements of [separate]. *)
Definition separate_receiver_value : InputAssumptionLattice.t IntervalLattice.t unit :=
  InputAssumptionLattice.init (Some 1)
    (Some [InputAssumptionLattice.Nested InputAssumptionLatticeExamples.unresolved]).

Definition loop_block (leaf : AssumptionLattice.t IntervalLattice.t)
    : InputAssumptionLattice.assmp IntervalLattice.t unit :=
  InputAssumptionLattice.Nested
    (InputAssumptionLattice.set_is_loop true
       (InputAssumptionLatticeExamples.twice [InputAssumptionLattice.Leaf leaf])).

Definition separate_argument_value : InputAssumptionLattice.t IntervalLattice.t unit :=
  InputAssumptionLattice.init (Some 1)
    (Some [loop_block InputAssumptionLatticeExamples.int_0_10;
           loop_block InputAssumptionLatticeExamples.float_5_20]).

Definition separate_receiver : gset loc :=
  {[1%positive]} ∪ ({[2%positive]} ∪ (({[3%positive]} ∪ ({[4%positive]} ∪ ∅)) ∪ ∅)).

Definition separate_argument : gset loc :=
  {[5%positive]} ∪ ({[6%positive]} ∪
    (({[7%positive]} ∪ ({[8%positive]} ∪
        (({[9%positive]} ∪ ({[10%positive]} ∪ {[11%positive]})) ∪ ∅)))
     ∪ (({[13%positive]} ∪ ({[14%positive]} ∪
           (({[15%positive]} ∪ ({[16%positive]} ∪ {[17%positive]})) ∪ ∅)))
        ∪ ∅))).

Definition separate_after : heap := heap_of (join 10 separate 1 5).

(** The receiver [1 x [x, y]] at 1 and the argument [1 x [y, x]] at 9 over
    the same two leaves [x = (Int, [0, 10])] at 3 and
    [y = (Float, [5, 20])] at 6. *)
Definition shared : heap :=
  list_to_map
    [ (1%positive, input (Some 1) 2 false); (2%positive, OList [3%positive; 6%positive]);
      (3%positive, OAssumption 4 5);
      (4%positive, OType (TypeLattice.init TypeLattice.Int));
      (5%positive, ORange (IntervalLattice.of_bounds 0 10));
      (6%positive, OAssumption 7 8);
      (7%positive, OType (TypeLattice.init TypeLattice.Float));
      (8%positive, ORange (IntervalLattice.of_bounds 5 20));
      (9%positive, input (Some 1) 10 false);
      (10%positive, OList [6%positive; 3%positive]) ].

Definition shared_after : heap := heap_of (join 10 shared 1 9).

End HeapExamples.

(** * Properties *)

(** Two stores over the variables [x] and [z] of type ["int"]. *)

Module StoreLatticeExamples.
Import StoreExamples.

Definition z : Var := ("int", "z").

Definition narrow : Store.t (VariableIdentifier:=Var) (L:=IntervalLattice.t) :=
  Store.mk lattices arguments {[ x := IntervalLattice.of_bounds 0 10 ]}.

Definition wide : Store.t (VariableIdentifier:=Var) (L:=IntervalLattice.t) :=
  Store.mk lattices arguments
    (<[ x := IntervalLattice.of_bounds 5 20 ]> {[ z := IntervalLattice.of_bounds 0 1 ]}).

End StoreLatticeExamples.

(** The objects of the first nested element of the argument of
    [HeapExamples.separate]. *)

Module HeapFrameExamples.
Import Heap.

Definition separate_nested : gset loc :=
  {[7%positive]} ∪ ({[8%positive]} ∪
    (({[9%positive]} ∪ ({[10%positive]} ∪ {[11%positive]})) ∪ ∅)).

(** The receiver [1 x [NONE]] at 1 and the argument [1 x [(Int, [0, 10])]]
    at 5: an unresolved nested element in front of a leaf. *)
Definition facing_leaf : gmap loc (obj IntervalLattice.t unit) :=
  list_to_map
    [ (1%positive, HeapExamples.input (Some 1) 2 false); (2%positive, OList [3%positive]);
      (3%positive, HeapExamples.input None 4 false); (4%positive, OList []);
      (5%positive, HeapExamples.input (Some 1) 6 false); (6%positive, OList [7%positive]);
      (7%positive, OAssumption 8 9);
      (8%positive, OType (TypeLattice.init TypeLattice.Int));
      (9%positive, ORange (IntervalLattice.of_bounds 0 10)) ].

Definition facing_leaf_after : gmap loc (obj IntervalLattice.t unit) :=
  HeapExamples.heap_of (join 10 facing_leaf 1 5).

End HeapFrameExamples.

(** Tactics shared by the proofs below. *)
Ltac case_bool_decides :=
  repeat match goal with
  | |- context [bool_decide ?P] => destruct (bool_decide_reflect P)
  | H : context [bool_decide ?P] |- _ => destruct (bool_decide_reflect P)
  end.

(** ** AssumptionLattice *)

Module AssumptionLatticeFacts.
Section facts.

Context {R : Type} `{!Lattice.Ops R}.
Implicit Types a : AssumptionLattice.t R.

(** C6: an [AssumptionLattice] element is bottom as soon as one of its two
    fields (type assumption, range assumption) is bottom, and it is top
    only if both fields are top. *)
Theorem is_bottom_any_is_top_all a :
  (AssumptionLattice.is_bottom a = true <->
     Lattice.is_bottom (AssumptionLattice.type_assumption a) = true
     \/ Lattice.is_bottom (AssumptionLattice.range_assumption a) = true)
  /\ (AssumptionLattice.is_top a = true <->
        Lattice.is_top (AssumptionLattice.type_assumption a) = true
        /\ Lattice.is_top (AssumptionLattice.range_assumption a) = true).
Proof.
  unfold AssumptionLattice.is_bottom, AssumptionLattice.is_top.
  destruct (Lattice.is_bottom (AssumptionLattice.type_assumption a)),
    (Lattice.is_bottom (AssumptionLattice.range_assumption a)),
    (Lattice.is_top (AssumptionLattice.type_assumption a)),
    (Lattice.is_top (AssumptionLattice.range_assumption a));
    simpl; intuition discriminate.
Qed.

End facts.

(** One bottom field is enough, the other may hold any value: the type
    field alone, or the range field alone. *)
Example is_bottom_one_field :
  AssumptionLattice.is_bottom
    (AssumptionLattice.mk (TypeLattice.bottom (TypeLattice.init TypeLattice.Int))
                          (IntervalLattice.of_bounds 0 10)) = true
  /\ AssumptionLattice.is_bottom
       (AssumptionLattice.mk (TypeLattice.init TypeLattice.Int)
                             (IntervalLattice.bottom IntervalLattice.init)) = true
  /\ AssumptionLattice.is_top
       (AssumptionLattice.mk (TypeLattice.init TypeLattice.Any)
                             (IntervalLattice.of_bounds 0 10)) = false.
Proof. repeat split; reflexivity. Qed.

(** Scenario 2 of the specification: [(Int,[0,10]).join((Float,[5,20]))] is
    [(Float,[0,20])], which is not bottom. *)
Example join_int_float :
  Lattice.join
    (AssumptionLattice.mk (TypeLattice.init TypeLattice.Int) (IntervalLattice.of_bounds 0 10))
    (AssumptionLattice.mk (TypeLattice.init TypeLattice.Float) (IntervalLattice.of_bounds 5 20))
  = Ok (AssumptionLattice.mk (TypeLattice.init TypeLattice.Float) (IntervalLattice.of_bounds 0 20)).
Proof. reflexivity. Qed.

End AssumptionLatticeFacts.

(** ** InputAssumptionLattice *)

Module InputAssumptionLatticeFacts.
Import InputAssumptionLattice.

Section facts.

Context {R : Type} `{!Lattice.Ops R} {Cond : Type}.
Implicit Types self other : t R Cond.
Implicit Types rec : t R Cond -> t R Cond -> outcome (t R Cond).

Lemma is_top_top self : is_top (top self) = true.
Proof. reflexivity. Qed.

Lemma is_bottom_top self : is_bottom (top self) = false.
Proof. reflexivity. Qed.

Lemma assmps_Some self l : assmps self = Some l -> l = _assmps self.
Proof. unfold assmps. destruct (_ || _); congruence. Qed.

Lemma assmps_Some_kind self l :
  assmps self = Some l -> is_bottom self = false /\ is_top self = false.
Proof.
  unfold assmps. destruct (is_bottom self), (is_top self); simpl; by intros.
Qed.

Lemma enough_fuel_S self other : exists k, enough_fuel self other = S k.
Proof.
  unfold enough_fuel, height. simpl. eexists. reflexivity.
Qed.

(** C3: when both iteration counts are resolved and differ, the hook
    collapses the receiver to top, whatever the sequences are; so does the
    public [join] on every pair it does not settle as a join with bottom. *)
Theorem join_iterations_differ self other (n1 n2 : Z) :
  iterations self = Some n1 ->
  iterations other = Some n2 ->
  n1 ≠ n2 ->
  (forall rec, _join_with rec self other = Ok (top self))
  /\ _join self other = Ok (top self)
  /\ is_top (top self) = true
  /\ (is_bottom self = false -> is_bottom other = false ->
      exists r, join self other = Ok r /\ is_top r = true).
Proof.
  intros H1 H2 Hne.
  assert (Hhook : forall rec, _join_with rec self other = Ok (top self)).
  { intros rec. unfold _join_with. rewrite H2, H1.
    by rewrite bool_decide_true. }
  split_and!; [done | apply Hhook | done |].
  intros Hb1 Hb2. unfold join.
  destruct (enough_fuel_S self other) as [k ->]. simpl.
  unfold Lattice.join_via. rewrite Hb1, Hb2. simpl.
  destruct (is_top other) eqn:Ho; [by eexists|].
  destruct (is_top self) eqn:Hs; [by eexists|].
  rewrite Hhook. by eexists.
Qed.


(** The hooks themselves raise on every pair of arguments. *)
Lemma hooks_unsupported self other :
  _meet self other
  = Raise (NotImplementedError
             ("Meet for " +:+ repr self +:+ " and " +:+ repr other
                +:+ " is not implemented."))
  /\ _widening self other
     = Raise (NotImplementedError
                ("Widening for " +:+ repr self +:+ " and " +:+ repr other
                   +:+ " is not implemented.")).
Proof. by split. Qed.

(** *** The position-wise loop *)

Lemma join_position_joined rec a1 a2 a' :
  position_joined rec a1 a2 a' <-> join_position rec a1 a2 = Ok (Some a').
Proof.
  unfold join_position. split.
  - intros [a1' j Hp | a1' y Hp | a1' a2' Hn Hp | x y x' Hj | i j i' Hi Hj Hr].
    + rewrite Hp. by destruct a1'.
    + rewrite Hp. by destruct a1'.
    + by rewrite Hn, Hp.
    + simpl. by rewrite Hj.
    + simpl. rewrite !bool_decide_false by done. by rewrite Hr.
  - destruct (is_placeholder a1) eqn:H1.
    { intros [= <-]. destruct a1 as [x|i]; [done|].
      destruct a2 as [y|j]; [by apply keep_unresolved | by apply adopt_other]. }
    destruct (is_placeholder a2) eqn:H2.
    { intros [= <-]. by apply keep_self. }
    destruct a1 as [x|i], a2 as [y|j]; simpl in *; try discriminate.
    + destruct (Lattice.join x y) eqn:Hj; simpl; try discriminate.
      intros [= <-]. by apply join_leaves.
    + destruct (rec i j) eqn:Hr; simpl; try discriminate.
      intros [= <-]. case_bool_decides; try discriminate. by apply join_nested.
Qed.

Lemma join_position_kinds_differ rec a1 a2 :
  kinds_differ a1 a2 <-> join_position rec a1 a2 = Ok None.
Proof.
  unfold join_position, kinds_differ. split.
  - intros (H1 & H2 & Hk). rewrite H1, H2.
    by destruct a1, a2.
  - destruct (is_placeholder a1); [discriminate|].
    destruct (is_placeholder a2); [discriminate|].
    destruct a1 as [x|i], a2 as [y|j]; simpl.
    + destruct (Lattice.join x y); discriminate.
    + done.
    + done.
    + destruct (rec i j); discriminate.
Qed.

Lemma join_positions_complete rec l1 l2 l' :
  Forall3 (position_joined rec) l1 l2 l' ->
  join_positions rec l1 l2 = Ok (l', true).
Proof.
  induction 1 as [|a1 a2 a' t1 t2 t' Hp _ IH]; [done|].
  simpl. apply join_position_joined in Hp. by rewrite Hp, IH.
Qed.

Lemma join_positions_left rec l1 l2 i a1 a2 pre :
  l1 !! i = Some a1 -> l2 !! i = Some a2 ->
  Forall3 (position_joined rec) (take i l1) (take i l2) pre ->
  kinds_differ a1 a2 ->
  join_positions rec l1 l2 = Ok (pre ++ drop i l1, false).
Proof.
  revert l2 i pre. induction l1 as [|b1 t1 IH]; intros [|b2 t2] [|i] pre; try done.
  - simpl. intros [= ->] [= ->] Hpre Hk. inversion Hpre; subst.
    apply (join_position_kinds_differ rec) in Hk. by rewrite Hk.
  - simpl. intros H1 H2 Hpre Hk. inversion Hpre as [|? ? c ? ? pre' Hp Hrest]; subst.
    apply join_position_joined in Hp. rewrite Hp. simpl.
    by rewrite (IH _ _ _ H1 H2 Hrest Hk).
Qed.

Lemma join_positions_sound rec l1 l2 l' :
  length l1 = length l2 ->
  join_positions rec l1 l2 = Ok (l', true) ->
  Forall3 (position_joined rec) l1 l2 l'.
Proof.
  revert l2 l'. induction l1 as [|a1 t1 IH]; intros [|a2 t2] l'; try done.
  - simpl. intros _ [= <-]. constructor.
  - simpl. intros [= Hlen].
    destruct (join_position rec a1 a2) as [[a'|]| |] eqn:Hp; simpl; try done.
    destruct (join_positions rec t1 t2) as [[t' b]| |] eqn:Ht; simpl; try done.
    intros [= <- ->]. constructor; [by apply join_position_joined | by apply IH].
Qed.

(** X26: with equal resolved iteration counts and sequences of equal
    length the hook joins position by position.  When every position is
    settled as [position_joined] has it (an unresolved nested position of
    the receiver adopts a nested element and stays as it is in front of a
    leaf, a position in front of an unresolved element is kept, same-kind
    positions are joined), the receiver keeps its fields and holds the
    joined positions, and this is the only way to a result that is not top;
    when some position differs in kind, the receiver collapses to top. *)
Theorem join_equal_length rec self other (n : Z) l1 l2 :
  iterations self = Some n ->
  iterations other = Some n ->
  assmps self = Some l1 ->
  assmps other = Some l2 ->
  length l1 = length l2 ->
  (forall l', Forall3 (position_joined rec) l1 l2 l' ->
     _join_with rec self other = Ok (set_assmps l' self))
  /\ (forall r, _join_with rec self other = Ok r -> is_top r = false ->
        r = set_assmps (_assmps r) self
        /\ Forall3 (position_joined rec) l1 l2 (_assmps r))
  /\ (forall i a1 a2 pre,
        l1 !! i = Some a1 -> l2 !! i = Some a2 ->
        Forall3 (position_joined rec) (take i l1) (take i l2) pre ->
        kinds_differ a1 a2 ->
        exists r, _join_with rec self other = Ok r /\ is_top r = true).
Proof.
  intros H1 H2 Hl1 Hl2 Hlen.
  assert (Hhook : _join_with rec self other =
                  (r <~ join_positions rec l1 l2 ;
                   if r.2 then Ok (set_assmps r.1 self)
                   else Ok (top (set_assmps r.1 self)))).
  { unfold _join_with. rewrite H2, H1, bool_decide_false by naive_solver.
    by rewrite Hl1, Hl2, bool_decide_true. }
  rewrite Hhook. split_and!.
  - intros l' Hall. by rewrite (join_positions_complete _ _ _ _ Hall).
  - intros r. destruct (join_positions rec l1 l2) as [[l' b]| |] eqn:Hp; simpl; try done.
    destruct b; intros [= <-]; [|done]. intros _. split; [done|].
    by apply join_positions_sound.
  - intros i a1 a2 pre Hi1 Hi2 Hpre Hk.
    rewrite (join_positions_left _ _ _ _ _ _ _ Hi1 Hi2 Hpre Hk). simpl.
    by eexists.
Qed.

(** *** The length-reconciliation step *)

Lemma fold_first_two_reconcilable rec longer shorter :
  fold_first_two rec longer shorter =
  if reconcilable shorter (_assmps longer) then
    match _assmps longer with
    | Nested i0 :: Nested i1 :: rest =>
      Some (i0' <~ rec i0 i1 ;
            if bool_decide (S (length rest) = length shorter)
            then Ok (set_assmps (Nested i0' :: rest) longer)
            else Raise AssertionError)
    | _ => None
    end
  else None.
Proof.
  unfold fold_first_two, reconcilable.
  destruct shorter as [|[x|p] ?]; simpl; [done|done|].
  by destruct (_assmps longer) as [|[?|i0] [|[?|i1] rest]].
Qed.

(** C1, as the code has it: with equal resolved iteration counts and
    sequences of different lengths, the hook tests whether the shorter side
    starts with a nested element of unresolved iterations and the first two
    elements of the longer side are nested ([reconcilable]).  If so and the
    longer side has one element more, its first two elements are folded by
    [join] (on a duplicate when the longer side is the argument), the second
    one is deleted and the whole join is retried; if the shapes do not fit,
    the receiver collapses to top. *)
Theorem join_length_reconciliation rec self other (n : Z) l1 l2 :
  iterations self = Some n ->
  iterations other = Some n ->
  assmps self = Some l1 ->
  assmps other = Some l2 ->
  length l1 ≠ length l2 ->
  (forall i0 i1 rest,
     l1 = Nested i0 :: Nested i1 :: rest ->
     length l1 = S (length l2) ->
     reconcilable l2 l1 = true ->
     _join_with rec self other =
     (i0' <~ rec i0 i1 ; rec (set_assmps (Nested i0' :: rest) self) other))
  /\ (forall o0 o1 rest,
        l2 = Nested o0 :: Nested o1 :: rest ->
        length l2 = S (length l1) ->
        reconcilable l1 l2 = true ->
        _join_with rec self other =
        (o0' <~ rec o0 o1 ; rec self (set_assmps (Nested o0' :: rest) (deepcopy other))))
  /\ ((if bool_decide (length l2 < length l1)%nat
       then reconcilable l2 l1 else reconcilable l1 l2) = false ->
      _join_with rec self other = Ok (top self)).
Proof.
  intros H1 H2 Hl1 Hl2 Hlen.
  pose proof (assmps_Some _ _ Hl1) as E1. pose proof (assmps_Some _ _ Hl2) as E2.
  assert (Hhook : _join_with rec self other =
    if bool_decide (length l2 < length l1)%nat && bool_decide (0 < length l2)%nat then
      match fold_first_two rec self l2 with
      | Some step => self' <~ step ; rec self' other
      | None => Ok (top self)
      end
    else if bool_decide (length l1 < length l2)%nat && bool_decide (0 < length l1)%nat then
      match fold_first_two rec (deepcopy other) l1 with
      | Some step => other_copy <~ step ; rec self other_copy
      | None => Ok (top self)
      end
    else Ok (top self)).
  { unfold _join_with. rewrite H2, H1, bool_decide_false by naive_solver.
    by rewrite Hl1, Hl2, bool_decide_false. }
  rewrite Hhook, !fold_first_two_reconcilable. unfold deepcopy.
  rewrite <- E1, <- E2. split_and!.
  - intros i0 i1 rest -> Hl Hrec. rewrite Hrec.
    rewrite !bool_decide_true by (simpl in *; destruct l2; simpl in *; lia).
    simpl. destruct (rec i0 i1); simpl; try done;
      by rewrite bool_decide_true by (simpl in *; lia).
  - intros o0 o1 rest -> Hl Hrec. rewrite Hrec.
    rewrite (bool_decide_false (_ < _)%nat) by (simpl in *; lia).
    rewrite !bool_decide_true by (simpl in *; destruct l1; simpl in *; lia).
    simpl. destruct (rec o0 o1); simpl; try done;
      by rewrite bool_decide_true by (simpl in *; lia).
  - destruct (bool_decide (length l2 < length l1)%nat) eqn:Hlt; simpl.
    + intros ->. apply bool_decide_eq_true in Hlt.
      destruct (bool_decide (0 < _)%nat); [done|].
      by rewrite (bool_decide_false (length l1 < length l2)%nat) by lia.
    + intros ->.
      by destruct (bool_decide (length l1 < length l2)%nat),
           (bool_decide (0 < length l1)%nat).
Qed.

End facts.
(** *** The step budget of [join] *)

Section fuel.

Context {R : Type} `{!Lattice.Ops R} {Cond : Type}.
Implicit Types self other : t R Cond.
Implicit Types rec : t R Cond -> t R Cond -> outcome (t R Cond).

(** The join of the range lattice is defined without a step budget. *)
Hypothesis range_join_total : forall x y : R, Lattice._join x y ≠ OutOfFuel.

Lemma obind_fuel {A B} (m : outcome A) (k : A -> outcome B) :
  m ≠ OutOfFuel -> (forall a, m = Ok a -> k a ≠ OutOfFuel) -> obind m k ≠ OutOfFuel.
Proof. destruct m; simpl; [naive_solver | done | done]. Qed.

Lemma obind_fuel_inv {A B} (m : outcome A) (k : A -> outcome B) :
  obind m k ≠ OutOfFuel -> m ≠ OutOfFuel /\ forall a, m = Ok a -> k a ≠ OutOfFuel.
Proof. destruct m; simpl; [|done|done]. intros Hk. split; [done|]. by intros ? [= <-]. Qed.

Lemma join_via_fuel {L} (is_bottom is_top : L -> bool) hook (x y : L) :
  hook x y ≠ OutOfFuel -> Lattice.join_via is_bottom is_top hook x y ≠ OutOfFuel.
Proof.
  intros Hhook. unfold Lattice.join_via.
  destruct (_ || _); [done|]. by destruct (_ || _).
Qed.

Lemma leaf_join_fuel (x y : AssumptionLattice.t R) : Lattice.join x y ≠ OutOfFuel.
Proof.
  apply join_via_fuel. simpl. unfold AssumptionLattice._join.
  apply obind_fuel.
  { apply join_via_fuel. simpl. unfold TypeLattice._join.
    by repeat case_match. }
  intros ty _. apply obind_fuel; [|done].
  apply join_via_fuel, range_join_total.
Qed.

Lemma join_position_mono rec rec' a1 a2 :
  extends rec rec' ->
  join_position rec a1 a2 ≠ OutOfFuel ->
  join_position rec' a1 a2 = join_position rec a1 a2.
Proof.
  intros Hext. unfold join_position.
  destruct (is_placeholder a1); [done|]. destruct (is_placeholder a2); [done|].
  destruct a1 as [x|i], a2 as [y|j]; try done.
  intros Hne. apply obind_fuel_inv in Hne as [Hne _]. by rewrite (Hext _ _ Hne).
Qed.

Lemma join_positions_mono rec rec' l1 l2 :
  extends rec rec' ->
  join_positions rec l1 l2 ≠ OutOfFuel ->
  join_positions rec' l1 l2 = join_positions rec l1 l2.
Proof.
  intros Hext. revert l2. induction l1 as [|a1 t1 IH]; intros [|a2 t2]; try done.
  simpl. intros Hne. apply obind_fuel_inv in Hne as [Hp Hk].
  rewrite (join_position_mono _ _ _ _ Hext Hp).
  destruct (join_position rec a1 a2) as [[a'|]| |]; simpl; try done.
  specialize (Hk _ eq_refl). simpl in Hk.
  apply obind_fuel_inv in Hk as [Hrest _]. by rewrite (IH _ Hrest).
Qed.

Lemma fold_first_two_mono rec rec' longer shorter :
  extends rec rec' ->
  match fold_first_two rec longer shorter with
  | Some step => step ≠ OutOfFuel -> fold_first_two rec' longer shorter = Some step
  | None => fold_first_two rec' longer shorter = None
  end.
Proof.
  intros Hext. rewrite !fold_first_two_reconcilable.
  destruct (reconcilable _ _); [|done].
  destruct (_assmps longer) as [|[?|i0] [|[?|i1] rest]]; try done.
  intros Hne. apply obind_fuel_inv in Hne as [Hne _]. by rewrite (Hext _ _ Hne).
Qed.

Lemma _join_with_mono rec rec' self other :
  extends rec rec' ->
  _join_with rec self other ≠ OutOfFuel ->
  _join_with rec' self other = _join_with rec self other.
Proof.
  intros Hext. unfold _join_with.
  destruct (iterations other); [|done]. destruct (iterations self); [|done].
  destruct (bool_decide _); [done|].
  destruct (assmps self) as [l1|]; [|done]. destruct (assmps other) as [l2|]; [|done].
  destruct (bool_decide (length l1 = length l2)).
  { intros Hne. apply obind_fuel_inv in Hne as [Hne _].
    by rewrite (join_positions_mono _ _ _ _ Hext Hne). }
  destruct (_ && _).
  { pose proof (fold_first_two_mono rec rec' self l2 Hext) as Hf.
    destruct (fold_first_two rec self l2) as [step|]; [|by rewrite Hf].
    intros Hne. apply obind_fuel_inv in Hne as [Hstep Hk]. rewrite (Hf Hstep).
    destruct step as [self'| |]; simpl; try done. apply Hext. by apply Hk. }
  destruct (_ && _); [|done].
  pose proof (fold_first_two_mono rec rec' (deepcopy other) l1 Hext) as Hf.
  destruct (fold_first_two rec (deepcopy other) l1) as [step|]; [|by rewrite Hf].
  intros Hne. apply obind_fuel_inv in Hne as [Hstep Hk]. rewrite (Hf Hstep).
  destruct step as [other'| |]; simpl; try done. apply Hext. by apply Hk.
Qed.

Lemma join_via_mono rec rec' self other :
  extends rec rec' ->
  Lattice.join_via is_bottom is_top (_join_with rec) self other ≠ OutOfFuel ->
  Lattice.join_via is_bottom is_top (_join_with rec') self other
  = Lattice.join_via is_bottom is_top (_join_with rec) self other.
Proof.
  intros Hext. unfold Lattice.join_via. repeat case_match; try done.
  by apply _join_with_mono.
Qed.

Lemma join_fuel_S n :
  extends (join_fuel (R:=R) (Cond:=Cond) n) (join_fuel (S n)).
Proof.
  induction n as [|n IH]; intros x y Hne; [done|].
  change (join_fuel (S (S n)) x y)
    with (Lattice.join_via is_bottom is_top (_join_with (join_fuel (S n))) x y).
  change (join_fuel (S n) x y)
    with (Lattice.join_via is_bottom is_top (_join_with (join_fuel n)) x y) in *.
  by apply join_via_mono.
Qed.

(** More budget does not change an answer. *)
Lemma join_fuel_mono n m self other :
  (n <= m)%nat ->
  join_fuel n self other ≠ OutOfFuel ->
  join_fuel m self other = join_fuel n self other.
Proof.
  induction 1 as [|m Hle IH]; [done|].
  intros Hne. rewrite <- (IH Hne). apply join_fuel_S. by rewrite (IH Hne).
Qed.

Lemma join_position_fuel rec a1 a2 :
  (forall i j, a1 = Nested i -> a2 = Nested j -> rec i j ≠ OutOfFuel) ->
  join_position rec a1 a2 ≠ OutOfFuel.
Proof.
  intros Hrec. unfold join_position.
  destruct (is_placeholder a1); [done|]. destruct (is_placeholder a2); [done|].
  destruct a1 as [x|i], a2 as [y|j]; try done.
  - apply obind_fuel; [apply leaf_join_fuel | done].
  - apply obind_fuel; [by apply Hrec | done].
Qed.

Lemma join_positions_fuel rec l1 l2 :
  (forall k a1 a2, l1 !! k = Some a1 -> l2 !! k = Some a2 ->
     join_position rec a1 a2 ≠ OutOfFuel) ->
  join_positions rec l1 l2 ≠ OutOfFuel.
Proof.
  revert l2. induction l1 as [|a1 t1 IH]; intros [|a2 t2] Hpos; try done.
  simpl. apply obind_fuel; [by apply (Hpos 0%nat)|].
  intros [a'|] _; [|done]. apply obind_fuel; [|done].
  apply IH. intros k b1 b2 H1 H2. by apply (Hpos (S k)).
Qed.

(** A join of sequences of equal length stays within its budget when every
    position does. *)
Lemma equal_length_fuel rec self other :
  length (_assmps self) = length (_assmps other) ->
  (forall k a1 a2, _assmps self !! k = Some a1 -> _assmps other !! k = Some a2 ->
     join_position rec a1 a2 ≠ OutOfFuel) ->
  Lattice.join_via is_bottom is_top (_join_with rec) self other ≠ OutOfFuel.
Proof.
  intros Hlen Hpos. unfold Lattice.join_via. repeat case_match; try done.
  unfold _join_with.
  destruct (iterations other); [|done]. destruct (iterations self); [|done].
  destruct (bool_decide _); [done|].
  destruct (assmps self) as [l1|] eqn:E1; [|done].
  destruct (assmps other) as [l2|] eqn:E2; [|done].
  apply assmps_Some in E1 as ->. apply assmps_Some in E2 as ->.
  rewrite bool_decide_true by done.
  apply obind_fuel; [by apply join_positions_fuel|].
  intros [l' b] _. by destruct b.
Qed.

Lemma height_child (i : t R Cond) (x : t R Cond) :
  Nested x ∈ _assmps i -> (height x < height i)%nat.
Proof.
  intros Hin. unfold height. simpl.
  apply Nat.lt_succ_r.
  apply (max_list_elem_of_le (assmp_height (Nested x))).
  apply list_elem_of_fmap. by exists (Nested x).
Qed.

Lemma join_fuel_height m : forall n self other,
  (height self <= m)%nat -> (height other <= m)%nat -> (2 * m <= n)%nat ->
  join_fuel n self other ≠ OutOfFuel.
Proof.
  induction m as [|m IH]; intros n self other Hs Ho Hn.
  { unfold height in Hs. simpl in Hs. lia. }
  destruct n as [|[|n]]; [lia|lia|].
  set (child := fun x : t R Cond =>
                  exists p : t R Cond, Nested x ∈ _assmps p /\ (height p <= S m)%nat).
  assert (Hchild : forall k x y, (2 * m <= k)%nat -> child x -> child y ->
            join_fuel k x y ≠ OutOfFuel).
  { intros k x y Hk (p & Hx & Hp) (q & Hy & Hq).
    apply height_child in Hx, Hy. apply IH; lia. }
  assert (Hself : forall x, Nested x ∈ _assmps self -> child x)
    by (intros x Hx; by exists self).
  assert (Hother : forall x, Nested x ∈ _assmps other -> child x)
    by (intros x Hx; by exists other).
  clear IH.
  (* a position of two lists whose nested elements are children *)
  assert (Hpos : forall (k : nat) (la lb : list (assmp R Cond)) (c : nat) a1 a2,
            (2 * m <= k)%nat ->
            (forall x, Nested x ∈ la -> child x) ->
            (forall x, Nested x ∈ lb -> child x) ->
            la !! c = Some a1 -> lb !! c = Some a2 ->
            join_position (join_fuel k) a1 a2 ≠ OutOfFuel).
  { intros k la lb c a1 a2 Hk Hla Hlb H1 H2. apply join_position_fuel.
    intros i j -> ->. apply Hchild; [done| |].
    - apply Hla. by apply list_elem_of_lookup_2 in H1.
    - apply Hlb. by apply list_elem_of_lookup_2 in H2. }
  change (join_fuel (S (S n)) self other)
    with (Lattice.join_via is_bottom is_top (_join_with (join_fuel (S n))) self other).
  unfold Lattice.join_via. repeat case_match; try done.
  unfold _join_with.
  destruct (iterations other); [|done]. destruct (iterations self); [|done].
  destruct (bool_decide _); [done|].
  destruct (assmps self) as [l1|] eqn:E1; [|done].
  destruct (assmps other) as [l2|] eqn:E2; [|done].
  apply assmps_Some in E1 as ->. apply assmps_Some in E2 as ->.
  destruct (bool_decide (_ = _)).
  { apply obind_fuel.
    - apply join_positions_fuel. intros c a1 a2. apply Hpos; [lia|done|done].
    - intros [l' b] _. by destruct b. }
  destruct (_ && _).
  { rewrite fold_first_two_reconcilable.
    destruct (reconcilable _ _) eqn:Hrec; [|done].
    destruct (_assmps self) as [|[?|i0] [|[?|i1] rest]] eqn:El1; try done.
    destruct (_assmps other) as [|[?|p0] rest2] eqn:El2; try done.
    simpl in Hrec. apply bool_decide_eq_true in Hrec.
    apply obind_fuel.
    { apply obind_fuel; [|intros; by case_match].
      apply Hchild; [lia| |]; apply Hself; rewrite ?El1; set_solver. }
    intros self'. destruct (join_fuel (S n) i0 i1) as [i0'| |]; simpl; try done.
    case_bool_decides; [|done]. intros [= <-].
    change (join_fuel (S n) ?a ?b)
      with (Lattice.join_via is_bottom is_top (_join_with (join_fuel n)) a b).
    apply equal_length_fuel; [simpl; by rewrite El2|].
    simpl. rewrite El2. intros [|c] a1 a2; simpl.
    - intros [= <-] [= <-]. unfold join_position. simpl.
      rewrite (bool_decide_true (iterations p0 = None)) by done.
      by destruct (bool_decide _).
    - apply Hpos; [lia | |].
      + intros x Hx. apply Hself. rewrite ?El1. set_solver.
      + intros x Hx. apply Hother. rewrite ?El2. set_solver. }
  destruct (_ && _); [|done].
  rewrite fold_first_two_reconcilable. unfold deepcopy.
  destruct (reconcilable _ _) eqn:Hrec; [|done].
  destruct (_assmps other) as [|[?|o0] [|[?|o1] rest]] eqn:El2; try done.
  destruct (_assmps self) as [|[?|p0] rest1] eqn:El1; try done.
  simpl in Hrec. apply bool_decide_eq_true in Hrec.
  apply obind_fuel.
  { apply obind_fuel; [|intros; by case_match].
    apply Hchild; [lia| |]; apply Hother; rewrite ?El2; set_solver. }
  intros other'. destruct (join_fuel (S n) o0 o1) as [o0'| |]; simpl; try done.
  case_bool_decides; [|done]. intros [= <-].
  change (join_fuel (S n) ?a ?b)
    with (Lattice.join_via is_bottom is_top (_join_with (join_fuel n)) a b).
  apply equal_length_fuel; [simpl; by rewrite El1|].
  simpl. rewrite El1. intros [|c] a1 a2; simpl.
  - intros [= <-] [= <-]. unfold join_position. simpl.
    by rewrite (bool_decide_true (iterations p0 = None)) by done.
  - apply Hpos; [lia | |].
    + intros x Hx. apply Hself. rewrite ?El1. set_solver.
    + intros x Hx. apply Hother. rewrite ?El2. set_solver.
Qed.

(** [enough_fuel] is enough, and so is any larger budget. *)
Lemma join_fuel_enough n self other :
  (enough_fuel self other <= n)%nat ->
  join_fuel n self other ≠ OutOfFuel /\ join_fuel n self other = join self other.
Proof.
  intros Hn.
  assert (Hne : join self other ≠ OutOfFuel).
  { apply (join_fuel_height (height self `max` height other)); unfold enough_fuel; lia. }
  rewrite (join_fuel_mono _ _ _ _ Hn Hne). by split.
Qed.

(** The public [join] is the dispatcher of the base class around the hook
    [_join], which calls the public [join] in turn: the step budget is gone
    from the equation. *)
Lemma join_unfold self other :
  join self other = Lattice.join_via is_bottom is_top _join self other.
Proof.
  assert (Hext : forall k, extends (join_fuel (R:=R) (Cond:=Cond) k) join).
  { intros k x y Hne. unfold join.
    destruct (Nat.le_ge_cases k (enough_fuel x y)) as [Hle|Hle].
    - by apply join_fuel_mono.
    - symmetry. apply join_fuel_mono; [done|].
      by apply join_fuel_enough. }
  pose proof (proj1 (join_fuel_enough _ self other (Nat.le_refl _))) as Hne.
  unfold join at 1. unfold join in Hne.
  destruct (enough_fuel_S self other) as [k Hk]. rewrite Hk in *.
  change (join_fuel (S k) self other)
    with (Lattice.join_via is_bottom is_top (_join_with (join_fuel k)) self other) in *.
  symmetry. by apply join_via_mono.
Qed.

Lemma join_total self other : join self other ≠ OutOfFuel.
Proof. by apply (join_fuel_enough _ self other). Qed.

End fuel.

(** *** Witnesses and evaluations *)

Import InputAssumptionLatticeExamples.

Lemma join_iterations_differ_witness :
  _join (init (Some 3) (Some seq)) (init (Some 5) (Some seq))
  = Ok (top (init (Some 3) (Some seq)))
  /\ exists r, join (init (Some 3) (Some seq)) (init (Some 5) (Some seq)) = Ok r
               /\ is_top r = true.
Proof.
  destruct (join_iterations_differ (init (Some 3) (Some seq)) (init (Some 5) (Some seq))
              3 5 eq_refl eq_refl ltac:(lia)) as (_ & Hhook & _ & Hjoin).
  split; [exact Hhook | by apply Hjoin].
Defined.

(** Over interval ranges the public [join] always answers. *)
Lemma interval_join_total (self other : t IntervalLattice.t unit) :
  join self other ≠ OutOfFuel
  /\ join self other = Lattice.join_via is_bottom is_top _join self other.
Proof.
  split.
  - by apply join_total.
  - by apply join_unfold.
Qed.

(** Scenario 5 of the specification, evaluated. *)
Example join_3_5 :
  join (init (Some 3) (Some seq)) (init (Some 5) (Some seq))
  = Ok (top (init (Some 3) (Some seq)))
  /\ repr (top (init (Some 3) (Some seq))) = "T".
Proof. split; reflexivity. Qed.


(** The message of the error names both operands. *)
Example meet_message :
  Lattice.meet (init (Some 1) (Some seq)) (init (Some 3) (Some seq))
  = Raise (NotImplementedError
             "Meet for [(Int, [0, 10])] and 3 x [(Int, [0, 10])] is not implemented.").
Proof. vm_compute. reflexivity. Qed.

Lemma join_equal_length_witness :
  _join_with (@join IntervalLattice.t _ unit)
    (init (Some 1) (Some [Nested unresolved; Leaf int_0_10; Nested (twice seq)]))
    (init (Some 1) (Some [Nested (twice seq); Leaf float_5_20; Nested unresolved]))
  = Ok (init (Some 1) (Some [Nested (twice seq); Leaf float_0_20; Nested (twice seq)])).
Proof.
  refine (proj1 (join_equal_length (@join IntervalLattice.t _ unit)
            (init (Some 1) (Some [Nested unresolved; Leaf int_0_10; Nested (twice seq)]))
            (init (Some 1) (Some [Nested (twice seq); Leaf float_5_20; Nested unresolved]))
            1 _ _ eq_refl eq_refl eq_refl eq_refl eq_refl) _ _).
  repeat constructor.
Defined.

(** C2 fails on the code: the receiver [1 x [NONE]] holds a nested element
    with unresolved iterations, and the argument [1 x [(Int, [0, 10])]] a
    leaf at the same position.  The loop calls [replace] on the unresolved
    element, which overwrites attributes and leaves the element a nested
    one with unresolved iterations: the position does not adopt the content
    of the leaf, and the receiver is after the join what it was before.  In
    front of a nested element the same call adopts the content. *)
Theorem join_unresolved_facing_leaf :
  let a := init (Some 1) (Some [Nested unresolved]) in
  let b := init (Some 1) (Some seq) in
  let c := init (Some 1) (Some [Nested (twice seq)]) in
  join a (deepcopy b) = Ok a
  /\ a ≠ deepcopy b
  /\ repr a = "[NONE]"
  /\ repr (deepcopy b) = "[(Int, [0, 10])]"
  /\ join a (deepcopy c) = Ok (deepcopy c).
Proof. repeat split; try reflexivity. discriminate. Qed.

(** A leaf against a nested, resolved element: the receiver collapses to
    top, with the positions before the clash already joined. *)
Example join_kinds_differ :
  join (init (Some 1) (Some [Leaf int_0_10; Leaf int_0_10]))
       (init (Some 1) (Some [Leaf float_5_20; Nested (twice seq)]))
  = Ok (top (init (Some 1) (Some [Leaf float_0_20; Leaf int_0_10]))).
Proof. reflexivity. Qed.

(** Scenario 4 of the specification: [[a1,a2].join([b1,b2])]. *)
Example join_pairwise :
  join (Cond:=unit) (init (Some 1) (Some [Leaf int_0_10; Leaf float_5_20]))
       (init (Some 1) (Some [Leaf float_5_20; Leaf int_0_10]))
  = Ok (init (Some 1) (Some [Leaf float_0_20; Leaf float_0_20])).
Proof. reflexivity. Qed.

Lemma join_length_reconciliation_witness :
  _join_with (@join IntervalLattice.t _ unit)
    (init (Some 1) (Some [Nested (twice seq); Nested (twice [Leaf float_5_20])]))
    (init (Some 1) (Some [Nested unresolved]))
  = (i0' <~ join (twice seq) (twice [Leaf float_5_20]) ;
     join (set_assmps [Nested i0']
             (init (Some 1) (Some [Nested (twice seq); Nested (twice [Leaf float_5_20])])))
          (init (Some 1) (Some [Nested unresolved]))).
Proof.
  exact (proj1 (join_length_reconciliation (@join IntervalLattice.t _ unit)
            (init (Some 1) (Some [Nested (twice seq); Nested (twice [Leaf float_5_20])]))
            (init (Some 1) (Some [Nested unresolved]))
            1 _ _ eq_refl eq_refl eq_refl eq_refl ltac:(simpl; lia))
         _ _ _ eq_refl eq_refl eq_refl).
Defined.

(** C1 as the specification states it fails here: the sequences have two
    elements and one, the longer side does not start with an unresolved
    nested element followed by two nested, resolved ones
    ([spec_reconcilable] is false), and yet the receiver does not collapse
    to top: its two nested elements are folded and the join is retried. *)
Lemma join_length_reconciliation_counterexample :
  let self := init (Some 1) (Some [Nested (twice seq); Nested (twice [Leaf float_5_20])]) in
  let other := init (Some 1) (Some [Nested unresolved]) in
  iterations self = Some 1 /\ iterations other = Some 1
  /\ length (_assmps self) = 2%nat /\ length (_assmps other) = 1%nat
  /\ spec_reconcilable (_assmps self) = false
  /\ join self other = Ok (init (Some 1) (Some [Nested (twice [Leaf float_0_20])]))
  /\ is_top (init (Some 1) (Some [Nested (twice [Leaf float_0_20])])) = false.
Proof. repeat split; reflexivity. Qed.

(** The assertion after the fold fails when the longer side has two
    elements more than the shorter one. *)
Example join_assertion_fails :
  join (init (Some 1) (Some [Nested (twice seq); Nested (twice seq); Leaf int_0_10]))
       (init (Some 1) (Some [Nested unresolved]))
  = Raise AssertionError.
Proof. reflexivity. Qed.

(** C4 fails on the code: [a] and [b] have the same sequence and the
    resolved iteration counts 3 and 5.  [a.less_equal(b)] is true, for
    [_less_equal] compares the positions only; [a.join(copy of b)] is top,
    which is not the copy of [b]. *)
Theorem less_equal_not_consistent_with_join :
  let a := init (Some 3) (Some seq) in
  let b := init (Some 5) (Some seq) in
  less_equal a b = Ok true
  /\ join a (deepcopy b) = Ok (top a)
  /\ top a ≠ deepcopy b
  /\ repr (top a) = "T"
  /\ repr (deepcopy b) = "5 x [(Int, [0, 10])]".
Proof. repeat split; try reflexivity. discriminate. Qed.

End InputAssumptionLatticeFacts.

(** ** Store *)

Module StoreFacts.
Section facts.

Context {VariableIdentifier LyraType : Type}.
Context `{Countable VariableIdentifier} `{Countable LyraType}.
Variable typ : VariableIdentifier -> LyraType.
Variable repr_typ : LyraType -> string.
Context {L LatticeClass Kwargs : Type} `{!Lattice.Ops L}.
Variable construct : LatticeClass -> Kwargs -> L.

Implicit Types self : Store.t (VariableIdentifier:=VariableIdentifier)
                        (LyraType:=LyraType) (L:=L) (LatticeClass:=LatticeClass)
                        (Kwargs:=Kwargs).
Implicit Types variables : list VariableIdentifier.
Implicit Types lattices : pydict LyraType LatticeClass.
Implicit Types arguments : pydict LyraType Kwargs.
Implicit Types acc : gmap VariableIdentifier L.

Lemma fresh_element_inr lattices arguments v cls kwargs :
  getitem lattices (typ v) = Some cls ->
  getitem arguments (typ v) = Some kwargs ->
  Store.fresh_element typ construct lattices arguments v = inr (construct cls kwargs).
Proof. unfold Store.fresh_element. by intros -> ->. Qed.

Lemma fresh_element_inl lattices arguments v key :
  Store.fresh_element typ construct lattices arguments v = inl key ->
  key = typ v
  /\ (getitem lattices (typ v) = None \/ getitem arguments (typ v) = None).
Proof.
  unfold Store.fresh_element.
  destruct (getitem lattices (typ v)); [|intros [= <-]; auto].
  destruct (getitem arguments (typ v)); [done|intros [= <-]; auto].
Qed.

(** The comprehension stops at the first variable whose element cannot be
    constructed. *)
Lemma comprehension_fails lattices arguments variables acc v :
  v ∈ variables ->
  (exists key, Store.fresh_element typ construct lattices arguments v = inl key) ->
  exists w, w ∈ variables
    /\ Store.comprehension typ construct lattices arguments variables acc = inl (typ w)
    /\ Store.fresh_element typ construct lattices arguments w = inl (typ w).
Proof.
  revert acc. induction variables as [|u rest IH]; intros acc Hin Hv.
  { by apply elem_of_nil in Hin. }
  simpl. destruct (Store.fresh_element typ construct lattices arguments u) as [key|x] eqn:Hu.
  - destruct (fresh_element_inl _ _ _ _ Hu) as [-> _].
    exists u. split_and!; [left | done | done].
  - apply elem_of_cons in Hin as [->|Hin].
    { destruct Hv as [key Hv]. congruence. }
    destruct (IH (<[u:=x]> acc) Hin Hv) as (w & Hw & Hc & Hf).
    exists w. split_and!; [by right | done | done].
Qed.

(** With every element constructible, the comprehension maps exactly the
    listed variables, each one to its fresh element. *)
Lemma comprehension_succeeds lattices arguments variables acc :
  (forall v, v ∈ variables ->
     exists x, Store.fresh_element typ construct lattices arguments v = inr x) ->
  exists st,
    Store.comprehension typ construct lattices arguments variables acc = inr st
    /\ dom st = dom acc ∪ list_to_set variables
    /\ (forall v, v ∈ variables ->
          exists x, Store.fresh_element typ construct lattices arguments v = inr x
                    /\ st !! v = Some x)
    /\ (forall v, v ∉ variables -> st !! v = acc !! v).
Proof.
  revert acc. induction variables as [|u rest IH]; intros acc Hall.
  { exists acc. split_and!; [done | set_solver | | done].
    intros v Hv. by apply elem_of_nil in Hv. }
  simpl. destruct (Hall u) as [x Hx]; [left|]. rewrite Hx.
  destruct (IH (<[u:=x]> acc)) as (st & Hc & Hdom & Hin & Hout).
  { intros v Hv. apply Hall. by right. }
  exists st. split_and!; [done | rewrite Hdom, dom_insert_L; set_solver | |].
  - intros v Hv. destruct (decide (v ∈ rest)) as [Hr|Hr]; [by apply Hin|].
    apply elem_of_cons in Hv as [->|Hv]; [|done].
    exists x. split; [done|]. rewrite (Hout _ Hr). apply lookup_insert_eq.
  - intros v Hv. apply not_elem_of_cons in Hv as [Hne Hv].
    rewrite (Hout _ Hv). by apply lookup_insert_ne.
Qed.

(** C7, as the code has it: given constructor arguments for the type of
    every variable (as the default [defaultdict] gives them), the
    construction of a store over variables of which one has a type without
    a lattice fails with the [ValueError] that names such a type, and makes
    no store; with a lattice for the type of every variable, it maps exactly
    the listed variables, each one to the fresh element of the lattice
    registered for its type. *)
Theorem init_missing_or_complete variables lattices arguments :
  (forall v, v ∈ variables -> is_Some (getitem arguments (typ v))) ->
  ((exists v, v ∈ variables /\ getitem lattices (typ v) = None) ->
   exists w, w ∈ variables /\ getitem lattices (typ w) = None
     /\ Store.init typ repr_typ construct variables lattices arguments
        = Raise (ValueError (Store.missing_lattice repr_typ (typ w))))
  /\ ((forall v, v ∈ variables -> is_Some (getitem lattices (typ v))) ->
      exists st,
        Store.init typ repr_typ construct variables lattices arguments = Ok st
        /\ Store._lattices st = lattices /\ Store._arguments st = arguments
        /\ dom (Store.store st) = list_to_set variables
        /\ forall v, v ∈ variables ->
             exists cls kwargs,
               getitem lattices (typ v) = Some cls
               /\ getitem arguments (typ v) = Some kwargs
               /\ Store.store st !! v = Some (construct cls kwargs)).
Proof.
  intros Hargs. split.
  - intros (v & Hv & Hmiss).
    destruct (comprehension_fails lattices arguments variables ∅ v Hv)
      as (w & Hw & Hc & Hf).
    { exists (typ v). unfold Store.fresh_element. by rewrite Hmiss. }
    exists w. split; [done|].
    destruct (fresh_element_inl _ _ _ _ Hf) as [_ [Hl|Ha]].
    + split; [done|]. unfold Store.init. by rewrite Hc.
    + destruct (Hargs w Hw) as [k Hk]. congruence.
  - intros Hlat.
    destruct (comprehension_succeeds lattices arguments variables ∅)
      as (st & Hc & Hdom & Hin & _).
    { intros v Hv. destruct (Hlat v Hv) as [cls Hcls], (Hargs v Hv) as [kw Hkw].
      eexists. by apply fresh_element_inr. }
    eexists. unfold Store.init. rewrite Hc. split_and!; try done.
    { simpl. rewrite Hdom. set_solver. }
    intros v Hv. destruct (Hin v Hv) as (x & Hx & Hlook).
    destruct (Hlat v Hv) as [cls Hcls], (Hargs v Hv) as [kw Hkw].
    exists cls, kw. split_and!; try done.
    rewrite (fresh_element_inr _ _ _ _ _ Hcls Hkw) in Hx. by injection Hx as <-.
Qed.

(** C8, as the code has it: [add_var] on a tracked variable raises the
    [ValueError]; on an untracked variable whose type has a lattice and
    constructor arguments it inserts the fresh element; [remove_var] on an
    absent variable returns the store as it is, and on a present variable it
    deletes exactly that entry. *)
Theorem add_var_remove_var self var :
  (var ∈ dom (Store.store self) ->
   Store.add_var typ repr_typ construct self var = Raise (ValueError Store.already_present))
  /\ (forall cls kwargs,
        var ∉ dom (Store.store self) ->
        getitem (Store._lattices self) (typ var) = Some cls ->
        getitem (Store._arguments self) (typ var) = Some kwargs ->
        Store.add_var typ repr_typ construct self var
        = Ok (Store.mk (Store._lattices self) (Store._arguments self)
                       (<[var := construct cls kwargs]> (Store.store self))))
  /\ (var ∉ dom (Store.store self) -> Store.remove_var self var = self)
  /\ (var ∈ dom (Store.store self) ->
      Store.remove_var self var
      = Store.mk (Store._lattices self) (Store._arguments self)
                 (delete var (Store.store self))).
Proof.
  unfold Store.add_var, Store.remove_var. split_and!.
  - intros Hin. by rewrite bool_decide_false by (by intros Hn).
  - intros cls kwargs Hout Hcls Hkw. rewrite bool_decide_true by done.
    by rewrite (fresh_element_inr _ _ _ _ _ Hcls Hkw).
  - intros Hout. by rewrite bool_decide_false.
  - intros Hin. by rewrite bool_decide_true.
Qed.

Variable repr_var : VariableIdentifier -> string.

(** [invalidate_var] on a tracked variable resets its element, and no
    other, to top. *)
Lemma invalidate_var_tracked self var x :
  Store.store self !! var = Some x ->
  exists st, Store.invalidate_var repr_var self var = Ok st
    /\ Store.store st !! var = Some (Lattice.top x)
    /\ forall other, other ≠ var -> Store.store st !! other = Store.store self !! other.
Proof.
  intros Hx. unfold Store.invalidate_var. rewrite Hx. eexists. split_and!; [done | |].
  - apply lookup_insert_eq.
  - intros other Hne. simpl. by apply lookup_insert_ne.
Qed.

End facts.
End StoreFacts.

(** ** The store over two variables *)

Module StoreExampleFacts.
Import StoreExamples.

Example init_x :
  Store.init typ repr_typ construct [x] lattices arguments = Ok store_x.
Proof. reflexivity. Qed.

Lemma init_missing_or_complete_witness :
  exists w, w ∈ [x; y] /\ getitem lattices (typ w) = None
    /\ Store.init typ repr_typ construct [x; y] lattices arguments
       = Raise (ValueError (Store.missing_lattice repr_typ (typ w))).
Proof.
  apply (proj1 (StoreFacts.init_missing_or_complete typ repr_typ construct
                  [x; y] lattices arguments
                  (fun v _ => ex_intro _ tt eq_refl))).
  exists y. split; [|reflexivity]. apply list_elem_of_In. simpl. tauto.
Defined.

(** C7 as the specification states it fails here: the mapping has a
    lattice for the type of the only variable, and the construction fails
    all the same: the dictionary of constructor arguments is a plain one
    without this type, and the handler reports every failed lookup as a
    missing lattice. *)
Lemma init_counterexample :
  getitem lattices (typ x) = Some tt
  /\ Store.init typ repr_typ construct [x] lattices (mk_pydict ∅ None)
     = Raise (ValueError "Missing lattice for variable type int!").
Proof. split; reflexivity. Qed.

Example init_names_float :
  Store.init typ repr_typ construct [x; y] lattices arguments
  = Raise (ValueError "Missing lattice for variable type float!").
Proof. reflexivity. Qed.

Lemma add_var_remove_var_witness :
  Store.add_var typ repr_typ construct store_x x = Raise (ValueError Store.already_present)
  /\ Store.add_var typ repr_typ construct store_empty x = Ok store_x
  /\ Store.remove_var store_empty x = store_empty
  /\ Store.remove_var store_x x
     = Store.mk lattices arguments (delete x {[ x := construct tt tt ]}).
Proof.
  destruct (StoreFacts.add_var_remove_var typ repr_typ construct store_x x)
    as (Hadd & _ & _ & Hdel).
  destruct (StoreFacts.add_var_remove_var typ repr_typ construct store_empty x)
    as (_ & Hins & Hnop & _).
  split_and!.
  - apply Hadd. vm_compute. reflexivity.
  - apply (Hins tt tt); [vm_compute; by intros ? | reflexivity | reflexivity].
  - apply Hnop. vm_compute. by intros ?.
  - apply Hdel. vm_compute. reflexivity.
Defined.

(** C8 as the specification states it fails here: [y] is not tracked, and
    [add_var] does not insert an element for it: its type has no lattice,
    and the failed lookup raises a [KeyError]. *)
Lemma add_var_counterexample :
  (y ∉ dom (Store.store store_x))
  /\ Store.add_var typ repr_typ construct store_x y = Raise (KeyError "float").
Proof. split; [|reflexivity]. vm_compute. by intros ?. Qed.

End StoreExampleFacts.

(** ** Totality *)

Module TotalityFacts.
Import InputAssumptionLattice.

Section facts.

Context {VariableIdentifier LyraType : Type}.
Context `{Countable VariableIdentifier} `{Countable LyraType}.
Variable repr_var : VariableIdentifier -> string.
Context {L LatticeClass Kwargs : Type} `{!Lattice.Ops L}.
Context {R : Type} `{!Lattice.Ops R} {Cond : Type}.

(** C9, as the code has it: [invalidate_var] returns for every tracked
    variable, with exactly its element reset to top; [add_assumption_front]
    returns on every element, top and bottom included, when it is given a
    leaf assumption; [add_assumptions_front] returns on every element that
    is neither top nor bottom. *)
Theorem helpers_total :
  (forall (self : Store.t (VariableIdentifier:=VariableIdentifier) (LyraType:=LyraType)
                    (L:=L) (LatticeClass:=LatticeClass) (Kwargs:=Kwargs)) var x,
     Store.store self !! var = Some x ->
     Store.invalidate_var repr_var self var
     = Ok (Store.mk (Store._lattices self) (Store._arguments self)
                    (<[var := Lattice.top x]> (Store.store self))))
  /\ (forall (self : t R Cond) a,
        add_assumption_front self (Leaf a)
        = Ok (set_assmps (Leaf a :: _assmps self) self))
  /\ (forall (self : t R Cond) new,
        is_bottom self = false -> is_top self = false ->
        add_assumptions_front self new = Ok (set_assmps (new ++ _assmps self) self)).
Proof.
  split_and!.
  - intros self var x Hx. unfold Store.invalidate_var. by rewrite Hx.
  - done.
  - intros self new Hb Ht. unfold add_assumptions_front, assmps. by rewrite Hb, Ht.
Qed.

End facts.

Lemma helpers_total_witness :
  Store.invalidate_var StoreExamples.repr_var StoreExamples.store_x StoreExamples.x
  = Ok StoreExamples.store_x
  /\ add_assumption_front
       (top (init (Some 1) (Some InputAssumptionLatticeExamples.seq)))
       (Leaf InputAssumptionLatticeExamples.float_5_20)
     = Ok (top (init (Some 1)
                  (Some [Leaf InputAssumptionLatticeExamples.float_5_20;
                         Leaf InputAssumptionLatticeExamples.int_0_10])))
  /\ add_assumptions_front
       (init (Some 1) (Some InputAssumptionLatticeExamples.seq))
       [Leaf InputAssumptionLatticeExamples.float_5_20]
     = Ok (init (Some 1)
             (Some [Leaf InputAssumptionLatticeExamples.float_5_20;
                    Leaf InputAssumptionLatticeExamples.int_0_10])).
Proof.
  destruct (helpers_total (VariableIdentifier:=StoreExamples.Var) (LyraType:=string)
              StoreExamples.repr_var (L:=IntervalLattice.t) (LatticeClass:=unit)
              (Kwargs:=unit) (R:=IntervalLattice.t) (Cond:=unit))
    as (Hinv & Hone & Hmany).
  split_and!.
  - rewrite (Hinv StoreExamples.store_x StoreExamples.x
               (StoreExamples.construct tt tt) eq_refl).
    f_equal.
  - apply Hone.
  - apply Hmany; reflexivity.
Defined.

(** C9 as the specification states it fails here: [invalidate_var] on a
    variable that the store does not track raises a [KeyError], and
    [add_assumptions_front] on top, or on bottom, raises a [TypeError]. *)
Lemma helpers_total_counterexample :
  Store.invalidate_var StoreExamples.repr_var StoreExamples.store_x StoreExamples.y
  = Raise (KeyError "y")
  /\ add_assumptions_front
       (top (init (Some 1) (Some InputAssumptionLatticeExamples.seq)))
       [Leaf InputAssumptionLatticeExamples.float_5_20]
     = Raise TypeError
  /\ add_assumptions_front
       (bottom (init (Some 1) (Some InputAssumptionLatticeExamples.seq)))
       [Leaf InputAssumptionLatticeExamples.float_5_20]
     = Raise TypeError.
Proof. repeat split; reflexivity. Qed.

End TotalityFacts.

(** ** What a join mutates *)

Module HeapFacts.
Import Heap.

Section facts.

Context {R : Type} `{!Lattice.Ops R} {Cond : Type}.

#[local] Abbreviation obj := (Heap.obj R Cond).
#[local] Abbreviation heap := (gmap loc obj).
Implicit Types h : heap.
Implicit Types F : gset loc.
Implicit Types l self other : loc.

(** *** Frames *)

Lemma modifies_refl h F : modifies h F h.
Proof. by split. Qed.

Lemma modifies_weaken h F F' h' : modifies h F h' -> F ⊆ F' -> modifies h F' h'.
Proof. intros [Hd Hm] Hsub. split; [done|]. intros x Hx Hn. apply Hm; set_solver. Qed.

Lemma modifies_trans h F h1 h2 F1 :
  modifies h F h1 -> modifies h1 F1 h2 ->
  F1 ⊆ F ∪ (dom h1 ∖ dom h) ->
  modifies h F h2.
Proof.
  intros [Hd1 Hm1] [Hd2 Hm2] Hsub. split; [set_solver|].
  intros x Hx Hn. rewrite Hm2, Hm1; [done..| |]; set_solver.
Qed.

Lemma modifies_insert h F l o :
  l ∈ F \/ l ∉ dom h -> modifies h F (<[l := o]> h).
Proof.
  intros Hl. split; [rewrite dom_insert_L; set_solver|].
  intros x Hx Hn. apply lookup_insert_ne. set_solver.
Qed.

Lemma modifies_insert_after h F h1 l o :
  modifies h F h1 -> l ∈ F \/ l ∉ dom h -> modifies h F (<[l := o]> h1).
Proof.
  intros [Hd Hm] Hl. split; [rewrite dom_insert_L; set_solver|].
  intros x Hx Hn. rewrite lookup_insert_ne by set_solver. by apply Hm.
Qed.

Lemma elem_of_dom_Some h l o : h !! l = Some o -> l ∈ dom h.
Proof. intros Hl. apply elem_of_dom. by eexists. Qed.

(** Footprints that grow by new objects only. *)

Lemma grown_disjoint (A A' B B' D0 D1 D2 : gset loc) :
  A' ⊆ A ∪ (D1 ∖ D0) -> B' ⊆ B ∪ (D2 ∖ D1) ->
  A ## B -> B ⊆ D0 -> A' ⊆ D1 -> D0 ⊆ D1 ->
  A' ## B'.
Proof. set_solver. Qed.

Lemma grown_disjoint_old (A A' C D0 D1 : gset loc) :
  A' ⊆ A ∪ (D1 ∖ D0) -> C ⊆ D0 -> A ## C -> A' ## C.
Proof. set_solver. Qed.

Lemma grown_not_elem_of (A A' D0 D1 : gset loc) x :
  A' ⊆ A ∪ (D1 ∖ D0) -> x ∈ D0 -> x ∉ A -> x ∉ A'.
Proof. set_solver. Qed.

Lemma grown_union (A A' B B' D0 D1 D2 : gset loc) :
  A' ⊆ A ∪ (D1 ∖ D0) -> B' ⊆ B ∪ (D2 ∖ D1) ->
  D0 ⊆ D1 -> D1 ⊆ D2 ->
  A' ∪ B' ⊆ (A ∪ B) ∪ (D2 ∖ D0).
Proof. set_solver. Qed.

Lemma grown_trans (A A' A'' D0 D1 D2 : gset loc) :
  A' ⊆ A ∪ (D1 ∖ D0) -> A'' ⊆ A' ∪ (D2 ∖ D1) ->
  D0 ⊆ D1 -> D1 ⊆ D2 ->
  A'' ⊆ A ∪ (D2 ∖ D0).
Proof. set_solver. Qed.

(** *** Trees *)

Lemma tree_root h l F : tree h l F -> l ∈ F.
Proof. destruct 1; set_solver. Qed.

Lemma tree_forest_dom h :
  (forall l F, tree h l F -> F ⊆ dom h)
  /\ (forall items F, forest h items F -> F ⊆ dom h).
Proof.
  assert (Hboth : forall l F, tree h l F -> F ⊆ dom h); [|split; [done|]].
  - apply (tree_forest_ind h (fun _ F => F ⊆ dom h) (fun _ F => F ⊆ dom h)).
    + intros l v Hl. apply elem_of_dom_Some in Hl. set_solver.
    + intros l r Hl. apply elem_of_dom_Some in Hl. set_solver.
    + intros l ty rg Fty Frg Hl. apply elem_of_dom_Some in Hl. set_solver.
    + intros l k it lst lp c F Hl. apply elem_of_dom_Some in Hl. set_solver.
    + intros l items F Hl. apply elem_of_dom_Some in Hl. set_solver.
    + set_solver.
    + set_solver.
  - apply (forest_tree_ind h (fun _ F => F ⊆ dom h) (fun _ F => F ⊆ dom h)).
    + intros l v Hl. apply elem_of_dom_Some in Hl. set_solver.
    + intros l r Hl. apply elem_of_dom_Some in Hl. set_solver.
    + intros l ty rg Fty Frg Hl. apply elem_of_dom_Some in Hl. set_solver.
    + intros l k it lst lp c F Hl. apply elem_of_dom_Some in Hl. set_solver.
    + intros l items F Hl. apply elem_of_dom_Some in Hl. set_solver.
    + set_solver.
    + set_solver.
Qed.

Lemma tree_dom h l F : tree h l F -> F ⊆ dom h.
Proof. apply tree_forest_dom. Qed.

Lemma forest_dom h items F : forest h items F -> F ⊆ dom h.
Proof. apply tree_forest_dom. Qed.

(** A tree stands in every store that agrees on its objects. *)
Lemma tree_forest_agree h :
  (forall l F, tree h l F ->
     forall h', (forall x, x ∈ F -> h' !! x = h !! x) -> tree h' l F)
  /\ (forall items F, forest h items F ->
        forall h', (forall x, x ∈ F -> h' !! x = h !! x) -> forest h' items F).
Proof.
  pose (P := fun (l : loc) F =>
               forall h', (forall x, x ∈ F -> h' !! x = h !! x) -> tree h' l F).
  pose (P0 := fun (items : list loc) F =>
                forall h', (forall x, x ∈ F -> h' !! x = h !! x) -> forest h' items F).
  assert (H1 : forall l v, h !! l = Some (OType v) -> P l {[l]}).
  { intros l v Hl h' Hag. apply (tree_type _ _ v). rewrite Hag; set_solver. }
  assert (H2 : forall l r, h !! l = Some (ORange r) -> P l {[l]}).
  { intros l r Hl h' Hag. apply (tree_range _ _ r). rewrite Hag; set_solver. }
  assert (H3 : forall l ty rg Fty Frg, h !! l = Some (OAssumption ty rg) ->
            tree h ty Fty -> P ty Fty -> tree h rg Frg -> P rg Frg ->
            l ∉ Fty -> l ∉ Frg -> Fty ## Frg -> P l ({[l]} ∪ (Fty ∪ Frg))).
  { intros l ty rg Fty Frg Hl _ IHty _ IHrg ? ? ? h' Hag.
    apply (tree_assumption _ _ ty rg); try done.
    - rewrite Hag; set_solver.
    - apply IHty. intros x Hx. apply Hag. set_solver.
    - apply IHrg. intros x Hx. apply Hag. set_solver. }
  assert (H4 : forall l k it lst lp c F, h !! l = Some (OInput k it lst lp c) ->
            tree h lst F -> P lst F -> l ∉ F -> P l ({[l]} ∪ F)).
  { intros l k it lst lp c F Hl _ IH ? h' Hag.
    apply (tree_input _ _ k it lst lp c); try done.
    - rewrite Hag; set_solver.
    - apply IH. intros x Hx. apply Hag. set_solver. }
  assert (H4' : forall l items F, h !! l = Some (OList items) ->
            forest h items F -> P0 items F -> l ∉ F -> P l ({[l]} ∪ F)).
  { intros l items F Hl _ IH ? h' Hag.
    apply (tree_list _ _ items); try done.
    - rewrite Hag; set_solver.
    - apply IH. intros x Hx. apply Hag. set_solver. }
  assert (H5 : P0 [] ∅) by (intros h' _; constructor).
  assert (H6 : forall x xs Fx Fxs, tree h x Fx -> P x Fx -> forest h xs Fxs ->
            P0 xs Fxs -> Fx ## Fxs -> P0 (x :: xs) (Fx ∪ Fxs)).
  { intros x xs Fx Fxs _ IHx _ IHxs ? h' Hag. constructor; [| |done].
    - apply IHx. intros y Hy. apply Hag. set_solver.
    - apply IHxs. intros y Hy. apply Hag. set_solver. }
  split.
  - exact (tree_forest_ind h P P0 H1 H2 H3 H4 H4' H5 H6).
  - exact (forest_tree_ind h P P0 H1 H2 H3 H4 H4' H5 H6).
Qed.

Lemma tree_agree h h' l F :
  tree h l F -> (forall x, x ∈ F -> h' !! x = h !! x) -> tree h' l F.
Proof. intros Ht. by apply tree_forest_agree. Qed.

Lemma forest_agree h h' items F :
  forest h items F -> (forall x, x ∈ F -> h' !! x = h !! x) -> forest h' items F.
Proof. intros Ht. by apply tree_forest_agree. Qed.

(** A tree apart from what a call may change stands after the call. *)
Lemma tree_modifies h h' l F F' :
  tree h l F -> modifies h F' h' -> F ## F' -> tree h' l F.
Proof.
  intros Ht [_ Hm] Hdisj. apply (tree_agree h); [done|].
  intros x Hx. apply Hm; [|set_solver]. by apply (tree_dom h l F).
Qed.

Lemma forest_modifies h h' items F F' :
  forest h items F -> modifies h F' h' -> F ## F' -> forest h' items F.
Proof.
  intros Ht [_ Hm] Hdisj. apply (forest_agree h); [done|].
  intros x Hx. apply Hm; [|set_solver]. by apply (forest_dom h items F).
Qed.

(** The receiver of [replace] becomes the root of a tree over what the
    other object refers to. *)
Lemma tree_replace h self other o F :
  tree h other F -> h !! other = Some o -> self ∉ F ->
  exists F', tree (<[self := o]> h) self F' /\ F' ⊆ {[self]} ∪ F.
Proof.
  intros Ht Ho Hself.
  assert (Hag : forall x, x ∈ F -> (<[self := o]> h) !! x = h !! x).
  { intros x Hx. apply lookup_insert_ne. set_solver. }
  destruct Ht as [l v Hl|l r Hl|l ty rg Fty Frg Hl Hty Hrg ? ? ?
                 |l k it lst lp c F Hl Hlst ?|l items F Hl Hf ?].
  - exists {[self]}. split; [|set_solver].
    apply (tree_type _ _ v). rewrite lookup_insert_eq. congruence.
  - exists {[self]}. split; [|set_solver].
    apply (tree_range _ _ r). rewrite lookup_insert_eq. congruence.
  - exists ({[self]} ∪ (Fty ∪ Frg)). split; [|set_solver].
    apply (tree_assumption _ _ ty rg); try done.
    + rewrite lookup_insert_eq. congruence.
    + apply (tree_agree h); [done|]. intros x Hx. apply Hag. set_solver.
    + apply (tree_agree h); [done|]. intros x Hx. apply Hag. set_solver.
    + set_solver.
    + set_solver.
  - exists ({[self]} ∪ F). split; [|set_solver].
    apply (tree_input _ _ k it lst lp c); try done.
    + rewrite lookup_insert_eq. congruence.
    + apply (tree_agree h); [done|]. intros x Hx. apply Hag. set_solver.
    + set_solver.
  - exists ({[self]} ∪ F). split; [|set_solver].
    apply (tree_list _ _ items); try done.
    + rewrite lookup_insert_eq. congruence.
    + apply (forest_agree h); [done|]. intros x Hx. apply Hag. set_solver.
    + set_solver.
Qed.

(** *** [deepcopy] *)

Lemma modifies_fresh_trans h h1 h2 :
  modifies h ∅ h1 -> modifies h1 ∅ h2 -> modifies h ∅ h2.
Proof. intros H1 H2. apply (modifies_trans h ∅ h1 h2 ∅); [done|done|set_solver]. Qed.

Lemma modifies_alloc h o : modifies h ∅ (<[fresh (dom h) := o]> h).
Proof. apply modifies_insert. right. apply is_fresh. Qed.

Lemma deepcopy_items_spec
    (rec : heap -> gmap loc loc -> loc -> outcome (heap * gmap loc loc * loc)) :
  (forall h memo l F r,
     tree h l F -> dom memo ## F -> rec h memo l = Ok r -> copied h memo F r) ->
  forall items h (memo : gmap loc loc) F r,
    forest h items F -> dom memo ## F ->
    deepcopy_items rec h memo items = Ok r ->
    modifies h ∅ r.1.1
    /\ dom r.1.2 = dom memo ∪ F
    /\ exists F', forest r.1.1 r.2 F' /\ F' ⊆ dom r.1.1 ∖ dom h.
Proof.
  intros Hrec. induction items as [|x xs IH]; intros h memo F r Hf Hmemo; simpl.
  - intros [= <-]. inversion Hf; subst. simpl. split_and!.
    + apply modifies_refl.
    + set_solver.
    + exists ∅. split; [constructor|set_solver].
  - inversion Hf as [|? ? Fx Fxs Hx Hxs Hdisj]; subst.
    destruct (rec h memo x) as [r1| |] eqn:E1; simpl; try done.
    assert (Hmx : dom memo ## Fx) by set_solver.
    destruct (Hrec _ _ _ _ _ Hx Hmx E1) as (Hm1 & Hd1 & F1' & Ht1 & Hs1).
    destruct (deepcopy_items rec r1.1.1 r1.1.2 xs) as [rs| |] eqn:Es; simpl; try done.
    intros [= <-]. simpl.
    destruct (IH r1.1.1 r1.1.2 Fxs rs) as (Hm2 & Hd2 & Fs' & Hfs & Hss); [| |done|].
    { apply (forest_modifies h _ _ _ ∅); [done|done|set_solver]. }
    { rewrite Hd1. set_solver. }
    pose proof (tree_dom _ _ _ Ht1) as Hdom1.
    destruct Hm1 as [Hsub1 Hag1]. destruct Hm2 as [Hsub2 Hag2].
    split_and!.
    + apply (modifies_fresh_trans h r1.1.1); by split.
    + rewrite Hd2, Hd1. set_solver.
    + exists (F1' ∪ Fs'). split; [|set_solver].
      constructor; [|done|set_solver].
      apply (tree_modifies r1.1.1 _ _ _ ∅); [done|by split|set_solver].
Qed.

Lemma deepcopy_memo_spec fuel : forall h (memo : gmap loc loc) l F r,
  tree h l F -> dom memo ## F ->
  deepcopy_memo fuel h memo l = Ok r -> copied h memo F r.
Proof.
  induction fuel as [|fuel IH]; intros h memo l F r Ht Hmemo; [done|].
  simpl.
  assert (Hnone : memo !! l = None).
  { apply not_elem_of_dom. apply tree_root in Ht. set_solver. }
  rewrite Hnone.
  set (l0 := fresh (dom h)).
  assert (Hl0 : l0 ∉ dom h) by apply is_fresh.
  assert (Halloc : forall o, modifies h ∅ (<[l0 := o]> h)) by (intros; apply modifies_alloc).
  destruct Ht as [l v Hl|l r0 Hl|l ty rg Fty Frg Hl Hty Hrg Hn1 Hn2 Hdisj
                 |l k it lst lp c F Hl Hlst Hn|l items F Hl Hf Hn]; rewrite Hl.
  - intros [= <-]. unfold copied. simpl. split_and!; [done| |].
    + rewrite dom_insert_L. set_solver.
    + exists {[l0]}. split.
      * apply (tree_type _ _ v). apply lookup_insert_eq.
      * rewrite dom_insert_L. set_solver.
  - intros [= <-]. unfold copied. simpl. split_and!; [done| |].
    + rewrite dom_insert_L. set_solver.
    + exists {[l0]}. split.
      * apply (tree_range _ _ r0). apply lookup_insert_eq.
      * rewrite dom_insert_L. set_solver.
  - set (h0 := <[l0 := OAssumption ty rg]> h). set (memo0 := <[l := l0]> memo).
    assert (Hd0 : dom memo0 = dom memo ∪ {[l]}) by (unfold memo0; rewrite dom_insert_L; set_solver).
    assert (Hdh0 : dom h0 = {[l0]} ∪ dom h) by (unfold h0; by rewrite dom_insert_L).
    destruct (deepcopy_memo fuel h0 memo0 ty) as [r1| |] eqn:E1; simpl; try done.
    destruct (IH h0 memo0 ty Fty r1) as (Hm1 & Hd1 & F1' & Ht1 & Hs1); [| |done|].
    { apply (tree_modifies h _ _ _ ∅); [done|apply Halloc|set_solver]. }
    { rewrite Hd0. set_solver. }
    destruct (deepcopy_memo fuel r1.1.1 r1.1.2 rg) as [r2| |] eqn:E2; simpl; try done.
    destruct (IH r1.1.1 r1.1.2 rg Frg r2) as (Hm2 & Hd2 & F2' & Ht2 & Hs2); [| |done|].
    { apply (tree_modifies h0 _ _ _ ∅); [|done|set_solver].
      apply (tree_modifies h _ _ _ ∅); [done|apply Halloc|set_solver]. }
    { rewrite Hd1, Hd0. set_solver. }
    intros [= <-]. unfold copied. simpl.
    pose proof (tree_dom _ _ _ Ht1) as Hdom1.
    pose proof (tree_dom _ _ _ Ht2) as Hdom2.
    pose proof (Halloc (OAssumption ty rg)) as Hm0. fold h0 in Hm0.
    assert (Hm02 : modifies h ∅ r2.1.1).
    { apply (modifies_fresh_trans h h0); [done|].
      by apply (modifies_fresh_trans h0 r1.1.1). }
    destruct Hm1 as [Hsub1 Hag1]. destruct Hm2 as [Hsub2 Hag2].
    assert (Hl0in : l0 ∈ dom h0) by set_solver.
    split_and!.
    + apply modifies_insert_after; [done|by right].
    + rewrite Hd2, Hd1, Hd0. set_solver.
    + exists ({[l0]} ∪ (F1' ∪ F2')). split.
      * apply (tree_assumption _ _ r1.2 r2.2); [apply lookup_insert_eq| | | | |].
        -- apply (tree_agree r1.1.1); [done|]. intros x Hx.
           rewrite lookup_insert_ne by set_solver. apply Hag2; set_solver.
        -- apply (tree_agree r2.1.1); [done|]. intros x Hx.
           apply lookup_insert_ne. set_solver.
        -- set_solver.
        -- set_solver.
        -- set_solver.
      * rewrite dom_insert_L. set_solver.
  - set (h0 := <[l0 := OInput k it lst lp c]> h). set (memo0 := <[l := l0]> memo).
    assert (Hd0 : dom memo0 = dom memo ∪ {[l]}) by (unfold memo0; rewrite dom_insert_L; set_solver).
    assert (Hdh0 : dom h0 = {[l0]} ∪ dom h) by (unfold h0; by rewrite dom_insert_L).
    destruct (deepcopy_memo fuel h0 memo0 lst) as [r1| |] eqn:E1; simpl; try done.
    destruct (IH h0 memo0 lst F r1) as (Hm1 & Hd1 & F1' & Ht1 & Hs1); [| |done|].
    { apply (tree_modifies h _ _ _ ∅); [done|apply Halloc|set_solver]. }
    { rewrite Hd0. set_solver. }
    intros [= <-]. unfold copied. simpl.
    pose proof (tree_dom _ _ _ Ht1) as Hdom1.
    pose proof (Halloc (OInput k it lst lp c)) as Hm0. fold h0 in Hm0.
    assert (Hm01 : modifies h ∅ r1.1.1) by by apply (modifies_fresh_trans h h0).
    destruct Hm1 as [Hsub1 Hag1].
    split_and!.
    + apply modifies_insert_after; [done|by right].
    + rewrite Hd1, Hd0. set_solver.
    + exists ({[l0]} ∪ F1'). split.
      * apply (tree_input _ _ k it r1.2 lp c); [apply lookup_insert_eq| |set_solver].
        apply (tree_agree r1.1.1); [done|]. intros x Hx.
        apply lookup_insert_ne. set_solver.
      * rewrite dom_insert_L. set_solver.
  - set (h0 := <[l0 := OList items]> h). set (memo0 := <[l := l0]> memo).
    assert (Hd0 : dom memo0 = dom memo ∪ {[l]}) by (unfold memo0; rewrite dom_insert_L; set_solver).
    assert (Hdh0 : dom h0 = {[l0]} ∪ dom h) by (unfold h0; by rewrite dom_insert_L).
    destruct (deepcopy_items (deepcopy_memo fuel) h0 memo0 items) as [r1| |] eqn:E1;
      simpl; try done.
    destruct (deepcopy_items_spec (deepcopy_memo fuel) IH items h0 memo0 F r1)
      as (Hm1 & Hd1 & F1' & Hf1 & Hs1); [| |done|].
    { apply (forest_modifies h _ _ _ ∅); [done|apply Halloc|set_solver]. }
    { rewrite Hd0. set_solver. }
    intros [= <-]. unfold copied. simpl.
    pose proof (forest_dom _ _ _ Hf1) as Hdom1.
    pose proof (Halloc (OList items)) as Hm0. fold h0 in Hm0.
    assert (Hm01 : modifies h ∅ r1.1.1) by by apply (modifies_fresh_trans h h0).
    destruct Hm1 as [Hsub1 Hag1].
    split_and!.
    + apply modifies_insert_after; [done|by right].
    + rewrite Hd1, Hd0. set_solver.
    + exists ({[l0]} ∪ F1'). split.
      * apply (tree_list _ _ r1.2); [apply lookup_insert_eq| |set_solver].
        apply (forest_agree r1.1.1); [done|]. intros x Hx.
        apply lookup_insert_ne. set_solver.
      * rewrite dom_insert_L. set_solver.
Qed.

(** *** What [join] changes and what its receiver becomes *)

Lemma deepcopy_ok fuel : copy_ok (deepcopy (R:=R) (Cond:=Cond) fuel).
Proof.
  intros h l F r Ht. unfold deepcopy.
  destruct (deepcopy_memo fuel h ∅ l) as [r0| |] eqn:E; simpl; try done.
  intros [= <-]. simpl.
  destruct (deepcopy_memo_spec fuel h ∅ l F r0 Ht) as (Hm & _ & HF); [set_solver|done|].
  by split.
Qed.

Lemma tree_input_inv h l F k it lst lp c items :
  tree h l F ->
  h !! l = Some (OInput k it lst lp c) ->
  h !! lst = Some (OList items) ->
  exists F1, forest h items F1 /\ F = {[l; lst]} ∪ F1
             /\ l ≠ lst /\ l ∉ F1 /\ lst ∉ F1.
Proof.
  intros Ht Hl Hlst. inversion Ht as [| | |? ? ? lst' ? ? Flst Hl' Htl Hn|]; subst;
    try congruence.
  rewrite Hl in Hl'. injection Hl' as <- <- <- <- <-.
  inversion Htl as [| | | |? items' F1 Hlst' Hf Hn1]; subst; try congruence.
  rewrite Hlst in Hlst'. injection Hlst' as <-.
  exists F1. split_and!; [done|set_solver|set_solver|set_solver|done].
Qed.

Lemma tree_input_intro h l k it lst lp c items F1 :
  h !! l = Some (OInput k it lst lp c) ->
  h !! lst = Some (OList items) ->
  forest h items F1 ->
  l ≠ lst -> l ∉ F1 -> lst ∉ F1 ->
  tree h l ({[l; lst]} ∪ F1).
Proof.
  intros Hl Hlst Hf ? ? ?.
  replace ({[l; lst]} ∪ F1) with ({[l]} ∪ ({[lst]} ∪ F1)) by set_solver.
  apply (tree_input _ _ k it lst lp c); [done| |set_solver].
  by apply (tree_list _ _ items).
Qed.

Lemma tree_assumption_inv h l F ty rg :
  tree h l F ->
  h !! l = Some (OAssumption ty rg) ->
  exists Fty Frg, tree h ty Fty /\ tree h rg Frg /\ F = {[l]} ∪ (Fty ∪ Frg)
                  /\ l ∉ Fty /\ l ∉ Frg /\ Fty ## Frg.
Proof.
  intros Ht Hl. inversion Ht as [| |? ty' rg' Fty Frg Hl' Hty Hrg ? ? ?| |]; subst;
    try congruence.
  rewrite Hl in Hl'. injection Hl' as <- <-.
  by exists Fty, Frg.
Qed.

Lemma replace_joined h a b Fa Fb h' :
  tree h a Fa -> tree h b Fb -> Fa ## Fb ->
  replace h a b = Ok h' -> joined h Fa Fb h' a.
Proof.
  intros Ha Hb Hdisj. unfold replace.
  destruct (h !! a) as [oa|] eqn:Ea; [|done].
  destruct (h !! b) as [ob|] eqn:Eb; [|by destruct oa].
  pose proof (tree_root _ _ _ Ha) as Hra.
  assert (Hover : joined h Fa Fb (<[a:=ob]> h) a).
  { split.
    - apply modifies_insert. by left.
    - destruct (tree_replace h a b ob Fb Hb Eb) as (F' & Ht & Hsub); [set_solver|].
      exists F'. split; [done|set_solver]. }
  assert (Hkept : joined h Fa Fb h a).
  { split; [apply modifies_refl|]. exists Fa. split; [done|set_solver]. }
  destruct oa, ob; intros [= <-]; done.
Qed.

(** [self.replace(deepcopy(other))] *)
Lemma copy_replace_joined copy h a b Fa Fb c h' :
  copy_ok copy ->
  tree h a Fa -> tree h b Fb ->
  copy h b = Ok c -> replace c.1 a c.2 = Ok h' ->
  joined h Fa Fb h' a.
Proof.
  intros Hcopy Ha Hb Hc. destruct (Hcopy _ _ _ _ Hb Hc) as (Hm & Fc & Htc & Hsub).
  unfold replace.
  destruct (c.1 !! a) as [oa|] eqn:Ea; [|done].
  destruct (c.1 !! c.2) as [oc|] eqn:Ec; [|by destruct oa].
  pose proof (tree_root _ _ _ Ha) as Hra.
  pose proof (tree_dom _ _ _ Ha) as Hda.
  assert (Hover : joined h Fa Fb (<[a:=oc]> c.1) a).
  { split.
    - apply modifies_insert_after; [|by left].
      apply (modifies_weaken h ∅); [done|set_solver].
    - destruct (tree_replace c.1 a c.2 oc Fc Htc Ec) as (F' & Ht & Hsub'); [set_solver|].
      exists F'. split; [done|]. rewrite dom_insert_L. set_solver. }
  assert (Hkept : joined h Fa Fb c.1 a).
  { split.
    - apply (modifies_weaken h ∅); [done|set_solver].
    - exists Fa. split; [|set_solver].
      apply (tree_modifies h c.1 a Fa ∅); [done|done|set_solver]. }
  destruct oa, oc; intros [= <-]; done.
Qed.

Lemma top_tree h a Fa h' :
  tree h a Fa -> top h a = Ok h' ->
  modifies h {[a]} h' /\ tree h' a Fa
  /\ exists k it lst lp c, h !! a = Some (OInput k it lst lp c)
                           /\ h' !! a = Some (OInput Lattice.TOP it lst lp c).
Proof.
  intros Ha. unfold top.
  destruct (h !! a) as [[| | |k it lst lp c|]|] eqn:Ea; try done.
  intros [= <-]. split_and!.
  - apply modifies_insert. left. set_solver.
  - inversion Ha as [| | |? ? ? lst' ? ? Flst Hl' Htl Hn|]; subst; try congruence.
    rewrite Ea in Hl'. injection Hl' as <- <- <- <- <-.
    apply (tree_input _ _ Lattice.TOP it lst lp c); [apply lookup_insert_eq| |done].
    apply (tree_agree h); [done|]. intros x Hx. apply lookup_insert_ne. set_solver.
  - exists k, it, lst, lp, c. split; [done|]. apply lookup_insert_eq.
Qed.

(** *** The position-wise loop *)

Lemma top_modifies h a h' :
  top h a = Ok h' ->
  modifies h {[a]} h' /\ self_kept h h' a.
Proof.
  unfold top. destruct (h !! a) as [[| | |k it lst lp c|]|] eqn:Ea; try done.
  intros [= <-]. split.
  - apply modifies_insert. left. set_solver.
  - right. exists k, it, lst, lp, c. split; [done|]. apply lookup_insert_eq.
Qed.

Lemma positions_joined_cons h hh h' a1 t1 (Fa1 Fa2 Ft1 Ft2 : gset loc) self :
  joined h Fa1 Fa2 hh a1 ->
  positions_joined hh Ft1 Ft2 self h' t1 ->
  Fa1 ⊆ dom h -> Fa2 ⊆ dom h -> Ft1 ⊆ dom h -> Ft2 ⊆ dom h ->
  Fa1 ## Ft1 -> Fa2 ## Ft2 -> Fa1 ∪ Ft1 ## Fa2 ∪ Ft2 ->
  self ∈ dom h -> self ∉ Fa1 ∪ Ft1 -> self ∉ Fa2 ∪ Ft2 ->
  positions_joined h (Fa1 ∪ Ft1) (Fa2 ∪ Ft2) self h' (a1 :: t1).
Proof.
  intros (Hm1 & Fa1' & Ht1 & Hs1) (Hm2 & Hk2 & Ft1' & Hf2 & Hs2)
         Hd1 Hd2 Hd3 Hd4 Hx1 Hx2 Hx12 Hself Hn1 Hn2.
  pose proof (tree_dom _ _ _ Ht1) as Hdt1.
  assert (Hsub1 : dom h ⊆ dom hh) by apply Hm1.
  assert (Hsub2 : dom hh ⊆ dom h') by apply Hm2.
  assert (Hselfhh : hh !! self = h !! self).
  { apply Hm1; [done|set_solver]. }
  split_and!.
  - apply (modifies_trans h _ hh h' (Ft1 ∪ {[self]})); [|done|set_solver].
    apply (modifies_weaken h Fa1); [done|set_solver].
  - destruct Hk2 as [Hk2|(k & it & lst & lp & c & Hk2 & Hk2')].
    + left. congruence.
    + right. exists k, it, lst, lp, c. split; congruence.
  - exists (Fa1' ∪ Ft1').
    assert (Hs1' : Fa1' ⊆ (Fa1 ∪ Fa2) ∪ (dom hh ∖ dom h)) by done.
    assert (Hs2' : Ft1' ⊆ (Ft1 ∪ Ft2) ∪ (dom h' ∖ dom hh)) by done.
    split.
    + constructor; [|done|].
      * apply (tree_modifies hh _ _ _ (Ft1 ∪ {[self]})); [done|done|].
        apply (grown_disjoint_old (Fa1 ∪ Fa2) _ _ (dom h) (dom hh)); [done| |].
        -- clear -Hd3 Hself. set_solver.
        -- clear -Hx1 Hx12 Hn1 Hn2. set_solver.
      * apply (grown_disjoint (Fa1 ∪ Fa2) _ (Ft1 ∪ Ft2) _ (dom h) (dom hh) (dom h'));
          try done.
        -- clear -Hx1 Hx2 Hx12. set_solver.
        -- clear -Hd3 Hd4. set_solver.
    + replace (Fa1 ∪ Ft1 ∪ (Fa2 ∪ Ft2)) with ((Fa1 ∪ Fa2) ∪ (Ft1 ∪ Ft2))
        by (clear; set_solver).
      by apply (grown_union _ _ _ _ (dom h) (dom hh) (dom h')).
Qed.

Lemma join_positions_spec rec copy self :
  join_ok rec -> copy_ok copy ->
  forall (la lb : list loc) h (F1 F2 : gset loc) h',
    forest h la F1 -> forest h lb F2 -> F1 ## F2 ->
    self ∈ dom h -> self ∉ F1 -> self ∉ F2 ->
    join_positions rec copy h self la lb = Ok h' ->
    positions_joined h F1 F2 self h' la.
Proof.
  intros Hrec Hcopy. induction la as [|a1 t1 IH]; intros lb h F1 F2 h' Hf1 Hf2 Hdisj Hs Hn1 Hn2.
  { simpl. intros [= <-]. split_and!; [apply modifies_refl|by left|].
    exists F1. split; [done|set_solver]. }
  destruct lb as [|a2 t2].
  { simpl. intros [= <-]. split_and!; [apply modifies_refl|by left|].
    exists F1. split; [done|set_solver]. }
  inversion Hf1 as [|? ? Fa1 Ft1 Ha1 Ht1 Hx1]; subst.
  inversion Hf2 as [|? ? Fa2 Ft2 Ha2 Ht2 Hx2]; subst.
  pose proof (tree_dom _ _ _ Ha1) as Hd1. pose proof (tree_dom _ _ _ Ha2) as Hd2.
  pose proof (forest_dom _ _ _ Ht1) as Hd3. pose proof (forest_dom _ _ _ Ht2) as Hd4.
  (* the tails after a step that joins the first position *)
  assert (Hstep : forall hh, joined h Fa1 Fa2 hh a1 ->
            join_positions rec copy hh self t1 t2 = Ok h' ->
            positions_joined h (Fa1 ∪ Ft1) (Fa2 ∪ Ft2) self h' (a1 :: t1)).
  { intros hh Hj Hrest.
    assert (Hmh : modifies h Fa1 hh) by apply Hj.
    apply (positions_joined_cons h hh); try done.
    apply (IH t2 hh Ft1 Ft2 h'); try done.
    - apply (forest_modifies h _ _ _ Fa1); [done|done|set_solver].
    - apply (forest_modifies h _ _ _ Fa1); [done|done|set_solver].
    - set_solver.
    - destruct Hmh as [Hsub _]. set_solver.
    - set_solver.
    - set_solver. }
  simpl.
  destruct (is_placeholder h a1) as [p1| |] eqn:Ep1; simpl; try done.
  destruct p1.
  { destruct (copy h a2) as [c| |] eqn:Ec; simpl; try done.
    destruct (replace c.1 a1 c.2) as [hh| |] eqn:Er; simpl; try done.
    apply Hstep. by apply (copy_replace_joined copy h a1 a2 Fa1 Fa2 c). }
  destruct (is_placeholder h a2) as [p2| |] eqn:Ep2; simpl; try done.
  destruct p2.
  { intros Hrest. apply (Hstep h); [|done].
    split; [apply modifies_refl|]. exists Fa1. split; [done|set_solver]. }
  destruct (isinstance_InputAssumptionLattice h a1) as [k1| |]; simpl; try done.
  destruct (isinstance_InputAssumptionLattice h a2) as [k2| |]; simpl; try done.
  destruct (bool_decide (k1 = k2)).
  { destruct (rec h a1 a2) as [hh| |] eqn:Erec; simpl; try done.
    apply Hstep. apply (Hrec h a1 a2 Fa1 Fa2 hh); [done|done|set_solver|done]. }
  intros Htop. destruct (top_modifies _ _ _ Htop) as [Hm Hk].
  split_and!.
  - apply (modifies_weaken h {[self]}); [done|set_solver].
  - done.
  - exists (Fa1 ∪ Ft1). split; [|set_solver].
    apply (forest_modifies h _ _ _ {[self]}); [done|done|set_solver].
Qed.

(** *** The hooks *)

Section hooks.

Variable rec : heap -> loc -> loc -> outcome heap.
Variable copy : heap -> loc -> outcome (heap * loc).
Hypothesis rec_ok : join_ok rec.
Hypothesis copy_ok' : copy_ok copy.

Lemma TypeLattice_join_spec h a b Fa Fb h' :
  tree h a Fa -> TypeLattice_join h a b = Ok h' -> joined h Fa Fb h' a.
Proof.
  intros Ha. unfold TypeLattice_join, read_type.
  destruct (h !! a) as [[v1| | | |]|] eqn:Ea; simpl; try done.
  destruct (h !! b) as [[v2| | | |]|] eqn:Eb; simpl; try done.
  destruct (TypeLattice._join v1 v2) as [v| |]; simpl; try done.
  intros [= <-]. pose proof (tree_root _ _ _ Ha). split.
  - apply modifies_insert. by left.
  - exists {[a]}. split; [|set_solver]. apply (tree_type _ _ v), lookup_insert_eq.
Qed.

Lemma Range_join_spec h a b Fa Fb h' :
  tree h a Fa -> Range_join h a b = Ok h' -> joined h Fa Fb h' a.
Proof.
  intros Ha. unfold Range_join, read_range.
  destruct (h !! a) as [[|r1| | |]|] eqn:Ea; simpl; try done.
  destruct (h !! b) as [[|r2| | |]|] eqn:Eb; simpl; try done.
  destruct (Lattice._join r1 r2) as [r| |]; simpl; try done.
  intros [= <-]. pose proof (tree_root _ _ _ Ha). split.
  - apply modifies_insert. by left.
  - exists {[a]}. split; [|set_solver]. apply (tree_range _ _ r), lookup_insert_eq.
Qed.

Lemma AssumptionLattice_join_spec h a b Fa Fb h' :
  tree h a Fa -> tree h b Fb -> Fa ## Fb ->
  AssumptionLattice_join rec h a b = Ok h' -> joined h Fa Fb h' a.
Proof.
  intros Ha Hb Hdisj. unfold AssumptionLattice_join.
  destruct (h !! a) as [[| |ty1 rg1| |]|] eqn:Ea; try done.
  destruct (h !! b) as [[| |ty2 rg2| |]|] eqn:Eb; try done.
  destruct (tree_assumption_inv _ _ _ _ _ Ha Ea)
    as (Fty1 & Frg1 & Hty1 & Hrg1 & -> & Hn1 & Hn1' & Hx1).
  destruct (tree_assumption_inv _ _ _ _ _ Hb Eb)
    as (Fty2 & Frg2 & Hty2 & Hrg2 & -> & Hn2 & Hn2' & Hx2).
  pose proof (tree_dom _ _ _ Hty1) as Hd1. pose proof (tree_dom _ _ _ Hrg1) as Hd2.
  pose proof (tree_dom _ _ _ Hty2) as Hd3. pose proof (tree_dom _ _ _ Hrg2) as Hd4.
  pose proof (elem_of_dom_Some _ _ _ Ea) as Hda.
  pose proof (elem_of_dom_Some _ _ _ Eb) as Hdb.
  destruct (rec h ty1 ty2) as [h1| |] eqn:E1; simpl; try done.
  destruct (rec_ok h ty1 ty2 Fty1 Fty2 h1) as (Hm1 & Fty1' & Ht1' & Hs1);
    [done|done|set_solver|done|].
  assert (Ea1 : h1 !! a = h !! a) by (apply Hm1; [done|set_solver]).
  assert (Eb1 : h1 !! b = h !! b) by (apply Hm1; [done|set_solver]).
  rewrite Ea1, Eb1, Ea, Eb.
  intros E2.
  destruct (rec_ok h1 rg1 rg2 Frg1 Frg2 h') as (Hm2 & Frg1' & Ht2' & Hs2); [| | |done|].
  { apply (tree_modifies h _ _ _ Fty1); [done|done|set_solver]. }
  { apply (tree_modifies h _ _ _ Fty1); [done|done|set_solver]. }
  { set_solver. }
  pose proof (tree_dom _ _ _ Ht1') as Hd1'.
  assert (Hsub1 : dom h ⊆ dom h1) by apply Hm1.
  assert (Hsub2 : dom h1 ⊆ dom h') by apply Hm2.
  assert (Ea2 : h' !! a = Some (OAssumption ty1 rg1)).
  { rewrite <- Ea, <- Ea1. apply Hm2; [set_solver|set_solver]. }
  split.
  - apply (modifies_trans h _ h1 h' Frg1); [|done|set_solver].
    apply (modifies_weaken h Fty1); [done|set_solver].
  - exists ({[a]} ∪ (Fty1' ∪ Frg1')).
    assert (Hs1' : Fty1' ⊆ (Fty1 ∪ Fty2) ∪ (dom h1 ∖ dom h)) by done.
    assert (Hs2' : Frg1' ⊆ (Frg1 ∪ Frg2) ∪ (dom h' ∖ dom h1)) by done.
    assert (Hab : forall F F', F ⊆ {[a]} ∪ (Fty1 ∪ Frg1) -> F' ⊆ {[b]} ∪ (Fty2 ∪ Frg2) ->
              F ## F') by (clear -Hdisj; set_solver).
    split.
    + apply (tree_assumption _ _ ty1 rg1); [done| |done| | |].
      * apply (tree_modifies h1 _ _ _ Frg1); [done|done|].
        apply (grown_disjoint_old (Fty1 ∪ Fty2) _ _ (dom h) (dom h1)); [done|done|].
        apply disjoint_union_l. split; [done|].
        symmetry. apply Hab; clear; set_solver.
      * apply (grown_not_elem_of (Fty1 ∪ Fty2) _ (dom h) (dom h1)); [done|done|].
        apply not_elem_of_union. split; [done|].
        assert (HH : {[a]} ## Fty2) by (apply Hab; clear; set_solver).
        clear -HH. set_solver.
      * apply (grown_not_elem_of (Frg1 ∪ Frg2) _ (dom h1) (dom h')); [done| |].
        { clear -Hda Hsub1. set_solver. }
        apply not_elem_of_union. split; [done|].
        assert (HH : {[a]} ## Frg2) by (apply Hab; clear; set_solver).
        clear -HH. set_solver.
      * apply (grown_disjoint (Fty1 ∪ Fty2) _ (Frg1 ∪ Frg2) _ (dom h) (dom h1) (dom h'));
          try done.
        -- assert (H12 : Fty1 ## Frg2) by (apply Hab; clear; set_solver).
           assert (H21 : Frg1 ## Fty2) by (apply Hab; clear; set_solver).
           clear -Hx1 Hx2 H12 H21. set_solver.
        -- clear -Hd2 Hd4. set_solver.
    + pose proof (grown_union _ _ _ _ _ _ _ Hs1' Hs2' Hsub1 Hsub2) as Hu.
      clear -Hu. set_solver.
Qed.

Lemma assmps_inv h l items :
  assmps h l = Ok items ->
  exists k it lst lp c,
    h !! l = Some (OInput k it lst lp c) /\ h !! lst = Some (OList items)
    /\ k ≠ Lattice.BOTTOM /\ k ≠ Lattice.TOP.
Proof.
  unfold assmps. destruct (h !! l) as [[| | |k it lst lp c|]|] eqn:El; try done.
  destruct (bool_decide (k = Lattice.BOTTOM)) eqn:E1; [done|].
  destruct (bool_decide (k = Lattice.TOP)) eqn:E2; [done|]. simpl.
  destruct (h !! lst) as [[| | | |items']|] eqn:Elst; try done.
  intros [= <-]. exists k, it, lst, lp, c.
  apply bool_decide_eq_false in E1, E2. by split_and!.
Qed.

Lemma pop_1_inv h l h' k it lst lp c items :
  h !! l = Some (OInput k it lst lp c) -> h !! lst = Some (OList items) ->
  pop_1 h l = Ok h' ->
  exists x0 x1 rest, items = x0 :: x1 :: rest /\ h' = <[lst := OList (x0 :: rest)]> h.
Proof.
  intros Hl Hlst. unfold pop_1. rewrite Hl.
  destruct (_ || _); [done|]. rewrite Hlst.
  destruct items as [|x0 [|x1 rest]]; try done.
  intros [= <-]. by exists x0, x1, rest.
Qed.

(** The receiver after the position-wise loop. *)
Lemma input_rebuilt h a k it lst lp c items (F1 F2 Fb : gset loc) h' :
  h !! a = Some (OInput k it lst lp c) -> h !! lst = Some (OList items) ->
  a ≠ lst -> a ∉ F1 -> lst ∉ F1 -> a ∉ F2 -> lst ∉ F2 -> F2 ⊆ Fb ->
  positions_joined h F1 F2 a h' items ->
  joined h ({[a; lst]} ∪ F1) Fb h' a.
Proof.
  intros Ha Hlst Hne Hn1 Hn2 Hn3 Hn4 Hsub (Hm & Hk & F1' & Hf & Hs).
  pose proof (elem_of_dom_Some _ _ _ Ha) as Hda.
  pose proof (elem_of_dom_Some _ _ _ Hlst) as Hdl.
  assert (Hlst' : h' !! lst = Some (OList items)).
  { rewrite <- Hlst. apply Hm; [done|]. clear -Hne Hn2. set_solver. }
  assert (Ha' : exists k', h' !! a = Some (OInput k' it lst lp c)).
  { destruct Hk as [Hk|(k0 & it0 & lst0 & lp0 & c0 & Hk & Hk')].
    - exists k. congruence.
    - exists Lattice.TOP. congruence. }
  destruct Ha' as [k' Ha'].
  split.
  - apply (modifies_weaken h (F1 ∪ {[a]})); [done|]. clear. set_solver.
  - exists ({[a; lst]} ∪ F1'). split.
    + apply (tree_input_intro _ _ k' it lst lp c items); try done.
      * apply (grown_not_elem_of (F1 ∪ F2) _ (dom h) (dom h')); [done|done|].
        clear -Hn1 Hn3. set_solver.
      * apply (grown_not_elem_of (F1 ∪ F2) _ (dom h) (dom h')); [done|done|].
        clear -Hn2 Hn4. set_solver.
    + clear -Hs Hsub. set_solver.
Qed.

(** The length-reconciliation step on the receiver. *)
Lemma fold_self_spec h a b k it lst lp c (la lb : list loc) (Fa Fb : gset loc) h' :
  tree h a Fa -> tree h b Fb -> Fa ## Fb ->
  h !! a = Some (OInput k it lst lp c) -> h !! lst = Some (OList la) ->
  fold_self rec h a b la lb = Ok (Some h') ->
  joined h Fa Fb h' a.
Proof.
  intros Ha Hb Hdisj Ea Elst.
  destruct (tree_input_inv _ _ _ _ _ _ _ _ _ Ha Ea Elst)
    as (F1' & Hf & -> & Hne & Hn1 & Hn2).
  unfold fold_self.
  destruct lb as [|o0 tb]; [done|]. destruct la as [|s0 [|s1 rest]]; try done.
  destruct (isinstance_InputAssumptionLattice h o0) as [[]| |]; simpl; try done.
  destruct (is_placeholder h o0) as [p0| |]; simpl; try done.
  destruct (isinstance_InputAssumptionLattice h s0) as [k0| |]; simpl; try done.
  destruct (if k0 then isinstance_InputAssumptionLattice h s1 else Ok false)
    as [k1| |]; simpl; try done.
  destruct (p0 && k1); [|done].
  destruct (rec h s0 s1) as [h1| |] eqn:E1; simpl; try done.
  destruct (pop_1 h1 a) as [h2| |] eqn:E2; simpl; try done.
  destruct (assmps h2 a) as [la'| |]; simpl; try done.
  destruct (assmps h2 b) as [lb'| |]; simpl; try done.
  destruct (bool_decide _); [|done].
  destruct (rec h2 a b) as [h3| |] eqn:E3; simpl; try done.
  intros [= <-].
  inversion Hf as [|? ? Fs0 Fr0 Hs0 Hr0 Hx0]; subst.
  inversion Hr0 as [|? ? Fs1 Fr Hs1 Hr Hx1]; subst.
  pose proof (tree_dom _ _ _ Hs0) as Hd0. pose proof (tree_dom _ _ _ Hs1) as Hd1.
  pose proof (forest_dom _ _ _ Hr) as Hdr. pose proof (tree_dom _ _ _ Hb) as Hdb.
  pose proof (elem_of_dom_Some _ _ _ Ea) as Hda.
  pose proof (elem_of_dom_Some _ _ _ Elst) as Hdl.
  destruct (rec_ok h s0 s1 Fs0 Fs1 h1) as (Hm1 & Fs0' & Ht0' & Hsub0);
    [done|done|clear -Hx0; set_solver|done|].
  assert (Hsubh1 : dom h ⊆ dom h1) by apply Hm1.
  assert (Ea1 : h1 !! a = Some (OInput k it lst lp c)).
  { rewrite <- Ea. apply Hm1; [done|]. clear -Hn1. set_solver. }
  assert (Elst1 : h1 !! lst = Some (OList (s0 :: s1 :: rest))).
  { rewrite <- Elst. apply Hm1; [done|]. clear -Hn2. set_solver. }
  destruct (pop_1_inv _ _ _ _ _ _ _ _ _ Ea1 Elst1 E2) as (x0 & x1 & rest' & [= <- <- <-] & ->).
  set (h2 := <[lst := OList (s0 :: rest)]> h1) in *.
  assert (Hm12 : modifies h1 {[lst]} h2).
  { apply modifies_insert. left. clear. set_solver. }
  assert (Hm2 : modifies h (Fs0 ∪ {[lst]}) h2).
  { apply (modifies_trans h _ h1 h2 {[lst]}); [|done|clear; set_solver].
    apply (modifies_weaken h Fs0); [done|clear; set_solver]. }
  assert (Hsubh2 : dom h ⊆ dom h2) by apply Hm2.
  (* the receiver, one element shorter *)
  assert (Hfa2 : forest h2 (s0 :: rest) (Fs0' ∪ Fr)).
  { constructor.
    - apply (tree_modifies h1 _ _ _ {[lst]}); [done|done|].
      apply disjoint_singleton_r.
      apply (grown_not_elem_of (Fs0 ∪ Fs1) _ (dom h) (dom h1)); [done|done|].
      clear -Hn2. set_solver.
    - apply (forest_modifies h _ _ _ (Fs0 ∪ {[lst]})); [done|done|].
      clear -Hx0 Hx1 Hn2. set_solver.
    - apply (grown_disjoint_old (Fs0 ∪ Fs1) _ _ (dom h) (dom h1)); [done|done|].
      clear -Hx0 Hx1. set_solver. }
  assert (Hsub0' : Fs0' ∪ Fr ⊆ (Fs0 ∪ (Fs1 ∪ Fr)) ∪ (dom h1 ∖ dom h)).
  { clear -Hsub0. set_solver. }
  assert (Ha2 : tree h2 a ({[a; lst]} ∪ (Fs0' ∪ Fr))).
  { apply (tree_input_intro _ _ k it lst lp c (s0 :: rest)); try done.
    - unfold h2. by rewrite lookup_insert_ne.
    - unfold h2. apply lookup_insert_eq.
    - apply (grown_not_elem_of (Fs0 ∪ (Fs1 ∪ Fr)) _ (dom h) (dom h1)); done.
    - apply (grown_not_elem_of (Fs0 ∪ (Fs1 ∪ Fr)) _ (dom h) (dom h1)); done. }
  assert (Hb2 : tree h2 b Fb).
  { apply (tree_modifies h _ _ _ (Fs0 ∪ {[lst]})); [done|done|].
    clear -Hdisj. set_solver. }
  assert (Hx2 : {[a; lst]} ∪ (Fs0' ∪ Fr) ## Fb).
  { apply disjoint_union_l. split; [clear -Hdisj; set_solver|].
    apply (grown_disjoint_old (Fs0 ∪ (Fs1 ∪ Fr)) _ _ (dom h) (dom h1)); [done|done|].
    clear -Hdisj. set_solver. }
  destruct (rec_ok h2 a b _ Fb h3 Ha2 Hb2 Hx2 E3) as (Hm3 & Fa3 & Ht3 & Hsub3).
  assert (Hdom12 : dom h2 = dom h1).
  { unfold h2. rewrite dom_insert_L. clear -Elst1. apply elem_of_dom_Some in Elst1.
    set_solver. }
  split.
  - apply (modifies_trans h _ h2 h3 ({[a; lst]} ∪ (Fs0' ∪ Fr))); [|done|].
    + apply (modifies_weaken h (Fs0 ∪ {[lst]})); [done|clear; set_solver].
    + rewrite Hdom12. clear -Hsub0'. set_solver.
  - exists Fa3. split; [done|].
    assert (Hsub3' : Fa3 ⊆ ({[a; lst]} ∪ (Fs0' ∪ Fr) ∪ Fb) ∪ (dom h3 ∖ dom h1))
      by (by rewrite <- Hdom12).
    assert (Hsub1' : {[a; lst]} ∪ (Fs0' ∪ Fr) ∪ Fb
                     ⊆ ({[a; lst]} ∪ (Fs0 ∪ (Fs1 ∪ Fr)) ∪ Fb) ∪ (dom h1 ∖ dom h)).
    { clear -Hsub0'. set_solver. }
    apply (grown_trans _ _ _ (dom h) (dom h1) (dom h3) Hsub1' Hsub3'); [done|].
    rewrite <- Hdom12. apply Hm3.
Qed.

(** The same step on a duplicate of the argument: what is folded and
    shortened is the duplicate. *)
Lemma fold_other_spec h a b (la lb : list loc) (Fa Fb : gset loc) h' :
  tree h a Fa -> tree h b Fb -> Fa ## Fb ->
  fold_other rec copy h a b la lb = Ok (Some h') ->
  joined h Fa Fb h' a.
Proof.
  intros Ha Hb Hdisj. unfold fold_other.
  destruct la as [|s0 ta]; [done|]. destruct lb as [|o0 [|o1 restb]]; try done.
  destruct (isinstance_InputAssumptionLattice h s0) as [[]| |]; simpl; try done.
  destruct (is_placeholder h s0) as [p0| |]; simpl; try done.
  destruct (isinstance_InputAssumptionLattice h o0) as [k0| |]; simpl; try done.
  destruct (if k0 then isinstance_InputAssumptionLattice h o1 else Ok false)
    as [k1| |]; simpl; try done.
  destruct (p0 && k1); [|done].
  destruct (copy h b) as [[hc c]| |] eqn:Ec; simpl; try done.
  destruct (assmps hc c) as [lc| |] eqn:Elc; simpl; try done.
  destruct lc as [|c0 [|c1 restc]]; try done.
  destruct (rec hc c0 c1) as [h1| |] eqn:E1; simpl; try done.
  destruct (pop_1 h1 c) as [h2| |] eqn:E2; simpl; try done.
  destruct (assmps h2 a) as [la'| |]; simpl; try done.
  destruct (assmps h2 c) as [lb'| |]; simpl; try done.
  destruct (bool_decide _); [|done].
  destruct (rec h2 a c) as [h3| |] eqn:E3; simpl; try done.
  intros [= <-].
  destruct (copy_ok' _ _ _ _ Hb Ec) as (Hmc & Fc & Htc & Hsubc). simpl in *.
  destruct (assmps_inv _ _ _ Elc) as (kc & itc & lstc & lpc & cc & Ecp & Elstc & _ & _).
  destruct (tree_input_inv _ _ _ _ _ _ _ _ _ Htc Ecp Elstc)
    as (Fcl & Hfc & -> & Hnec & Hnc1 & Hnc2).
  inversion Hfc as [|? ? Fc0 Fr0 Hc0 Hr0 Hx0]; subst.
  inversion Hr0 as [|? ? Fc1 Fr Hc1 Hr Hx1]; subst.
  pose proof (tree_dom _ _ _ Ha) as Hda.
  pose proof (tree_dom _ _ _ Hc0) as Hd0. pose proof (forest_dom _ _ _ Hr) as Hdr.
  pose proof (elem_of_dom_Some _ _ _ Ecp) as Hdcp.
  pose proof (elem_of_dom_Some _ _ _ Elstc) as Hdlc.
  assert (Hsubhc : dom h ⊆ dom hc) by apply Hmc.
  destruct (rec_ok hc c0 c1 Fc0 Fc1 h1) as (Hm1 & Fc0' & Ht0' & Hsub0);
    [done|done|clear -Hx0; set_solver|done|].
  assert (Hsubh1 : dom hc ⊆ dom h1) by apply Hm1.
  assert (Ecp1 : h1 !! c = Some (OInput kc itc lstc lpc cc)).
  { rewrite <- Ecp. apply Hm1; [done|]. clear -Hnc1. set_solver. }
  assert (Elstc1 : h1 !! lstc = Some (OList (c0 :: c1 :: restc))).
  { rewrite <- Elstc. apply Hm1; [done|]. clear -Hnc2. set_solver. }
  destruct (pop_1_inv _ _ _ _ _ _ _ _ _ Ecp1 Elstc1 E2)
    as (x0 & x1 & rest' & [= <- <- <-] & ->).
  set (h2 := <[lstc := OList (c0 :: restc)]> h1) in *.
  assert (Hdom12 : dom h2 = dom h1).
  { unfold h2. rewrite dom_insert_L. clear -Elstc1. apply elem_of_dom_Some in Elstc1.
    set_solver. }
  assert (Hm12 : modifies h1 {[lstc]} h2).
  { apply modifies_insert. left. clear. set_solver. }
  (* nothing that existed before the duplicate was made has changed *)
  assert (Hfresh : {[c; lstc]} ∪ (Fc0 ∪ (Fc1 ∪ Fr)) ## dom h).
  { clear -Hsubc. set_solver. }
  assert (Hm2 : modifies h ∅ h2).
  { apply (modifies_trans h _ h1 h2 {[lstc]}).
    - apply (modifies_trans h _ hc h1 Fc0); [done|done|].
      clear -Hsubc. set_solver.
    - done.
    - clear -Hsubc Hsubh1. set_solver. }
  assert (Ha2 : tree h2 a Fa).
  { apply (tree_modifies h _ _ _ ∅); [done|done|clear; set_solver]. }
  (* the duplicate, one element shorter *)
  assert (Hsub0' : Fc0' ∪ Fr ⊆ (Fc0 ∪ (Fc1 ∪ Fr)) ∪ (dom h1 ∖ dom hc)).
  { clear -Hsub0. set_solver. }
  assert (Hfc2 : forest h2 (c0 :: restc) (Fc0' ∪ Fr)).
  { constructor.
    - apply (tree_modifies h1 _ _ _ {[lstc]}); [done|done|].
      apply disjoint_singleton_r.
      apply (grown_not_elem_of (Fc0 ∪ Fc1) _ (dom hc) (dom h1)); [done|done|].
      clear -Hnc2. set_solver.
    - apply (forest_modifies hc _ _ _ (Fc0 ∪ {[lstc]})); [done| |].
      + apply (modifies_trans hc _ h1 h2 {[lstc]}); [|done|clear; set_solver].
        apply (modifies_weaken hc Fc0); [done|clear; set_solver].
      + clear -Hx0 Hx1 Hnc2. set_solver.
    - apply (grown_disjoint_old (Fc0 ∪ Fc1) _ _ (dom hc) (dom h1)); [done|done|].
      clear -Hx0 Hx1. set_solver. }
  assert (Hc2 : tree h2 c ({[c; lstc]} ∪ (Fc0' ∪ Fr))).
  { apply (tree_input_intro _ _ kc itc lstc lpc cc (c0 :: restc)); try done.
    - unfold h2. by rewrite lookup_insert_ne.
    - unfold h2. apply lookup_insert_eq.
    - apply (grown_not_elem_of (Fc0 ∪ (Fc1 ∪ Fr)) _ (dom hc) (dom h1)); done.
    - apply (grown_not_elem_of (Fc0 ∪ (Fc1 ∪ Fr)) _ (dom hc) (dom h1)); done. }
  assert (Hnew : {[c; lstc]} ∪ (Fc0' ∪ Fr) ⊆ dom h2 ∖ dom h).
  { rewrite Hdom12. clear -Hsub0' Hsubc Hsubh1 Hsubhc Hdcp Hdlc. set_solver. }
  assert (Hx2 : Fa ## {[c; lstc]} ∪ (Fc0' ∪ Fr)).
  { clear -Hnew Hda. set_solver. }
  destruct (rec_ok h2 a c Fa _ h3 Ha2 Hc2 Hx2 E3) as (Hm3 & Fa3 & Ht3 & Hsub3).
  assert (Hsubh2 : dom h ⊆ dom h2) by apply Hm2.
  assert (Hsubh3 : dom h2 ⊆ dom h3) by apply Hm3.
  split.
  - apply (modifies_trans h _ h2 h3 Fa); [|done|clear; set_solver].
    apply (modifies_weaken h ∅); [done|clear; set_solver].
  - exists Fa3. split; [done|].
    clear -Hsub3 Hnew Hsubh2 Hsubh3. set_solver.
Qed.

Lemma InputAssumptionLattice_join_spec h a b Fa Fb h' :
  tree h a Fa -> tree h b Fb -> Fa ## Fb ->
  InputAssumptionLattice_join rec copy h a b = Ok h' -> joined h Fa Fb h' a.
Proof.
  intros Ha Hb Hdisj. unfold InputAssumptionLattice_join.
  assert (Hsame : joined h Fa Fb h a).
  { split; [apply modifies_refl|]. exists Fa. split; [done|clear; set_solver]. }
  assert (Htop : forall h0, top h a = Ok h0 -> joined h Fa Fb h0 a).
  { intros h0 Ht. destruct (top_tree _ _ _ _ Ha Ht) as (Hm & Ht' & _).
    pose proof (tree_root _ _ _ Ha) as Hr. split.
    - apply (modifies_weaken h {[a]}); [done|clear -Hr; set_solver].
    - exists Fa. split; [done|clear; set_solver]. }
  destruct (h !! b) as [[| | |kb [n2|] lstb lpb cb|]|] eqn:Eb; try done;
    [|by intros [= <-]].
  destruct (h !! a) as [[| | |ka [n1|] lsta lpa ca|]|] eqn:Ea; try done.
  2:{ destruct (copy h b) as [cp| |] eqn:Ec; simpl; try done.
      by apply (copy_replace_joined copy h a b Fa Fb cp). }
  destruct (bool_decide (n1 ≠ n2)); [apply Htop|].
  destruct (assmps h a) as [la| |] eqn:Ela; simpl; try done.
  destruct (assmps h b) as [lb| |] eqn:Elb; simpl; try done.
  destruct (assmps_inv _ _ _ Ela) as (ka' & ita' & lsta' & lpa' & ca' & Ea' & Elsta & _ & _).
  rewrite Ea in Ea'. injection Ea' as <- <- <- <- <-.
  destruct (assmps_inv _ _ _ Elb) as (kb' & itb' & lstb' & lpb' & cb' & Eb' & Elstb & _ & _).
  rewrite Eb in Eb'. injection Eb' as <- <- <- <- <-.
  destruct (bool_decide (length la = length lb)).
  { intros Hloop.
    destruct (tree_input_inv _ _ _ _ _ _ _ _ _ Ha Ea Elsta)
      as (F1 & Hf1 & -> & Hne1 & Hn1 & Hn1').
    destruct (tree_input_inv _ _ _ _ _ _ _ _ _ Hb Eb Elstb)
      as (F2 & Hf2 & -> & Hne2 & Hn2 & Hn2').
    apply (input_rebuilt h a ka (Some n1) lsta lpa ca la F1 F2); try done.
    - clear -Hdisj. set_solver.
    - clear -Hdisj. set_solver.
    - clear. set_solver.
    - apply (join_positions_spec rec copy a rec_ok copy_ok' la lb h F1 F2 h');
        try done.
      + clear -Hdisj. set_solver.
      + by apply (elem_of_dom_Some _ _ _ Ea).
      + clear -Hdisj. set_solver. }
  destruct (_ && _).
  { destruct (fold_self rec h a b la lb) as [[h0|]| |] eqn:Ef; simpl; try done.
    - intros [= <-].
      by apply (fold_self_spec h a b ka (Some n1) lsta lpa ca la lb Fa Fb h0).
    - apply Htop. }
  destruct (_ && _); [|apply Htop].
  destruct (fold_other rec copy h a b la lb) as [[h0|]| |] eqn:Ef; simpl; try done.
  - intros [= <-]. by apply (fold_other_spec h a b la lb Fa Fb h0).
  - apply Htop.
Qed.

Lemma _join_spec h a b Fa Fb h' :
  tree h a Fa -> tree h b Fb -> Fa ## Fb ->
  _join rec copy h a b = Ok h' -> joined h Fa Fb h' a.
Proof.
  intros Ha Hb Hdisj. unfold _join.
  destruct (h !! a) as [[| | | |]|] eqn:Ea; try done.
  - by apply TypeLattice_join_spec.
  - by apply Range_join_spec.
  - by apply AssumptionLattice_join_spec.
  - by apply InputAssumptionLattice_join_spec.
Qed.

End hooks.

Lemma join_joined fuel : join_ok (join (R:=R) (Cond:=Cond) fuel).
Proof.
  induction fuel as [|fuel IH]; intros h a b Fa Fb h' Ha Hb Hdisj; [done|].
  simpl.
  destruct (is_bottom h a) as [b1| |]; simpl; try done.
  destruct (if b1 then Ok true else is_top h b) as [adopt| |]; simpl; try done.
  destruct adopt; [by apply replace_joined|].
  destruct (is_bottom h b) as [b2| |]; simpl; try done.
  destruct (if b2 then Ok true else is_top h a) as [keep| |]; simpl; try done.
  destruct keep.
  - intros [= <-]. split; [apply modifies_refl|]. exists Fa. split; [done|set_solver].
  - apply (_join_spec (join fuel) (deepcopy fuel)); try done. apply deepcopy_ok.
Qed.

(** C10: [a.join(b)] does not mutate its argument.  For a receiver and an
    argument that are separate trees of objects, every object reached from
    [b] is after the call what it was before: its iteration count, its
    assumption sequence and every nested element of it; a fold of the
    longer argument is made on a duplicate. *)
Theorem join_preserves_argument fuel h a b (Fa Fb : gset loc) h' :
  tree h a Fa -> tree h b Fb -> Fa ## Fb ->
  join fuel h a b = Ok h' ->
  (forall x, x ∈ Fb -> h' !! x = h !! x) /\ tree h' b Fb.
Proof.
  intros Ha Hb Hdisj Hjoin.
  destruct (join_joined fuel h a b Fa Fb h' Ha Hb Hdisj Hjoin) as [Hm _].
  split.
  - intros x Hx. apply Hm; [|set_solver]. by apply (tree_dom h b Fb).
  - apply (tree_modifies h _ _ _ Fa); [done|done|set_solver].
Qed.

End facts.
End HeapFacts.

(** ** Concrete stores *)

Module HeapExampleFacts.
Import Heap HeapExamples.

Ltac solve_tree :=
  lazymatch goal with
  | |- tree ?h ?l _ =>
    let o := eval vm_compute in (h !! l) in
    lazymatch o with
    | Some (OType ?v) => apply (tree_type h l v); reflexivity
    | Some (ORange ?r) => apply (tree_range h l r); reflexivity
    | Some (OAssumption ?ty ?rg) =>
      apply (tree_assumption h l ty rg);
      [reflexivity | solve_tree | solve_tree | set_solver | set_solver | set_solver]
    | Some (OInput ?k ?it ?lst ?lp ?c) =>
      apply (tree_input h l k it lst lp c); [reflexivity | solve_tree | set_solver]
    | Some (OList ?items) =>
      apply (tree_list h l items); [reflexivity | solve_tree | set_solver]
    end
  | |- forest _ [] _ => apply forest_nil
  | |- forest _ (_ :: _) _ => apply forest_cons; [solve_tree | solve_tree | set_solver]
  end.

Lemma separate_join : join 10 separate 1 5 = Ok separate_after.
Proof. vm_compute. reflexivity. Qed.

Lemma separate_receiver_tree : tree separate 1 separate_receiver.
Proof. unfold separate_receiver. solve_tree. Qed.

Lemma separate_argument_tree : tree separate 5 separate_argument.
Proof. unfold separate_argument. solve_tree. Qed.

Lemma separate_disjoint : separate_receiver ## separate_argument.
Proof. unfold separate_receiver, separate_argument. set_solver. Qed.

(** The receiver has adopted a duplicate of the folded argument: its only
    element now repeats twice and holds the join of the two leaves. *)
Example separate_receiver_after :
  separate_after !! 3%positive = Some (input (Some 2) 31 true)
  /\ separate_after !! 31%positive = Some (OList [32%positive])
  /\ separate_after !! 32%positive = Some (OAssumption 33 34)
  /\ separate_after !! 33%positive = Some (OType (TypeLattice.init TypeLattice.Float))
  /\ separate_after !! 34%positive = Some (ORange (IntervalLattice.of_bounds 0 20)).
Proof. repeat split; vm_compute; reflexivity. Qed.

(** The two semantics agree here: the elements of [separate] have the
    values [separate_receiver_value] and [separate_argument_value], and
    after the join the receiver has the value that the join of these values
    is, and the argument the value it had. *)
Example separate_values :
  read_back 6 separate 1 = Some (InputAssumptionLattice.Nested separate_receiver_value)
  /\ read_back 6 separate 5 = Some (InputAssumptionLattice.Nested separate_argument_value)
  /\ InputAssumptionLattice.join separate_receiver_value separate_argument_value
     = Ok (InputAssumptionLattice.init (Some 1)
             (Some [loop_block InputAssumptionLatticeExamples.float_0_20]))
  /\ read_back 6 separate_after 1
     = Some (InputAssumptionLattice.Nested
               (InputAssumptionLattice.init (Some 1)
                  (Some [loop_block InputAssumptionLatticeExamples.float_0_20])))
  /\ read_back 6 separate_after 5
     = Some (InputAssumptionLattice.Nested separate_argument_value).
Proof. repeat split; vm_compute; reflexivity. Qed.

Lemma join_preserves_argument_witness :
  tree separate_after 5 separate_argument
  /\ separate_after !! 6%positive = Some (OList [7%positive; 13%positive]).
Proof.
  destruct (HeapFacts.join_preserves_argument 10 separate 1 5
              separate_receiver separate_argument separate_after
              separate_receiver_tree separate_argument_tree separate_disjoint
              separate_join) as [Hobj Htree].
  split; [exact Htree|].
  rewrite Hobj; [reflexivity|]. unfold separate_argument. set_solver.
Defined.

(** C10 as it is stated fails here: the receiver and the argument are two
    elements that hold the same leaf objects.  The join mutates the leaves
    of the receiver in place, and these are the leaves of the argument:
    after the call the second element of the argument is
    [(Float, [0, 20])], which was [(Int, [0, 10])] before. *)
Lemma join_shared_counterexample :
  join 10 shared 1 9 = Ok shared_after
  /\ shared !! 9%positive = Some (input (Some 1) 10 false)
  /\ shared !! 10%positive = Some (OList [6%positive; 3%positive])
  /\ shared !! 3%positive = Some (OAssumption 4 5)
  /\ shared !! 4%positive = Some (OType (TypeLattice.init TypeLattice.Int))
  /\ shared !! 5%positive = Some (ORange (IntervalLattice.of_bounds 0 10))
  /\ shared_after !! 9%positive = Some (input (Some 1) 10 false)
  /\ shared_after !! 10%positive = Some (OList [6%positive; 3%positive])
  /\ shared_after !! 3%positive = Some (OAssumption 4 5)
  /\ shared_after !! 4%positive = Some (OType (TypeLattice.init TypeLattice.Float))
  /\ shared_after !! 5%positive = Some (ORange (IntervalLattice.of_bounds 0 20)).
Proof. repeat split; vm_compute; reflexivity. Qed.

End HeapExampleFacts.

(** * Further properties of the lattices *)

(** ** TypeLattice: the chain Bool < Int < Float < Any *)

Module TypeLatticeFacts.
Import TypeLattice.

Implicit Types self other : t.

Lemma not_bottom_init self : is_bottom self = false -> self = init (_element self).
Proof. destruct self as [b e]; unfold is_bottom; simpl; intros ->; reflexivity. Qed.

(** X1: on the elements that are not bottom, [_less_equal] is a total
    order: reflexive, antisymmetric, transitive, and any two elements are
    comparable. *)
Theorem less_equal_total_order self other third :
  is_bottom self = false -> is_bottom other = false -> is_bottom third = false ->
  _less_equal self self = Ok true
  /\ (_less_equal self other = Ok true -> _less_equal other self = Ok true ->
      self = other)
  /\ (_less_equal self other = Ok true -> _less_equal other third = Ok true ->
      _less_equal self third = Ok true)
  /\ (_less_equal self other = Ok true \/ _less_equal other self = Ok true).
Proof.
  intros H1 H2 H3.
  rewrite (not_bottom_init self H1), (not_bottom_init other H2),
    (not_bottom_init third H3).
  destruct (_element self), (_element other), (_element third);
    vm_compute; repeat split; try discriminate; try reflexivity; auto.
Qed.

Lemma less_equal_total_order_witness :
  _less_equal (init Int) (init Int) = Ok true
  /\ (_less_equal (init Int) (init Float) = Ok true
      \/ _less_equal (init Float) (init Int) = Ok true).
Proof.
  destruct (less_equal_total_order (init Int) (init Float) (init Any)
              eq_refl eq_refl eq_refl) as (Hrefl & _ & _ & Htotal).
  split; [exact Hrefl | exact Htotal].
Defined.

(** X2: on the elements that are not bottom, [_join] gives the least upper
    bound and [_meet] the greatest lower bound of the two ranks with
    respect to [_less_equal]. *)
Theorem join_meet_bounds self other :
  is_bottom self = false -> is_bottom other = false ->
  exists j m,
    _join self other = Ok j /\ _meet self other = Ok m
    /\ is_bottom j = false /\ is_bottom m = false
    /\ _less_equal self j = Ok true /\ _less_equal other j = Ok true
    /\ _less_equal m self = Ok true /\ _less_equal m other = Ok true
    /\ (forall c, _less_equal self c = Ok true -> _less_equal other c = Ok true ->
          _less_equal j c = Ok true)
    /\ (forall c, _less_equal c self = Ok true -> _less_equal c other = Ok true ->
          _less_equal c m = Ok true).
Proof.
  intros H1 H2.
  rewrite (not_bottom_init self H1), (not_bottom_init other H2).
  destruct (_element self), (_element other);
    (eexists; eexists; split; [reflexivity|]; split; [reflexivity|]);
    repeat split; try reflexivity;
    intros [[] []]; vm_compute; congruence.
Qed.

Lemma join_meet_bounds_witness :
  exists j m,
    _join (init Int) (init Float) = Ok j /\ _meet (init Int) (init Float) = Ok m
    /\ element j = Some Float /\ element m = Some Int.
Proof.
  destruct (join_meet_bounds (init Int) (init Float) eq_refl eq_refl)
    as (j & m & Hj & Hm & _).
  exists j, m. repeat split; try assumption.
  - vm_compute in Hj. by injection Hj as <-.
  - vm_compute in Hm. by injection Hm as <-.
Defined.

(** X3: the order is the one the join and the meet induce: for elements
    that are not bottom, [self] is below [other] exactly when their join is
    [other], and exactly when their meet is [self]. *)
Theorem less_equal_iff_join_meet self other :
  is_bottom self = false -> is_bottom other = false ->
  (_less_equal self other = Ok true <-> _join self other = Ok other)
  /\ (_less_equal self other = Ok true <-> _meet self other = Ok self).
Proof.
  intros H1 H2.
  rewrite (not_bottom_init self H1), (not_bottom_init other H2).
  destruct (_element self), (_element other);
    vm_compute; repeat split; congruence.
Qed.

Lemma less_equal_iff_join_meet_witness :
  (_less_equal (init Bool) (init Int) = Ok true
   <-> _join (init Bool) (init Int) = Ok (init Int))
  /\ (_less_equal (init Float) (init Int) = Ok true
      <-> _join (init Float) (init Int) = Ok (init Int)).
Proof.
  split.
  - exact (proj1 (less_equal_iff_join_meet (init Bool) (init Int) eq_refl eq_refl)).
  - exact (proj1 (less_equal_iff_join_meet (init Float) (init Int) eq_refl eq_refl)).
Defined.

(** X4: the hooks read the [element] property, which is [None] on bottom:
    each of them raises a [TypeError] exactly when one of its operands is
    bottom, and returns otherwise. *)
Theorem hooks_raise_on_bottom self other :
  (is_bottom self || is_bottom other = true <-> _less_equal self other = Raise TypeError)
  /\ (is_bottom self || is_bottom other = true <-> _join self other = Raise TypeError)
  /\ (is_bottom self || is_bottom other = true <-> _meet self other = Raise TypeError)
  /\ (is_bottom self || is_bottom other = true <-> _widening self other = Raise TypeError)
  /\ (is_bottom self || is_bottom other = false ->
      returns (_less_equal self other) /\ returns (_join self other)
      /\ returns (_meet self other) /\ returns (_widening self other)).
Proof.
  destruct self as [[] a], other as [[] b]; unfold returns; cbn;
    repeat split; intros; try discriminate; try reflexivity; eauto.
Qed.

(** X5: every element falls in exactly one of the classes bottom,
    boolean, integer, real and top, and each setter moves any element,
    bottom included, into its own class. *)
Theorem classes_partition self :
  length (filter (fun b : bool => b = true)
            [is_bottom self; is_boolean self; is_integer self; is_real self;
             is_top self]) = 1%nat
  /\ is_boolean (boolean self) = true
  /\ is_integer (integer self) = true
  /\ is_real (real self) = true
  /\ is_top (top self) = true.
Proof. destruct self as [[] []]; repeat split; reflexivity. Qed.

(** X7: [repr] tells the elements apart: two elements print the same
    exactly when they have the same [element]. *)
Theorem repr_injective self other :
  repr self = repr other <-> element self = element other.
Proof. destruct self as [[] []], other as [[] []]; vm_compute; split; congruence. Qed.

Lemma widening_chain_changes others : forall self,
  is_bottom self = false ->
  Forall (fun other => is_bottom other = false) others ->
  exists chain,
    widening_chain self others = Ok chain
    /\ length chain = S (length others)
    /\ Forall (fun x => is_bottom x = false) chain
    /\ (changes chain + Z.to_nat (value (_element self)) <= 3)%nat.
Proof.
  induction others as [|other rest IH]; intros self Hself Hall.
  - exists [self]. repeat split; [by constructor|].
    simpl. destruct (_element self); vm_compute; lia.
  - inversion Hall as [|? ? Hother Hrest]; subst.
    assert (exists s, _widening self other = Ok (init s)
                      /\ (value (_element self) <= value s)
                      /\ (init s = self \/ value (_element self) < value s))
      as (s & Hw & Hle & Hchange).
    { rewrite (not_bottom_init self Hself), (not_bottom_init other Hother).
      destruct (_element self), (_element other);
        eexists; (split; [reflexivity|]); simpl; split; try lia; auto; right; lia. }
    destruct (IH (init s) eq_refl Hrest) as (chain & Hc & Hlen & Hnb & Hbound).
    exists (self :: chain). simpl. rewrite Hw. simpl. rewrite Hc. simpl.
    repeat split; [by rewrite Hlen | by constructor |].
    destruct chain as [|y chain']; [discriminate|].
    assert (y = init s) as ->.
    { destruct rest as [|next rest']; simpl in Hc.
      - by injection Hc as <- <-.
      - destruct (_widening (init s) next) as [s'| |]; try discriminate.
        simpl in Hc.
        destruct (widening_chain s' rest'); try discriminate.
        by injection Hc as <- <-. }
    simpl in Hbound |- *.
    case_bool_decide as Heq.
    + subst self. simpl in *. lia.
    + destruct Hchange as [?|Hlt]; [congruence|].
      assert (0 <= value (_element self)) by (destruct (_element self); simpl; lia).
      lia.
Qed.

(** X8: repeated widening stabilises: along the elements that a sequence
    of widenings visits, starting from an element that is not bottom and
    widening with elements that are not bottom, the element changes at most
    three times. *)
Theorem widening_chain_stabilises self others :
  is_bottom self = false ->
  Forall (fun other => is_bottom other = false) others ->
  exists chain,
    widening_chain self others = Ok chain
    /\ length chain = S (length others)
    /\ (changes chain <= 3)%nat.
Proof.
  intros Hself Hall.
  destruct (widening_chain_changes others self Hself Hall)
    as (chain & Hc & Hlen & _ & Hbound).
  exists chain. repeat split; [done..|lia].
Qed.

Lemma widening_chain_stabilises_witness :
  exists chain,
    widening_chain (init Bool) [init Int; init Bool; init Any; init Float; init Int]
    = Ok chain
    /\ length chain = 6%nat /\ (changes chain <= 3)%nat.
Proof.
  apply (widening_chain_stabilises (init Bool)
           [init Int; init Bool; init Any; init Float; init Int]).
  - reflexivity.
  - repeat constructor.
Defined.

End TypeLatticeFacts.

(** ** InputAssumptionLattice: what [join] and [less_equal] keep *)

Module InputAssumptionLatticeLaws.
Import InputAssumptionLattice.

Section laws.

Context {R : Type} `{!Lattice.Ops R} {Cond : Type}.
Implicit Types self other : t R Cond.
Implicit Types rec : t R Cond -> t R Cond -> outcome (t R Cond).

(** [rec] returns an element with the header of one of its operands. *)
#[local] Abbreviation keeps_header rec :=
  (forall x y z, rec x y = Ok z -> header z = header x \/ header z = header y).

Lemma fold_first_two_header rec longer shorter step folded :
  fold_first_two rec longer shorter = Some step ->
  step = Ok folded -> header folded = header longer.
Proof.
  unfold fold_first_two. intros Hf Hs.
  repeat case_match; simplify_eq.
  destruct (rec _ _) as [i0'| |]; simpl in *; try discriminate.
  case_bool_decide; simplify_eq. reflexivity.
Qed.

Lemma _join_with_header rec : keeps_header rec -> keeps_header (_join_with rec).
Proof.
  intros Hrec self other r. unfold _join_with.
  destruct (iterations other) as [n2|] eqn:E2; [|intros [= <-]; by left].
  destruct (iterations self) as [n1|] eqn:E1; [|intros [= <-]; by right].
  case_bool_decide; [intros [= <-]; by left|].
  destruct (assmps self) as [l1|]; [|discriminate].
  destruct (assmps other) as [l2|]; [|discriminate].
  case_bool_decide.
  { destruct (join_positions rec l1 l2) as [[l' []]| |]; simpl;
      try discriminate; intros [= <-]; by left. }
  destruct (_ && _).
  { destruct (fold_first_two rec self l2) as [step|] eqn:Ef;
      [|intros [= <-]; by left].
    destruct step as [folded| |] eqn:Es; simpl; try discriminate.
    intros Hr. pose proof (fold_first_two_header _ _ _ _ _ Ef eq_refl) as Hh.
    destruct (Hrec _ _ _ Hr) as [->| ->]; [left; exact Hh | by right]. }
  destruct (_ && _); [|intros [= <-]; by left].
  destruct (fold_first_two rec (deepcopy other) l1) as [step|] eqn:Ef;
    [|intros [= <-]; by left].
  destruct step as [folded| |] eqn:Es; simpl; try discriminate.
  intros Hr. pose proof (fold_first_two_header _ _ _ _ _ Ef eq_refl) as Hh.
  destruct (Hrec _ _ _ Hr) as [->| ->]; [by left | right; exact Hh].
Qed.

Lemma join_via_header rec :
  keeps_header rec -> keeps_header (Lattice.join_via is_bottom is_top rec).
Proof.
  intros Hrec x y z. unfold Lattice.join_via, Lattice.replace.
  repeat case_match; [intros [= <-]; by right | intros [= <-]; by left | apply Hrec].
Qed.

Lemma join_fuel_header fuel : keeps_header (join_fuel (R:=R) (Cond:=Cond) fuel).
Proof.
  induction fuel as [|fuel IH]; [discriminate|].
  simpl. by apply join_via_header, _join_with_header.
Qed.

(** X9: [join] invents no iteration count: the iterations, the loop flag
    and the condition of the element it returns are together those of the
    receiver or those of the argument. *)
Theorem join_keeps_header self other r :
  join self other = Ok r ->
  header r = header self \/ header r = header other.
Proof. apply join_fuel_header. Qed.

(** X10: an element with unresolved iterations is neutral for [join]: as the
    argument it leaves a receiver that is not bottom as it is, and as the
    receiver (neither bottom nor top) it takes the content of a resolved
    argument that is not bottom. *)
Theorem join_unresolved_neutral self other :
  (iterations other = None -> is_top other = false -> is_bottom self = false ->
   join self other = Ok self)
  /\ (iterations self = None -> iterations other <> None ->
      is_bottom self = false -> is_top self = false -> is_bottom other = false ->
      join self other = Ok (deepcopy other)).
Proof.
  destruct (InputAssumptionLatticeFacts.enough_fuel_S self other) as [k Hk].
  unfold join. rewrite Hk. simpl. unfold Lattice.join_via, _join_with.
  split.
  - intros -> -> ->. simpl. by destruct (_ || _).
  - intros -> Hres -> -> ->. simpl.
    destruct (is_top other); [done|].
    by destruct (iterations other).
Qed.

(** X11: the hook [_less_equal] compares the sequences only.  It answers
    true exactly when both elements have a sequence and the two sequences
    are position-wise below each other (so they are equally long); it
    answers false when the lengths differ, whatever the elements are; and it
    raises a [TypeError] when an operand is bottom or top. *)
Theorem less_equal_positionwise self other :
  (_less_equal self other = Ok true <->
   exists l1 l2, assmps self = Some l1 /\ assmps other = Some l2
     /\ Forall2 (fun a b => assmp_less_equal a b = Ok true) l1 l2)
  /\ (forall l1 l2, assmps self = Some l1 -> assmps other = Some l2 ->
        length l1 <> length l2 -> _less_equal self other = Ok false)
  /\ (assmps self = None \/ assmps other = None ->
      _less_equal self other = Raise TypeError).
Proof.
  assert (Hloop : forall l1 l2 : list (assmp R Cond),
             length l1 = length l2 ->
             less_equal_positions assmp_less_equal l1 l2 = Ok true
             <-> Forall2 (fun a b => assmp_less_equal a b = Ok true) l1 l2).
  { induction l1 as [|a1 l1 IH]; intros [|a2 l2] Hlen; simpl in Hlen; try discriminate.
    - split; [constructor | reflexivity].
    - injection Hlen as Hlen. simpl.
      destruct (assmp_less_equal a1 a2) as [[]| |] eqn:E; simpl.
      + rewrite (IH l2 Hlen). split; [by constructor | by inversion 1].
      + split; [discriminate | inversion 1; congruence].
      + split; [discriminate | inversion 1; congruence].
      + split; [discriminate | inversion 1; congruence]. }
  unfold _less_equal, _less_equal_with.
  split; [|split].
  - split.
    + destruct (assmps self) as [l1|] eqn:E1; [|discriminate].
      destruct (assmps other) as [l2|] eqn:E2; [|discriminate].
      apply InputAssumptionLatticeFacts.assmps_Some in E1 as ->.
      apply InputAssumptionLatticeFacts.assmps_Some in E2 as ->.
      case_bool_decide as Hlen; [discriminate|].
      intros Hle. eexists _, _. repeat split.
      by apply Hloop.
    + intros (l1 & l2 & E1 & E2 & Hall). rewrite E1, E2.
      apply InputAssumptionLatticeFacts.assmps_Some in E1 as ->.
      apply InputAssumptionLatticeFacts.assmps_Some in E2 as ->.
      pose proof (Forall2_length _ _ _ Hall) as Hlen.
      case_bool_decide; [done|]. by apply Hloop.
  - intros l1 l2 E1 E2 Hlen. rewrite E1, E2.
    apply InputAssumptionLatticeFacts.assmps_Some in E1 as ->.
    apply InputAssumptionLatticeFacts.assmps_Some in E2 as ->.
    by case_bool_decide.
  - intros [-> | E2]; [done|]. rewrite E2. by destruct (assmps self).
Qed.

(** X12: prepending a concatenation is prepending its second part and
    then its first part; and where [add_assumptions_front] with a one-element
    list and [add_assumption_front] both return, they return the same
    element. *)
Theorem add_assumptions_front_app self (xs ys : list (assmp R Cond)) a :
  add_assumptions_front self (xs ++ ys)
  = (s <~ add_assumptions_front self ys ; add_assumptions_front s xs)
  /\ (forall s s', add_assumptions_front self [a] = Ok s ->
        add_assumption_front self a = Ok s' -> s = s').
Proof.
  unfold add_assumptions_front, add_assumption_front, assmps, is_bottom, is_top.
  split.
  - destruct (_ || _) eqn:E; simpl; [done|].
    rewrite E. by rewrite (assoc_L (++)).
  - intros s s'. destruct (_ || _); [done|].
    destruct a; [|done]. by intros [= <-] [= <-].
Qed.

(** X13: the prepend helpers never change the kind of the receiver: on top
    and on bottom, [add_assumption_front] and [add_assumptions_with_iter]
    return an element that is top, or bottom, as before, which shows no
    sequence and prints as before. *)
Theorem prepend_keeps_kind self a (n : option Z) (new : list (assmp R Cond)) :
  (forall s, add_assumption_front self a = Ok s ->
     kind s = kind self /\ assmps s = (fun _ => a :: _assmps self) <$> assmps self)
  /\ (forall s, add_assumptions_front self new = Ok s -> kind s = kind self)
  /\ (let s := add_assumptions_with_iter self n new in
      kind s = kind self /\ is_top s = is_top self /\ is_bottom s = is_bottom self
      /\ header s = header self
      /\ (is_bottom self || is_top self = true -> assmps s = None /\ repr s = repr self)).
Proof.
  unfold add_assumption_front, add_assumptions_front, add_assumptions_with_iter.
  split; [|split].
  - intros s. destruct a; [|done]. intros [= <-].
    unfold assmps, is_bottom, is_top. simpl. by destruct (_ || _).
  - intros s. destruct (assmps self); [|done]. by intros [= <-].
  - simpl. do 4 (split; [reflexivity|]).
    unfold assmps, repr, repr_with, is_bottom, is_top. simpl.
    intros Hk. rewrite Hk. split; [reflexivity|].
    repeat case_bool_decide; try done.
Qed.

End laws.

Section range_laws.

Context {R : Type} `{!Lattice.Ops R} {Cond : Type}.
Implicit Types self other : t R Cond.
Implicit Types rec : t R Cond -> t R Cond -> outcome (t R Cond).

(** The join of the range lattice stays within its budget. *)
Hypothesis range_join_total : forall x y : R, Lattice._join x y <> OutOfFuel.

Lemma height_pos self : (1 <= height self)%nat.
Proof. unfold height. simpl. lia. Qed.

Lemma child_height self a m :
  a ∈ _assmps self -> (height self <= S m)%nat -> (assmp_height a <= m)%nat.
Proof.
  intros Hin Hh. destruct a as [x|i].
  - simpl. lia.
  - pose proof (InputAssumptionLatticeFacts.height_child self i Hin) as Hlt.
    unfold height in *. lia.
Qed.

Lemma type_join_idempotent (ty : TypeLattice.t) : Lattice.join ty ty = Ok ty.
Proof. by destruct ty as [[] []]. Qed.

Lemma type_less_equal_reflexive (ty : TypeLattice.t) : Lattice.less_equal ty ty = Ok true.
Proof. by destruct ty as [[] []]. Qed.

Lemma set_assmps_same self : set_assmps (_assmps self) self = self.
Proof. by destruct self. Qed.

Section idempotent.

Hypothesis range_join_idempotent : forall x : R, Lattice.join x x = Ok x.

Lemma leaf_join_idempotent (x : AssumptionLattice.t R) : Lattice.join x x = Ok x.
Proof.
  unfold Lattice.join, Lattice.join_via. simpl.
  destruct (_ || _); [done|].
  unfold AssumptionLattice._join.
  rewrite type_join_idempotent. simpl.
  rewrite range_join_idempotent. simpl. by destruct x.
Qed.

Lemma join_position_idempotent rec (a : assmp R Cond) :
  (forall i, a = Nested i -> rec i i = Ok i) ->
  join_position rec a a = Ok (Some a).
Proof.
  intros Hrec. unfold join_position.
  destruct (is_placeholder a); [by destruct a|].
  destruct a as [x|i].
  - by rewrite leaf_join_idempotent.
  - by rewrite (Hrec i eq_refl).
Qed.

Lemma join_positions_idempotent rec (l : list (assmp R Cond)) :
  (forall a, a ∈ l -> join_position rec a a = Ok (Some a)) ->
  join_positions rec l l = Ok (l, true).
Proof.
  induction l as [|a l IH]; intros Hall; [done|].
  simpl. rewrite (Hall a) by left. simpl.
  rewrite IH; [done|]. intros b Hb. apply Hall. by right.
Qed.

Lemma join_idempotent_height m : forall self,
  (height self <= m)%nat -> join self (deepcopy self) = Ok self.
Proof.
  induction m as [|m IH]; intros self Hh.
  { pose proof (height_pos self). lia. }
  unfold deepcopy.
  rewrite (InputAssumptionLatticeFacts.join_unfold range_join_total).
  unfold Lattice.join_via, Lattice.replace.
  destruct (is_bottom self || is_top self) eqn:Ek; [done|].
  unfold _join, _join_with.
  destruct (iterations self) as [n|]; [|done].
  rewrite bool_decide_eq_false_2 by (intros Hn; by apply Hn).
  unfold assmps, deepcopy. rewrite Ek.
  rewrite bool_decide_eq_true_2 by done.
  rewrite join_positions_idempotent; [simpl; by rewrite set_assmps_same|].
  intros a Ha. apply join_position_idempotent. intros i ->.
  apply IH. pose proof (child_height self (Nested i) m Ha Hh) as Hc.
  exact Hc.
Qed.

(** X14: [join] is idempotent: joining an element with a duplicate of
    itself returns the element as it is, whenever the join of the range
    lattice is idempotent. *)
Theorem join_idempotent self : join self (deepcopy self) = Ok self.
Proof. by apply (join_idempotent_height (height self)). Qed.

End idempotent.

Section reflexive.

Hypothesis range_less_equal_reflexive : forall x : R, Lattice.less_equal x x = Ok true.

Lemma leaf_less_equal_reflexive (x : AssumptionLattice.t R) :
  AssumptionLattice._less_equal x x = Ok true.
Proof.
  unfold AssumptionLattice._less_equal.
  rewrite type_less_equal_reflexive. simpl. apply range_less_equal_reflexive.
Qed.

Lemma less_equal_positions_reflexive (l : list (assmp R Cond)) :
  (forall a, a ∈ l -> assmp_less_equal a a = Ok true) ->
  less_equal_positions assmp_less_equal l l = Ok true.
Proof.
  induction l as [|a l IH]; intros Hall; [done|].
  simpl. rewrite (Hall a) by left. simpl.
  apply IH. intros b Hb. apply Hall. by right.
Qed.

Lemma assmp_less_equal_unfold (a1 a2 : assmp R Cond) :
  assmp_less_equal a1 a2 =
  if assmp_is_bottom a1 || assmp_is_top a2 then Ok true
  else if assmp_is_bottom a2 || assmp_is_top a1 then Ok false
  else match a1, a2 with
       | Leaf x, Leaf y => AssumptionLattice._less_equal x y
       | Nested i, Nested j => _less_equal_with assmp_less_equal i j
       | _, _ => Raise AttributeError
       end.
Proof. by destruct a1. Qed.

Lemma assmp_less_equal_reflexive m : forall a : assmp R Cond,
  (assmp_height a <= m)%nat -> assmp_less_equal a a = Ok true.
Proof.
  induction m as [|m IH]; intros a Hh; rewrite assmp_less_equal_unfold;
    destruct (assmp_is_bottom a) eqn:Eb, (assmp_is_top a) eqn:Et; try done;
    simpl; destruct a as [x|i]; simpl in Hh; try lia;
    try apply leaf_less_equal_reflexive.
  unfold _less_equal_with, assmps. simpl in Eb, Et. rewrite Eb, Et. simpl.
  rewrite bool_decide_eq_false_2 by (intros Hn; by apply Hn).
  apply less_equal_positions_reflexive. intros a Ha. apply IH.
  apply (child_height i a m Ha). unfold height. simpl. lia.
Qed.

(** X15: [less_equal] is reflexive: every element is below a duplicate of
    itself, whenever the order of the range lattice is reflexive. *)
Theorem less_equal_reflexive self : less_equal self (deepcopy self) = Ok true.
Proof.
  pose proof (assmp_less_equal_reflexive (height self) (Nested self)) as Hrefl.
  rewrite assmp_less_equal_unfold in Hrefl. simpl in Hrefl.
  unfold less_equal, Lattice.less_equal_via, deepcopy, _less_equal.
  destruct (is_bottom self || is_top self); [done|].
  by apply Hrefl.
Qed.

End reflexive.

Section raises.

Hypothesis range_join_returns : forall x y : R, returns (Lattice.join x y).

(** [rec] raises nothing but an [AssertionError]. *)
#[local] Abbreviation asserts_only rec :=
  (forall x y e, rec x y = Raise e -> e = AssertionError).

Lemma type_join_returns (x y : TypeLattice.t) : returns (Lattice.join x y).
Proof. destruct x as [[] []], y as [[] []]; by eexists. Qed.

Lemma leaf_join_returns (x y : AssumptionLattice.t R) : returns (Lattice.join x y).
Proof.
  unfold Lattice.join, Lattice.join_via. simpl.
  destruct (_ || _); [by eexists|]. destruct (_ || _); [by eexists|].
  unfold AssumptionLattice._join.
  destruct (type_join_returns (AssumptionLattice.type_assumption x)
              (AssumptionLattice.type_assumption y)) as [ty ->].
  destruct (range_join_returns (AssumptionLattice.range_assumption x)
              (AssumptionLattice.range_assumption y)) as [rg ->].
  by eexists.
Qed.

Lemma join_position_raises rec (a1 a2 : assmp R Cond) :
  asserts_only rec -> forall e, join_position rec a1 a2 = Raise e -> e = AssertionError.
Proof.
  intros Hrec e. unfold join_position.
  destruct (is_placeholder a1); [done|]. destruct (is_placeholder a2); [done|].
  destruct a1 as [x|i], a2 as [y|j]; try done.
  - by destruct (leaf_join_returns x y) as [z ->].
  - destruct (rec i j) as [z| |] eqn:E; simpl; try done.
    intros [= <-]. by apply (Hrec i j).
Qed.

Lemma join_positions_raises rec (l1 l2 : list (assmp R Cond)) :
  asserts_only rec -> forall e, join_positions rec l1 l2 = Raise e -> e = AssertionError.
Proof.
  intros Hrec. revert l2.
  induction l1 as [|a1 l1 IH]; intros [|a2 l2] e; try done.
  simpl. destruct (join_position rec a1 a2) as [[a'|]| |] eqn:E; simpl; try done.
  - destruct (join_positions rec l1 l2) as [r| |] eqn:E'; simpl; try done.
    intros [= <-]. by apply (IH l2).
  - intros [= <-]. by apply (join_position_raises rec a1 a2).
Qed.

Lemma fold_first_two_raises rec longer (shorter : list (assmp R Cond)) step :
  asserts_only rec ->
  fold_first_two rec longer shorter = Some step ->
  forall e, step = Raise e -> e = AssertionError.
Proof.
  intros Hrec. unfold fold_first_two.
  repeat case_match; try done. intros [= <-] e.
  destruct (rec _ _) as [z| |] eqn:E; simpl; try done.
  - destruct (bool_decide (_ = length shorter)); [done|congruence].
  - intros [= <-]. by eapply Hrec.
Qed.

Lemma _join_with_raises rec self other :
  asserts_only rec ->
  is_bottom self || is_top self = false ->
  is_bottom other || is_top other = false ->
  forall e, _join_with rec self other = Raise e -> e = AssertionError.
Proof.
  intros Hrec Hs Ho e. unfold _join_with, assmps. rewrite Hs, Ho.
  destruct (iterations other); [|done]. destruct (iterations self); [|done].
  case_bool_decide; [done|]. case_bool_decide.
  { destruct (join_positions rec _ _) as [[l' []]| |] eqn:E; simpl; try done.
    intros [= <-]. by apply (join_positions_raises rec _ _ Hrec _ E). }
  destruct (_ && _).
  { destruct (fold_first_two rec self _) as [step|] eqn:Ef; [|done].
    destruct step as [folded| |] eqn:Es; simpl; try done.
    - apply Hrec.
    - intros [= <-]. by apply (fold_first_two_raises _ _ _ _ Hrec Ef). }
  destruct (_ && _); [|done].
  destruct (fold_first_two rec _ _) as [step|] eqn:Ef; [|done].
  destruct step as [folded| |] eqn:Es; simpl; try done.
  - apply Hrec.
  - intros [= <-]. by apply (fold_first_two_raises _ _ _ _ Hrec Ef).
Qed.

Lemma join_fuel_raises fuel : asserts_only (join_fuel (R:=R) (Cond:=Cond) fuel).
Proof.
  induction fuel as [|fuel IH]; [done|].
  intros self other e. simpl. unfold Lattice.join_via.
  destruct (is_bottom self) eqn:Ebs; [done|].
  destruct (is_top other) eqn:Eto; [done|].
  destruct (is_bottom other) eqn:Ebo; [done|].
  destruct (is_top self) eqn:Ets; [done|].
  simpl. apply _join_with_raises; [done|by rewrite Ebs, Ets|by rewrite Ebo, Eto].
Qed.

(** X16: [join] fails in one way only: when the join of the range lattice
    always returns, [join] returns an element or raises the
    [AssertionError] of the length-reconciliation step; it raises no other
    exception. *)
Theorem join_raises_assertion_only self other :
  returns (join self other) \/ join self other = Raise AssertionError.
Proof.
  pose proof (InputAssumptionLatticeFacts.join_total range_join_total self other) as Htotal.
  destruct (join self other) as [r|e|] eqn:E.
  - left. by exists r.
  - right. f_equal. exact (join_fuel_raises (enough_fuel self other) self other e E).
  - done.
Qed.

End raises.

End range_laws.

End InputAssumptionLatticeLaws.

(** The laws at the interval lattice. *)

Module InputAssumptionLatticeLawsExamples.
Import InputAssumptionLattice InputAssumptionLatticeExamples InputAssumptionLatticeLaws.

Lemma interval_hook_total (x y : IntervalLattice.t) : Lattice._join x y <> OutOfFuel.
Proof. done. Qed.

Lemma interval_join_idempotent (x : IntervalLattice.t) : Lattice.join x x = Ok x.
Proof.
  unfold Lattice.join, Lattice.join_via. simpl.
  destruct (_ || _) eqn:E; [done|].
  apply orb_false_elim in E as [Eb _].
  unfold IntervalLattice._join. destruct x as [b lo hi]. simpl in *. subst b.
  by repeat case_match.
Qed.

Lemma interval_less_equal_reflexive (x : IntervalLattice.t) :
  Lattice.less_equal x x = Ok true.
Proof.
  unfold Lattice.less_equal, Lattice.less_equal_via. simpl.
  destruct (_ || _); [done|].
  unfold IntervalLattice._less_equal. f_equal.
  destruct x as [b [lo|] [hi|]]; simpl; rewrite ?Z.leb_refl; reflexivity.
Qed.

Lemma interval_join_returns (x y : IntervalLattice.t) : returns (Lattice.join x y).
Proof.
  unfold Lattice.join, Lattice.join_via. simpl.
  repeat case_match; by eexists.
Qed.

(** A loop of two iterations followed by a single read. *)
Lemma join_keeps_header_witness :
  header (init (Some 1) (Some [Nested (twice [Leaf float_0_20])]))
  = header (init (Some 1)
              (Some [Nested (twice seq); Nested (twice [Leaf float_5_20])]))
  \/ header (init (Some 1) (Some [Nested (twice [Leaf float_0_20])]))
     = header (init (Some 1) (Some [Nested unresolved])).
Proof.
  apply (join_keeps_header
           (init (Some 1) (Some [Nested (twice seq); Nested (twice [Leaf float_5_20])]))
           (init (Some 1) (Some [Nested unresolved]))).
  reflexivity.
Defined.

Example join_unresolved :
  join (twice seq) unresolved = Ok (twice seq)
  /\ join unresolved (twice seq) = Ok (twice seq).
Proof. split; reflexivity. Qed.

Lemma join_idempotent_witness :
  join (init (Some 1) (Some [Nested (twice seq); Leaf float_5_20; Nested unresolved]))
       (deepcopy (init (Some 1)
                    (Some [Nested (twice seq); Leaf float_5_20; Nested unresolved])))
  = Ok (init (Some 1) (Some [Nested (twice seq); Leaf float_5_20; Nested unresolved])).
Proof.
  apply (join_idempotent interval_hook_total interval_join_idempotent).
Defined.

Lemma less_equal_reflexive_witness :
  less_equal (init (Some 1) (Some [Nested (twice seq); Leaf float_5_20]))
             (deepcopy (init (Some 1) (Some [Nested (twice seq); Leaf float_5_20])))
  = Ok true.
Proof.
  apply (less_equal_reflexive interval_less_equal_reflexive).
Defined.

Lemma join_raises_assertion_only_witness :
  (returns (join (init (Some 1) (Some [Nested (twice seq); Nested (twice seq);
                                        Nested (twice seq)]))
                 (init (Some 1) (Some [Nested unresolved])))
   \/ join (init (Some 1) (Some [Nested (twice seq); Nested (twice seq);
                                  Nested (twice seq)]))
           (init (Some 1) (Some [Nested unresolved]))
      = Raise AssertionError).
Proof.
  apply (join_raises_assertion_only interval_hook_total interval_join_returns).
Defined.

End InputAssumptionLatticeLawsExamples.

(** ** Store: the lattice operations and the variable set *)

Module StoreLatticeFacts.
Section operations.

Context {VariableIdentifier LyraType : Type}.
Context `{Countable VariableIdentifier} `{Countable LyraType}.
Variable repr_var : VariableIdentifier -> string.
Context {L LatticeClass Kwargs : Type} `{!Lattice.Ops L}.

#[local] Abbreviation store_t :=
  (Store.t (VariableIdentifier:=VariableIdentifier) (LyraType:=LyraType) (L:=L)
     (LatticeClass:=LatticeClass) (Kwargs:=Kwargs)).
Implicit Types self other : store_t.
Implicit Types order variables : list VariableIdentifier.
Implicit Types op : L -> L -> outcome L.

(** *** The pointwise operations *)

Lemma pointwise_returns op order other : forall self,
  NoDup order ->
  (forall v, v ∈ order ->
     exists x y z, Store.store self !! v = Some x /\ Store.store other !! v = Some y
                   /\ op x y = Ok z) ->
  exists r,
    Store.pointwise repr_var op order self other = Ok r
    /\ Store._lattices r = Store._lattices self
    /\ Store._arguments r = Store._arguments self
    /\ (forall v, v ∉ order -> Store.store r !! v = Store.store self !! v)
    /\ (forall v x y, v ∈ order ->
          Store.store self !! v = Some x -> Store.store other !! v = Some y ->
          exists z, op x y = Ok z /\ Store.store r !! v = Some z).
Proof.
  induction order as [|var rest IH]; intros self Hnd Hall.
  { exists self. split_and!; try done. intros v x y Hv. by apply elem_of_nil in Hv. }
  apply NoDup_cons in Hnd as [Hvar Hnd].
  destruct (Hall var) as (x & y & z & Hx & Hy & Hz); [by left|].
  simpl. rewrite Hx, Hy, Hz. simpl.
  set (self' := Store.mk (Store._lattices self) (Store._arguments self)
                  (<[var:=z]> (Store.store self))).
  destruct (IH self' Hnd) as (r & Hr & Hl & Ha & Hout & Hin).
  { intros v Hv. destruct (Hall v) as (x' & y' & z' & Hx' & Hy' & Hz'); [by right|].
    exists x', y', z'. split_and!; try done.
    simpl. rewrite lookup_insert_ne; [done|]. intros ->. done. }
  exists r. split_and!; try done.
  - intros v Hv. apply not_elem_of_cons in Hv as [Hne Hv].
    rewrite (Hout v Hv). simpl. by rewrite lookup_insert_ne.
  - intros v x' y' Hv Hx' Hy'. apply elem_of_cons in Hv as [->|Hv].
    + exists z. split; [congruence|].
      rewrite (Hout var Hvar). simpl. by rewrite lookup_insert_eq.
    + apply (Hin v x' y' Hv); [|done].
      simpl. rewrite lookup_insert_ne; [done|]. intros ->. done.
Qed.

Lemma pointwise_missing op order other v : forall self,
  v ∈ order -> Store.store other !! v = None ->
  ~ returns (Store.pointwise repr_var op order self other).
Proof.
  induction order as [|var rest IH]; intros self Hv Hnone [r Hr].
  { by apply elem_of_nil in Hv. }
  simpl in Hr.
  destruct (Store.store self !! var) as [x|]; [|done].
  destruct (Store.store other !! var) as [y|] eqn:Hy; [|done].
  destruct (op x y) as [z| |]; simpl in Hr; try done.
  apply elem_of_cons in Hv as [->|Hv]; [congruence|].
  eapply IH; [done..|]. by exists r.
Qed.

(** X17: [_join], [_meet] and [_widening] of a store work variable by
    variable over the variables of the receiver.  When the argument tracks
    every variable of the receiver and the element operation returns on
    every pair, the store that comes back has the same variables, each one
    mapped to the outcome of the operation on the two elements; variables
    that only the argument tracks are ignored.  When the argument lacks a
    variable of the receiver, the operation fails. *)
Theorem pointwise_operations op order self other :
  NoDup order ->
  (forall v, v ∈ order <-> v ∈ dom (Store.store self)) ->
  ((forall v x, Store.store self !! v = Some x ->
      exists y z, Store.store other !! v = Some y /\ op x y = Ok z) ->
   exists r,
     Store.pointwise repr_var op order self other = Ok r
     /\ Store._lattices r = Store._lattices self
     /\ Store._arguments r = Store._arguments self
     /\ dom (Store.store r) = dom (Store.store self)
     /\ forall v x y, Store.store self !! v = Some x -> Store.store other !! v = Some y ->
          exists z, op x y = Ok z /\ Store.store r !! v = Some z)
  /\ (forall v, v ∈ dom (Store.store self) -> v ∉ dom (Store.store other) ->
      ~ returns (Store.pointwise repr_var op order self other)).
Proof.
  intros Hnd Hkeys. split.
  - intros Hall.
    destruct (pointwise_returns op order other self Hnd) as (r & Hr & Hl & Ha & Hout & Hin).
    { intros v Hv. apply Hkeys, elem_of_dom in Hv as [x Hx].
      destruct (Hall v x Hx) as (y & z & Hy & Hz). by exists x, y, z. }
    exists r. split_and!; try done.
    + apply set_eq. intros v. rewrite !elem_of_dom. split.
      * intros [z Hz]. destruct (decide (v ∈ order)) as [Hv|Hv].
        { by apply elem_of_dom, Hkeys. }
        rewrite (Hout v Hv) in Hz. by exists z.
      * intros [x Hx]. destruct (Hall v x Hx) as (y & z & Hy & Hz).
        assert (v ∈ order) as Hv by (apply Hkeys, elem_of_dom; by exists x).
        destruct (Hin v x y Hv Hx Hy) as (z' & _ & Hz'). by exists z'.
    + intros v x y Hx Hy.
      assert (v ∈ order) as Hv by (apply Hkeys, elem_of_dom; by exists x).
      exact (Hin v x y Hv Hx Hy).
  - intros v Hv Hnot. apply (pointwise_missing op order other v).
    + by apply Hkeys.
    + by apply not_elem_of_dom.
Qed.

(** X18: [_less_equal] of a store answers true exactly when the argument
    tracks every variable of the loop and each element of the receiver is
    below its counterpart, so a store without variables is below every
    store; the first element that is not below its counterpart ends the
    loop with false, and the variables after it are not looked up. *)
Theorem less_equal_pointwise order self other :
  (Store._less_equal repr_var order self other = Ok true <->
   forall v, v ∈ order ->
     exists x y, Store.store self !! v = Some x /\ Store.store other !! v = Some y
                 /\ Lattice.less_equal x y = Ok true)
  /\ (forall before v after x y,
        order = before ++ v :: after ->
        Store._less_equal repr_var before self other = Ok true ->
        Store.store self !! v = Some x -> Store.store other !! v = Some y ->
        Lattice.less_equal x y = Ok false ->
        Store._less_equal repr_var order self other = Ok false).
Proof.
  split.
  - induction order as [|var rest IH]; simpl.
    { split; [|done]. intros _ v Hv. by apply elem_of_nil in Hv. }
    split.
    + destruct (Store.store self !! var) as [x|] eqn:Hx; [|done].
      destruct (Store.store other !! var) as [y|] eqn:Hy; [|done].
      destruct (Lattice.less_equal x y) as [[]| |] eqn:Hle; simpl; try done.
      intros Hrest v Hv. apply elem_of_cons in Hv as [->|Hv].
      * by exists x, y.
      * by apply IH.
    + intros Hall. destruct (Hall var) as (x & y & -> & -> & ->); [by left|].
      simpl. apply IH. intros v Hv. apply Hall. by right.
  - intros before v after x y -> Hbefore Hx Hy Hle.
    induction before as [|var before IH]; simpl in *.
    { by rewrite Hx, Hy, Hle. }
    destruct (Store.store self !! var) as [x'|]; [|done].
    destruct (Store.store other !! var) as [y'|]; [|done].
    destruct (Lattice.less_equal x' y') as [[]| |]; simpl in *; try done.
    by apply IH.
Qed.

(** *** Forcing a store to top or to bottom *)

Lemma elem_of_values self x :
  x ∈ Store.values self <-> exists v, Store.store self !! v = Some x.
Proof.
  unfold Store.values. rewrite list_elem_of_fmap. split.
  - intros ([v y] & -> & Hin). exists v. by apply elem_of_map_to_list in Hin.
  - intros [v Hv]. exists (v, x). split; [done|]. by apply elem_of_map_to_list.
Qed.

(** X19: [top] makes every store top, and [bottom] makes a store bottom
    exactly when it tracks a variable: a store without variables is top and
    is not bottom, whatever is done to it.  (The elements are taken to
    answer [is_top] after [top] and [is_bottom] after [bottom].) *)
Theorem top_bottom_forced self :
  (forall x : L, Lattice.is_top (Lattice.top x) = true) ->
  (forall x : L, Lattice.is_bottom (Lattice.bottom x) = true) ->
  Store.is_top (Store.top self) = true
  /\ (Store.is_bottom (Store.bottom self) = true <-> Store.store self <> ∅)
  /\ dom (Store.store (Store.top self)) = dom (Store.store self)
  /\ dom (Store.store (Store.bottom self)) = dom (Store.store self).
Proof.
  intros Htop Hbottom. split_and!.
  - unfold Store.is_top. apply forallb_forall. intros x Hx.
    apply list_elem_of_In, elem_of_values in Hx as [v Hv].
    unfold Store.top, Store.store in Hv. simpl in Hv.
    apply lookup_fmap_Some in Hv as (y & <- & _). apply Htop.
  - unfold Store.is_bottom. rewrite existsb_exists. split.
    + intros (x & Hx & _) Hempty.
      apply list_elem_of_In, elem_of_values in Hx as [v Hv].
      unfold Store.bottom, Store.store in Hv. simpl in Hv.
      apply lookup_fmap_Some in Hv as (y & _ & Hy).
      unfold Store.store in Hempty. rewrite Hempty in Hy. by rewrite lookup_empty in Hy.
    + intros Hne. apply map_choose in Hne as (v & x & Hx).
      exists (Lattice.bottom x). split; [|apply Hbottom].
      apply list_elem_of_In, elem_of_values. exists v.
      unfold Store.bottom, Store.store. simpl.
      apply lookup_fmap_Some. by exists x.
  - unfold Store.top, Store.store. simpl. apply dom_fmap_L.
  - unfold Store.bottom, Store.store. simpl. apply dom_fmap_L.
Qed.

(** X20: forcing a store to top is invalidating each of its variables:
    [invalidate_var], run once over the variables of the store in any
    order, returns the store that [top] returns. *)
Theorem top_invalidates_all order self :
  NoDup order ->
  (forall v, v ∈ order <-> v ∈ dom (Store.store self)) ->
  Store.invalidate_vars repr_var self order = Ok (Store.top self).
Proof.
  intros Hnd Hkeys.
  assert (Hstep : forall order self,
             NoDup order -> (forall v, v ∈ order -> v ∈ dom (Store.store self)) ->
             exists r, Store.invalidate_vars repr_var self order = Ok r
               /\ Store._lattices r = Store._lattices self
               /\ Store._arguments r = Store._arguments self
               /\ (forall v, v ∈ order ->
                     Store.store r !! v = Lattice.top <$> Store.store self !! v)
               /\ (forall v, v ∉ order -> Store.store r !! v = Store.store self !! v)).
  { clear. induction order as [|var rest IH]; intros self Hnd Hall.
    { exists self. split_and!; try done. intros v Hv. by apply elem_of_nil in Hv. }
    apply NoDup_cons in Hnd as [Hvar Hnd].
    assert (var ∈ dom (Store.store self)) as [x Hx]%elem_of_dom
      by (apply Hall; by left).
    simpl. unfold Store.invalidate_var at 1. rewrite Hx. simpl.
    set (self' := Store.mk (Store._lattices self) (Store._arguments self)
                    (<[var:=Lattice.top x]> (Store.store self))).
    destruct (IH self' Hnd) as (r & Hr & Hl & Ha & Hin & Hout).
    { intros v Hv. unfold self', Store.store. simpl. apply dom_insert, elem_of_union.
      right. apply Hall. by right. }
    exists r. split_and!; try done.
    - intros v Hv. apply elem_of_cons in Hv as [->|Hv].
      + rewrite (Hout var Hvar). unfold self', Store.store. simpl.
        rewrite lookup_insert_eq. unfold Store.store in Hx. by rewrite Hx.
      + rewrite (Hin v Hv). unfold self', Store.store. simpl.
        rewrite lookup_insert_ne; [done|]. by intros ->.
    - intros v Hv. apply not_elem_of_cons in Hv as [Hne Hv].
      rewrite (Hout v Hv). unfold self', Store.store. simpl.
      by rewrite lookup_insert_ne. }
  destruct (Hstep order self Hnd) as (r & Hr & Hl & Ha & Hin & Hout).
  { intros v Hv. by apply Hkeys. }
  rewrite Hr. f_equal. destruct r as [rl ra rs]. unfold Store.top.
  simpl in *. subst rl ra. f_equal.
  apply map_eq. intros v. rewrite lookup_fmap.
  destruct (decide (v ∈ order)) as [Hv|Hv]; [by apply Hin|].
  rewrite (Hout v Hv).
  assert (Store.store self !! v = None) as ->; [|done].
  apply not_elem_of_dom. by rewrite <- Hkeys.
Qed.

End operations.

(** *** The variable set *)

Section variable_set.

Context {VariableIdentifier LyraType : Type}.
Context `{Countable VariableIdentifier} `{Countable LyraType}.
Variable typ : VariableIdentifier -> LyraType.
Variable repr_typ : LyraType -> string.
Context {L LatticeClass Kwargs : Type} `{!Lattice.Ops L}.
Variable construct : LatticeClass -> Kwargs -> L.

Implicit Types self : Store.t (VariableIdentifier:=VariableIdentifier)
                        (LyraType:=LyraType) (L:=L) (LatticeClass:=LatticeClass)
                        (Kwargs:=Kwargs).
Implicit Types variables : list VariableIdentifier.
Implicit Types lattices : pydict LyraType LatticeClass.
Implicit Types arguments : pydict LyraType Kwargs.
Implicit Types acc : gmap VariableIdentifier L.

(** X21: [remove_var] undoes [add_var]: removing the variable that
    [add_var] has just added gives back the store as it was, adding it a
    second time fails, and after the removal it can be added again, with
    the same outcome as the first time. *)
Theorem add_var_remove_var_round_trip self var s :
  Store.add_var typ repr_typ construct self var = Ok s ->
  Store.remove_var s var = self
  /\ Store.add_var typ repr_typ construct s var = Raise (ValueError Store.already_present)
  /\ Store.add_var typ repr_typ construct (Store.remove_var s var) var = Ok s.
Proof.
  unfold Store.add_var at 1.
  case_bool_decide as Hvar; [|done].
  destruct (Store.fresh_element _ _ _ _ _) as [key|x] eqn:Hfresh; [done|].
  intros [= <-].
  assert (Hback : Store.remove_var
             (Store.mk (Store._lattices self) (Store._arguments self)
                (<[var:=x]> (Store.store self))) var = self).
  { unfold Store.remove_var, Store.store. simpl.
    rewrite bool_decide_eq_true_2 by set_solver.
    destruct self as [l a st]. simpl in *. f_equal.
    apply delete_insert_id. by apply not_elem_of_dom. }
  split_and!.
  - exact Hback.
  - unfold Store.add_var, Store.store. simpl.
    by rewrite bool_decide_eq_false_2 by set_solver.
  - rewrite Hback. unfold Store.add_var.
    rewrite bool_decide_eq_true_2 by done. by rewrite Hfresh.
Qed.

Lemma add_vars_fresh lattices arguments variables : forall acc st,
  NoDup variables ->
  (forall v, v ∈ variables -> v ∉ dom acc) ->
  Store.comprehension typ construct lattices arguments variables acc = inr st ->
  Store.add_vars typ repr_typ construct (Store.mk lattices arguments acc) variables
  = Ok (Store.mk lattices arguments st).
Proof.
  induction variables as [|v rest IH]; intros acc st Hnd Hfresh; simpl.
  { by intros [= <-]. }
  apply NoDup_cons in Hnd as [Hv Hnd].
  unfold Store.add_var, Store.store. simpl.
  rewrite bool_decide_eq_true_2 by (apply Hfresh; by left).
  destruct (Store.fresh_element _ _ _ _ _) as [key|x]; [done|]. simpl.
  apply IH; [done|]. intros w Hw. rewrite dom_insert, not_elem_of_union.
  split; [|apply Hfresh; by right]. rewrite not_elem_of_singleton. by intros ->.
Qed.

Lemma add_vars_duplicate lattices arguments variables : forall acc st,
  ~ (NoDup variables /\ forall v, v ∈ variables -> v ∉ dom acc) ->
  Store.comprehension typ construct lattices arguments variables acc = inr st ->
  Store.add_vars typ repr_typ construct (Store.mk lattices arguments acc) variables
  = Raise (ValueError Store.already_present).
Proof.
  induction variables as [|v rest IH]; intros acc st Hdup; simpl.
  { exfalso. apply Hdup. split; [constructor|]. intros v Hv. by apply elem_of_nil in Hv. }
  unfold Store.add_var, Store.store. simpl.
  case_bool_decide as Hv; [|done].
  destruct (Store.fresh_element _ _ _ _ _) as [key|x]; [done|]. simpl.
  apply IH. intros [Hnd Hfresh]. apply Hdup. split.
  - apply NoDup_cons. split; [|done]. intros Hin.
    apply (Hfresh v Hin). rewrite dom_insert. set_solver.
  - intros w [->|Hw]%elem_of_cons; [done|].
    specialize (Hfresh w Hw). rewrite dom_insert in Hfresh. set_solver.
Qed.

(** X22: building a store from a list of variables without repetition is
    adding the variables one by one to a store without variables; a list
    with a repetition builds a store all the same (the variable is mapped
    once), while adding its variables one by one fails at the repetition. *)
Theorem init_as_add_vars variables lattices arguments st :
  Store.init typ repr_typ construct variables lattices arguments = Ok st ->
  (NoDup variables ->
   Store.add_vars typ repr_typ construct (Store.mk lattices arguments ∅) variables = Ok st)
  /\ (~ NoDup variables ->
      Store.add_vars typ repr_typ construct (Store.mk lattices arguments ∅) variables
      = Raise (ValueError Store.already_present)).
Proof.
  unfold Store.init.
  destruct (Store.comprehension _ _ _ _ _ _) as [key|m] eqn:Hc; [done|].
  intros [= <-]. split.
  - intros Hnd. apply add_vars_fresh; [done| |done].
    intros v _. rewrite dom_empty_L. apply not_elem_of_empty.
  - intros Hdup. apply (add_vars_duplicate _ _ _ _ m); [|done].
    intros [Hnd _]. by apply Hdup.
Qed.

End variable_set.
End StoreLatticeFacts.

Module StoreLatticeExampleFacts.
Import StoreExamples StoreLatticeExamples.

Lemma keys_narrow (v : Var) : v ∈ [x] <-> v ∈ dom (Store.store narrow).
Proof.
  unfold narrow, Store.store. simpl. rewrite dom_singleton_L.
  by rewrite list_elem_of_singleton, elem_of_singleton.
Qed.

Lemma keys_store_x (v : Var) : v ∈ [x] <-> v ∈ dom (Store.store store_x).
Proof.
  unfold store_x, Store.store. simpl. rewrite dom_singleton_L.
  by rewrite list_elem_of_singleton, elem_of_singleton.
Qed.

Lemma pointwise_operations_witness :
  (exists r, Store._join repr_var [x] narrow wide = Ok r
     /\ Store.store r !! x = Some (IntervalLattice.of_bounds 0 20)
     /\ Store.store r !! z = None)
  /\ ~ returns (Store._join repr_var [x] narrow store_empty).
Proof.
  split.
  - destruct (proj1 (StoreLatticeFacts.pointwise_operations repr_var Lattice.join
                       [x] narrow wide (NoDup_singleton x) keys_narrow))
      as (r & Hr & _ & _ & Hdom & Hjoin).
    { intros v e Hv. unfold narrow, Store.store in Hv. simpl in Hv.
      apply lookup_singleton_Some in Hv as [<- <-]. by eexists _, _. }
    exists r. split; [exact Hr|]. split.
    + destruct (Hjoin x (IntervalLattice.of_bounds 0 10) (IntervalLattice.of_bounds 5 20)
                  eq_refl eq_refl) as (j & Hj & Hx).
      vm_compute in Hj. by injection Hj as <-.
    + apply not_elem_of_dom. rewrite Hdom. vm_compute. by intros ?.
  - apply (proj2 (StoreLatticeFacts.pointwise_operations repr_var Lattice.join
                    [x] narrow store_empty (NoDup_singleton x) keys_narrow) x).
    + vm_compute. reflexivity.
    + vm_compute. by intros ?.
Defined.

Example less_equal_stores :
  Store._less_equal repr_var [] store_empty narrow = Ok true
  /\ Store._less_equal repr_var [x] narrow wide = Ok false
  /\ Store._less_equal repr_var [x] narrow narrow = Ok true
  /\ Store._less_equal repr_var [x] narrow store_empty = Raise (KeyError "x").
Proof. repeat split. Qed.

Lemma interval_top_is_top (r : IntervalLattice.t) : Lattice.is_top (Lattice.top r) = true.
Proof. reflexivity. Qed.

Lemma interval_bottom_is_bottom (r : IntervalLattice.t) :
  Lattice.is_bottom (Lattice.bottom r) = true.
Proof. reflexivity. Qed.

Lemma top_bottom_forced_witness :
  Store.is_top (Store.top narrow) = true
  /\ (Store.is_bottom (Store.bottom narrow) = true <-> Store.store narrow <> ∅)
  /\ Store.is_bottom (Store.bottom store_empty) = false.
Proof.
  destruct (StoreLatticeFacts.top_bottom_forced narrow
              interval_top_is_top interval_bottom_is_bottom) as (Htop & Hbottom & _).
  split; [exact Htop|]. split; [exact Hbottom|]. reflexivity.
Defined.

Lemma top_invalidates_all_witness :
  Store.invalidate_vars repr_var store_x [x] = Ok (Store.top store_x).
Proof.
  apply (StoreLatticeFacts.top_invalidates_all repr_var [x] store_x
           (NoDup_singleton x) keys_store_x).
Defined.

Lemma add_var_remove_var_round_trip_witness :
  Store.remove_var store_x x = store_empty
  /\ Store.add_var typ repr_typ construct store_x x
     = Raise (ValueError Store.already_present)
  /\ Store.add_var typ repr_typ construct (Store.remove_var store_x x) x = Ok store_x.
Proof.
  apply (StoreLatticeFacts.add_var_remove_var_round_trip typ repr_typ construct
           store_empty x store_x).
  reflexivity.
Defined.

Lemma init_as_add_vars_witness :
  Store.add_vars typ repr_typ construct (Store.mk lattices arguments ∅) [x] = Ok store_x
  /\ Store.init typ repr_typ construct [x; x] lattices arguments = Ok store_x
  /\ Store.add_vars typ repr_typ construct (Store.mk lattices arguments ∅) [x; x]
     = Raise (ValueError Store.already_present).
Proof.
  split; [|split].
  - apply (proj1 (StoreLatticeFacts.init_as_add_vars typ repr_typ construct
                    [x] lattices arguments store_x eq_refl)).
    apply NoDup_singleton.
  - reflexivity.
  - apply (proj2 (StoreLatticeFacts.init_as_add_vars typ repr_typ construct
                    [x; x] lattices arguments store_x eq_refl)).
    intros [Hx _]%NoDup_cons. apply Hx. by left.
Defined.

End StoreLatticeExampleFacts.

(** ** AssumptionLattice: the product order *)

Module AssumptionLatticeLaws.
Import AssumptionLattice.

Section laws.

Context {R : Type} `{!Lattice.Ops R}.
Implicit Types self other : AssumptionLattice.t R.

Lemma type_order (x y : TypeLattice.t) :
  Lattice.less_equal x y = Ok true <-> Lattice.join x y = Ok y.
Proof. destruct x as [[] []], y as [[] []]; vm_compute; split; congruence. Qed.

Lemma type_less_equal_returns (x y : TypeLattice.t) :
  exists b, Lattice.less_equal x y = Ok b.
Proof. destruct x as [[] []], y as [[] []]; by eexists. Qed.

(** X23: [bottom] makes every element bottom, whatever the range lattice
    does, since one bottom field is enough, and the element is then not
    top; [top] makes the element top, and not bottom, when the range
    lattice answers so after its own [top]. *)
Theorem bottom_top_forced self :
  is_bottom (bottom self) = true
  /\ is_top (bottom self) = false
  /\ ((forall r : R, Lattice.is_top (Lattice.top r) = true) ->
      is_top (top self) = true)
  /\ ((forall r : R, Lattice.is_bottom (Lattice.top r) = false) ->
      is_bottom (top self) = false).
Proof.
  unfold is_bottom, is_top, bottom, top. simpl. split_and!; try done.
  - intros Htop. by rewrite Htop.
  - intros Hnb. by rewrite Hnb.
Qed.

(** X24: the order of [AssumptionLattice] is the one its join induces,
    whenever this holds of the range lattice: [self] is below [other]
    exactly when joining [other] into [self] gives [other]. *)
Theorem less_equal_iff_join self other :
  (forall x y : R, Lattice.less_equal x y = Ok true <-> Lattice.join x y = Ok y) ->
  Lattice.less_equal self other = Ok true <-> Lattice.join self other = Ok other.
Proof.
  intros Hrange.
  unfold Lattice.less_equal, Lattice.join, Lattice.less_equal_via, Lattice.join_via,
    Lattice.replace.
  simpl.
  destruct (is_bottom self) eqn:Ebs; [done|].
  destruct (is_top other) eqn:Eto; [done|].
  destruct (is_bottom other) eqn:Ebo.
  { simpl. split; [done|]. intros [= ->]. congruence. }
  destruct (is_top self) eqn:Ets.
  { simpl. split; [done|]. intros [= ->]. congruence. }
  simpl. unfold _less_equal, _join.
  destruct self as [ty1 rg1], other as [ty2 rg2]. simpl.
  pose proof (type_order ty1 ty2) as Hty.
  destruct (type_less_equal_returns ty1 ty2) as [[] Hle]; rewrite Hle in *; simpl.
  - rewrite (proj1 Hty eq_refl). simpl. rewrite Hrange.
    destruct (Lattice.join rg1 rg2) as [rg| |]; simpl; split; congruence.
  - split; [done|].
    destruct (Lattice.join ty1 ty2) as [ty| |]; simpl; [|done..].
    destruct (Lattice.join rg1 rg2) as [rg| |]; simpl; [|done..].
    intros [= -> ->]. by destruct Hty as [_ Hty]; specialize (Hty eq_refl).
Qed.

End laws.

Lemma interval_order (x y : IntervalLattice.t) :
  Lattice.less_equal x y = Ok true <-> Lattice.join x y = Ok y.
Proof.
  destruct x as [bx lx ux], y as [yb ly uy].
  unfold Lattice.less_equal, Lattice.join, Lattice.less_equal_via, Lattice.join_via,
    Lattice.replace. simpl.
  unfold IntervalLattice.is_top, IntervalLattice.is_bottom,
    IntervalLattice._less_equal, IntervalLattice._join. simpl.
  destruct bx, yb, lx as [lx|], ux as [ux|], ly as [ly|], uy as [uy|]; simpl;
    repeat match goal with
           | |- context [(?a <=? ?b)] => destruct (Z.leb_spec a b)
           end; simpl; split; intros; simplify_eq; try done; try lia;
    repeat f_equal; lia.
Qed.

Lemma less_equal_iff_join_witness :
  Lattice.less_equal InputAssumptionLatticeExamples.int_0_10
    InputAssumptionLatticeExamples.float_0_20 = Ok true
  <-> Lattice.join InputAssumptionLatticeExamples.int_0_10
        InputAssumptionLatticeExamples.float_0_20
      = Ok InputAssumptionLatticeExamples.float_0_20.
Proof.
  apply (less_equal_iff_join InputAssumptionLatticeExamples.int_0_10
           InputAssumptionLatticeExamples.float_0_20 interval_order).
Defined.

End AssumptionLatticeLaws.

(** ** The frame of [join] in the store of objects *)

Module HeapFrameFacts.
Import Heap.

Section facts.

Context {R : Type} `{!Lattice.Ops R} {Cond : Type}.

#[local] Abbreviation obj := (Heap.obj R Cond).
#[local] Abbreviation heap := (gmap loc obj).
Implicit Types h : heap.

(** X25: [a.join(b)] changes no object outside the receiver.  For a
    receiver and an argument that are separate trees of objects, the call
    deallocates nothing; every structure [c] that shares no object with the
    receiver is after the call what it was before; and the receiver is
    again a tree, over objects of the two sides and new ones. *)
Theorem join_frame fuel h a b (Fa Fb : gset loc) h' :
  tree h a Fa -> tree h b Fb -> Fa ## Fb ->
  join (R:=R) (Cond:=Cond) fuel h a b = Ok h' ->
  dom h ⊆ dom h'
  /\ (forall c (Fc : gset loc), tree h c Fc -> Fa ## Fc ->
        tree h' c Fc /\ forall x, x ∈ Fc -> h' !! x = h !! x)
  /\ (exists Fa', tree h' a Fa' /\ Fa' ⊆ Fa ∪ Fb ∪ (dom h' ∖ dom h)).
Proof.
  intros Ha Hb Hdisj Hjoin.
  destruct (HeapFacts.join_joined fuel h a b Fa Fb h' Ha Hb Hdisj Hjoin)
    as [[Hdom Hm] Htree].
  split_and!; [done| |done].
  intros c Fc Hc Hsep. split.
  - apply (HeapFacts.tree_modifies h h' c Fc Fa); [done|by split|set_solver].
  - intros x Hx. apply Hm; [|set_solver]. by apply (HeapFacts.tree_dom h c Fc).
Qed.

End facts.
End HeapFrameFacts.

Module HeapFrameExampleFacts.
Import Heap HeapExamples HeapFrameExamples.

Lemma separate_nested_tree : tree separate 7 separate_nested.
Proof. unfold separate_nested. HeapExampleFacts.solve_tree. Qed.

Lemma separate_nested_disjoint : separate_receiver ## separate_nested.
Proof. unfold separate_receiver, separate_nested. set_solver. Qed.

Lemma join_frame_witness :
  tree separate_after 7 separate_nested
  /\ separate_after !! 9%positive = Some (OAssumption 10 11).
Proof.
  destruct (HeapFrameFacts.join_frame 10 separate 1 5
              separate_receiver separate_argument separate_after
              HeapExampleFacts.separate_receiver_tree
              HeapExampleFacts.separate_argument_tree
              HeapExampleFacts.separate_disjoint
              HeapExampleFacts.separate_join) as (_ & Hframe & _).
  destruct (Hframe 7%positive separate_nested separate_nested_tree
              separate_nested_disjoint) as [Htree Hobj].
  split; [exact Htree|].
  rewrite Hobj; [reflexivity|]. unfold separate_nested. set_solver.
Defined.

(** An unresolved nested element in front of a leaf is after the join the
    object it was, in the store of objects as in the value semantics: the
    receiver still reads as [1 x [NONE]]. *)
Example facing_leaf_join :
  join 10 facing_leaf 1 5 = Ok facing_leaf_after
  /\ facing_leaf_after !! 2%positive = Some (OList [3%positive])
  /\ facing_leaf_after !! 3%positive = Some (input None 4 false)
  /\ read_back 6 facing_leaf_after 1
     = Some (InputAssumptionLattice.Nested
               (InputAssumptionLattice.init (Some 1)
                  (Some [InputAssumptionLattice.Nested
                           InputAssumptionLatticeExamples.unresolved])))
  /\ InputAssumptionLattice.join
       (InputAssumptionLattice.init (Some 1)
          (Some [InputAssumptionLattice.Nested InputAssumptionLatticeExamples.unresolved]))
       (InputAssumptionLattice.init (Some 1) (Some InputAssumptionLatticeExamples.seq))
     = Ok (InputAssumptionLattice.init (Some 1)
             (Some [InputAssumptionLattice.Nested
                      InputAssumptionLatticeExamples.unresolved])).
Proof. repeat split; vm_compute; reflexivity. Qed.

End HeapFrameExampleFacts.
